(** * pit: a minimal content-addressable object store

    A shallow embedding of [pit.py] (object model, serialization, content
    hashing, the durable write protocol, repository bootstrap and the head
    pointer) together with the properties stated about it.

    Conventions of the embedding:
    - a Python [str] is a list of Unicode code points ([pystr]);
    - a Python [bytes]/[bytearray] is a list of [Byte.byte] ([bytes]);
    - code that can raise returns a [result]; code that also touches the
      file system, the environment or the standard streams is a function
      from [world] to a [result] and a new [world]. *)

From Stdlib Require Import ZArith NArith Lia Ascii String Decimal DecimalN.
From Stdlib.Strings Require Import Byte.
From stdpp Require Import base option list sorting gmap.

Local Open Scope N_scope.

(** ** Strings and bytes *)

Definition pystr : Type := list N.
Definition bytes : Type := list byte.

(** An ASCII literal read as a Python [str]. *)
Definition py (s : string) : pystr :=
  map N_of_ascii (list_ascii_of_string s).
Arguments py s%_string.

(** An ASCII literal read as a Python bytes literal [b'...']. *)
Definition b (s : string) : bytes := list_byte_of_string s.
Arguments b s%_string.

(** The byte with value [n mod 256]. *)
Definition byte_of_N (n : N) : byte :=
  match Byte.of_N (n mod 256) with
  | Some x => x
  | None => x00
  end.

(** ** Exceptions *)

Inductive errno : Type :=
  | ENOENT | EEXIST | EACCES | ENOTDIR | EISDIR.

(** The exceptions the program can raise.  In Python 3 [IOError] is an
    alias of [OSError], and [FileNotFoundError], [FileExistsError],
    [PermissionError]... are the subclasses selected by [errno]. *)
Inductive exn : Type :=
  | OSError (e : errno)
  | ValueError
  | UnicodeEncodeError
  | UnboundLocalError
  | AttributeError
  | KeyError (key : pystr)
  | SystemExit (code : Z).

Inductive result (A : Type) : Type :=
  | Ok (a : A)
  | Raise (e : exn).
Arguments Ok {A} a.
Arguments Raise {A} e.

#[global] Instance result_ret : MRet result := fun A a => Ok a.
#[global] Instance result_bind : MBind result := fun A B k r =>
  match r with
  | Ok a => k a
  | Raise e => Raise e
  end.

Definition is_ok {A} (r : result A) : bool :=
  match r with Ok _ => true | Raise _ => false end.

(** ** [str.encode()]: UTF-8 *)

(** UTF-8 encoding of one code point; lone surrogates (and values that are
    not code points at all) are rejected, as by the strict error handler. *)
Definition utf8_char (c : N) : result bytes :=
  if c <? 0x80 then Ok [byte_of_N c]
  else if c <? 0x800 then
    Ok [byte_of_N (0xC0 + c / 64); byte_of_N (0x80 + c mod 64)]
  else if c <? 0x10000 then
    if (0xD800 <=? c) && (c <=? 0xDFFF) then Raise UnicodeEncodeError
    else Ok [byte_of_N (0xE0 + c / 4096);
             byte_of_N (0x80 + (c / 64) mod 64);
             byte_of_N (0x80 + c mod 64)]
  else if c <? 0x110000 then
    Ok [byte_of_N (0xF0 + c / 262144);
        byte_of_N (0x80 + (c / 4096) mod 64);
        byte_of_N (0x80 + (c / 64) mod 64);
        byte_of_N (0x80 + c mod 64)]
  else Raise UnicodeEncodeError.

Fixpoint str_encode (s : pystr) : result bytes :=
  match s with
  | [] => Ok []
  | c :: s' =>
      x ← utf8_char c; y ← str_encode s'; Ok (x ++ y)
  end.

(** ** [str(n)] and the [%d] conversions *)

Fixpoint uint_str (d : Decimal.uint) : pystr :=
  match d with
  | Nil => []
  | D0 d => 48 :: uint_str d
  | D1 d => 49 :: uint_str d
  | D2 d => 50 :: uint_str d
  | D3 d => 51 :: uint_str d
  | D4 d => 52 :: uint_str d
  | D5 d => 53 :: uint_str d
  | D6 d => 54 :: uint_str d
  | D7 d => 55 :: uint_str d
  | D8 d => 56 :: uint_str d
  | D9 d => 57 :: uint_str d
  end.

(** [str(n)] for a non-negative integer: decimal, no leading zero. *)
Definition str_of_N (n : N) : pystr := uint_str (N.to_uint n).

(** [str(z)] / [%d] for any integer. *)
Definition str_of_Z (z : Z) : pystr :=
  match z with
  | Zneg p => 45 :: str_of_N (Npos p)
  | _ => str_of_N (Z.to_N z)
  end.

(** ['%0<w>d' % n] for [0 <= n]: zero padding on the left up to width [w]. *)
Definition zero_pad (w : nat) (n : N) : pystr :=
  let s := str_of_N n in
  replicate (w - length s)%nat 48 ++ s.

(** The value of a string of decimal digits (most significant first). *)
Definition decimal_value (s : pystr) : N :=
  fold_left (fun acc c => 10 * acc + (c - 48)) s 0.

Definition is_digit (c : N) : bool := (48 <=? c) && (c <=? 57).

(** ** [hashlib.sha1]

    The digest function of the Python standard library, written out after
    FIPS 180-4 on 32-bit words held in [N] with explicit wrap-around. *)

Module SHA1.

Definition w32 (x : N) : N := x mod 2 ^ 32.
Definition add32 (x y : N) : N := w32 (x + y).
Definition rotl (n x : N) : N :=
  w32 (N.lor (N.shiftl x n) (N.shiftr x (32 - n))).
Definition not32 (x : N) : N := N.lxor (w32 x) 0xFFFFFFFF.

Definition f (t : nat) (x y z : N) : N :=
  if (t <? 20)%nat then N.lor (N.land x y) (N.land (not32 x) z)
  else if (t <? 40)%nat then N.lxor (N.lxor x y) z
  else if (t <? 60)%nat then
    N.lor (N.lor (N.land x y) (N.land x z)) (N.land y z)
  else N.lxor (N.lxor x y) z.

Definition K (t : nat) : N :=
  if (t <? 20)%nat then 0x5A827999
  else if (t <? 40)%nat then 0x6ED9EBA1
  else if (t <? 60)%nat then 0x8F1BBCDC
  else 0xCA62C1D6.

Definition H0 : list N :=
  [0x67452301; 0xEFCDAB89; 0x98BADCFE; 0x10325476; 0xC3D2E1F0].

(** [n] as [k] big-endian bytes. *)
Fixpoint be_bytes (k : nat) (n : N) : bytes :=
  match k with
  | O => []
  | S k' => byte_of_N (N.shiftr n (8 * N.of_nat k')) :: be_bytes k' n
  end.

Definition be_word (l : bytes) : N :=
  fold_left (fun acc x => 256 * acc + Byte.to_N x) l 0.

(** Message padding: a one bit, zeros up to 56 modulo 64 bytes, then the
    bit length on 64 bits. *)
Definition pad (msg : bytes) : bytes :=
  let l := length msg in
  let zeros := ((119 - l mod 64) mod 64)%nat in
  msg ++ [x80] ++ replicate zeros x00 ++ be_bytes 8 (8 * N.of_nat l).

(** Cut a list into consecutive pieces of [k] elements. *)
Fixpoint chunks {A} (fuel k : nat) (l : list A) : list (list A) :=
  match fuel with
  | O => []
  | S fuel' =>
      match l with
      | [] => []
      | _ => take k l :: chunks fuel' k (drop k l)
      end
  end.

Definition words (block : bytes) : list N :=
  map be_word (chunks 16 4 block).

(** One of the eighty rounds: [st] is (a, b, c, d, e), [ws] the sixteen
    most recent schedule words, oldest first. *)
Definition round (t : nat) (st : N * N * N * N * N) (ws : list N)
  : (N * N * N * N * N) * list N :=
  let '(a, x, c, d, e) := st in
  let wt := nth 0 ws 0 in
  let tmp := add32 (add32 (add32 (add32 (rotl 5 a) (f t x c d)) e) (K t)) wt in
  let next := rotl 1 (N.lxor (N.lxor (N.lxor (nth 13 ws 0) (nth 8 ws 0))
                                     (nth 2 ws 0)) (nth 0 ws 0)) in
  ((tmp, a, rotl 30 x, c, d), tl ws ++ [next]).

Fixpoint rounds (n t : nat) (st : N * N * N * N * N) (ws : list N)
  : N * N * N * N * N :=
  match n with
  | O => st
  | S n' => let '(st', ws') := round t st ws in rounds n' (S t) st' ws'
  end.

Definition compress (h : list N) (block : bytes) : list N :=
  match h with
  | [h0; h1; h2; h3; h4] =>
      let '(a, x, c, d, e) := rounds 80 0 (h0, h1, h2, h3, h4) (words block) in
      [add32 h0 a; add32 h1 x; add32 h2 c; add32 h3 d; add32 h4 e]
  | _ => h
  end.

Definition digest (msg : bytes) : bytes :=
  let padded := pad msg in
  let h := fold_left compress (chunks (length padded) 64 padded) H0 in
  flat_map (be_bytes 4) h.

End SHA1.

(** [bytes.hex()] / [hexdigest()]: two lowercase hexadecimal digits per
    byte. *)
Definition hex_digit (n : N) : N := if n <? 10 then 48 + n else 87 + n.

Definition hexlify (l : bytes) : pystr :=
  flat_map (fun x => [hex_digit (Byte.to_N x / 16);
                      hex_digit (Byte.to_N x mod 16)]) l.

(** [hashlib.sha1(content).hexdigest()]. *)
Definition sha1_hexdigest (content : bytes) : pystr :=
  hexlify (SHA1.digest content).

(** ** [bytearray.fromhex]

    Pairs of hexadecimal digits (either case), with ASCII whitespace
    skipped between the pairs; anything else is a [ValueError]. *)

Definition is_space (c : N) : bool :=
  (c =? 32) || ((9 <=? c) && (c <=? 13)).

Definition digit_value (c : N) : option N :=
  if (48 <=? c) && (c <=? 57) then Some (c - 48)
  else if (97 <=? c) && (c <=? 102) then Some (c - 87)
  else if (65 <=? c) && (c <=? 70) then Some (c - 55)
  else None.

Fixpoint fromhex (s : pystr) : result bytes :=
  match s with
  | [] => Ok []
  | c :: s1 =>
      if is_space c then fromhex s1
      else
        match digit_value c, s1 with
        | Some top, d :: s2 =>
            match digit_value d with
            | Some bot =>
                rest ← fromhex s2; Ok (byte_of_N (16 * top + bot) :: rest)
            | None => Raise ValueError
            end
        | _, _ => Raise ValueError
        end
  end.

(** ** Comparison of strings and [sorted]

    Python compares [str] values lexicographically by code point, and
    [sorted] is a stable sort that only asks [<] of the keys. *)

Fixpoint str_lt (s t : pystr) : bool :=
  match s, t with
  | _, [] => false
  | [], _ :: _ => true
  | c :: s', d :: t' =>
      if c <? d then true else if d <? c then false else str_lt s' t'
  end.

Section Sorted.
Context {A : Type} (key : A → pystr).

(** [x] goes in front of the first element whose key is not below its
    own, so equal keys keep their input order. *)
Fixpoint insert_by (x : A) (l : list A) : list A :=
  match l with
  | [] => [x]
  | y :: l' =>
      if str_lt (key y) (key x) then y :: insert_by x l'
      else x :: y :: l'
  end.

Definition sorted (l : list A) : list A := foldr insert_by [] l.
End Sorted.

(** ** [datetime] and [strftime] *)

(** A [datetime]: the broken-down wall-clock fields and the result of
    [utcoffset()], [None] for a naive value, otherwise a [timedelta] held
    as its total number of microseconds. *)
Record datetime : Type := mkdatetime {
  year : Z; month : Z; day : Z;
  hour : Z; minute : Z; second : Z; microsecond : Z;
  utcoffset : option Z
}.

(** What [%z] expands to: empty for a naive value, otherwise sign, hours and
    minutes, followed by seconds and microseconds only when they are not
    zero. *)
Definition strftime_z (t : datetime) : pystr :=
  match utcoffset t with
  | None => []
  | Some offset =>
      let sign := if (offset <? 0)%Z then py "-" else py "+" in
      let offset := Z.to_N (Z.abs offset) in
      let u := offset mod 1000000 in
      let secs := offset / 1000000 in
      let h := secs / 3600 in
      let m := (secs / 60) mod 60 in
      let s := secs mod 60 in
      if negb (u =? 0) then
        sign ++ zero_pad 2 h ++ zero_pad 2 m ++ zero_pad 2 s
             ++ py "." ++ zero_pad 6 u
      else if negb (s =? 0) then
        sign ++ zero_pad 2 h ++ zero_pad 2 m ++ zero_pad 2 s
      else sign ++ zero_pad 2 h ++ zero_pad 2 m
  end.

(** ** The content model *)

Record Author : Type := mkAuthor {
  Author_name : pystr;
  Author_email : pystr;
  Author_time : datetime
}.

Record Entry : Type := mkEntry {
  Entry_name : pystr;
  Entry_id : pystr
}.

(** The three classes handed to [Database.store], by their instance
    attributes other than [id]. *)
Inductive content : Type :=
  | BlobC (data : bytes)
  | CommitC (tree : pystr) (author : Author) (message : pystr)
  | TreeC (entries : list Entry).

(** An object and its [id] attribute; [None] while the attribute does not
    exist. *)
Record pyobject : Type := mkobject {
  body : content;
  id_attr : option pystr
}.

(** The constructors: only [Blob.__init__] sets [id] (to the empty
    string). *)
Definition Blob (data : bytes) : pyobject :=
  {| body := BlobC data; id_attr := Some [] |}.
Definition Commit (tree : pystr) (author : Author) (message : pystr)
  : pyobject :=
  {| body := CommitC tree author message; id_attr := None |}.
Definition Tree (entries : list Entry) : pyobject :=
  {| body := TreeC entries; id_attr := None |}.

(** The class attribute [type]. *)
Definition type_of (c : content) : bytes :=
  match c with
  | BlobC _ => b "blob"
  | CommitC _ _ _ => b "commit"
  | TreeC _ => b "tree"
  end.

Definition Tree_MODE : bytes := b "100644".

Definition Blob_serialize (data : bytes) : result bytes := Ok data.

(** The body of the loop of [Tree.serialize] for one entry. *)
Definition Tree_entry (entry : Entry) : result bytes :=
  n ← str_encode (Entry_name entry);
  d ← fromhex (Entry_id entry);
  Ok (Tree_MODE ++ b " " ++ n ++ [x00] ++ d).

Fixpoint Tree_entries (l : list Entry) : result (list bytes) :=
  match l with
  | [] => Ok []
  | entry :: l' =>
      output ← Tree_entry entry;
      rest ← Tree_entries l';
      Ok (output :: rest)
  end.

Definition Tree_serialize (entries : list Entry) : result bytes :=
  outputs ← Tree_entries (sorted Entry_name entries);
  Ok (concat outputs).

(** [sep.join(lines)]. *)
Fixpoint str_join (sep : pystr) (lines : list pystr) : pystr :=
  match lines with
  | [] => []
  | [x] => x
  | x :: rest => x ++ sep ++ str_join sep rest
  end.

(** The storage frame built in [Database.store]:
    [type + b' ' + str(len(data)).encode() + b'\x00' + data]. *)
Definition frame (type : bytes) (data : bytes) : result bytes :=
  size ← str_encode (str_of_N (N.of_nat (length data)));
  Ok (type ++ b " " ++ size ++ [x00] ++ data).


(** ** [os.path] (POSIX flavour) *)

Definition sep : N := 47.

Definition startswith (prefix s : pystr) : bool :=
  bool_decide (take (length prefix) s = prefix).

Definition endswith (suffix s : pystr) : bool :=
  bool_decide (drop (length s - length suffix) s = suffix)
  && bool_decide (length suffix ≤ length s)%nat.

Fixpoint drop_while {A} (p : A → bool) (l : list A) : list A :=
  match l with
  | [] => []
  | x :: l' => if p x then drop_while p l' else l
  end.

(** [s.rstrip('/')]. *)
Definition rstrip_sep (s : pystr) : pystr :=
  rev (drop_while (N.eqb sep) (rev s)).

(** [os.path.join(a, b)]. *)
Definition join2 (a p : pystr) : pystr :=
  if startswith [sep] p then p
  else if bool_decide (a = []) || endswith [sep] a then a ++ p
  else a ++ [sep] ++ p.

(** [os.path.join(a, *ps)]. *)
Definition join (a : pystr) (ps : list pystr) : pystr :=
  fold_left join2 ps a.

(** [os.path.dirname(p)]: everything up to the last separator, without
    trailing separators unless nothing else is left. *)
Definition dirname (p : pystr) : pystr :=
  let head := rev (drop_while (fun c => negb (c =? sep)) (rev p)) in
  if bool_decide (head ≠ []) && bool_decide (head ≠ replicate (length head) sep)
  then rstrip_sep head
  else head.

(** [s.split('/')]. *)
Fixpoint split_sep (cur : pystr) (s : pystr) : list pystr :=
  match s with
  | [] => [rev cur]
  | c :: s' =>
      if c =? sep then rev cur :: split_sep [] s'
      else split_sep (c :: cur) s'
  end.

Definition dotdot : pystr := py "..".

(** The loop of [os.path.normpath] over the components; [new_comps] is
    kept reversed. *)
Fixpoint normpath_comps (initial_slashes : nat) (comps new_comps : list pystr)
  : list pystr :=
  match comps with
  | [] => rev new_comps
  | comp :: rest =>
      if bool_decide (comp = []) || bool_decide (comp = py ".") then
        normpath_comps initial_slashes rest new_comps
      else if bool_decide (comp ≠ dotdot)
              || (bool_decide (initial_slashes = 0%nat)
                  && bool_decide (new_comps = []))
              || bool_decide (head new_comps = Some dotdot) then
        normpath_comps initial_slashes rest (comp :: new_comps)
      else
        normpath_comps initial_slashes rest (tail new_comps)
  end.

Definition normpath (path : pystr) : pystr :=
  if bool_decide (path = []) then py "."
  else
    let initial_slashes :=
      if startswith [sep] path then
        if startswith [sep; sep] path && negb (startswith [sep; sep; sep] path)
        then 2%nat else 1%nat
      else 0%nat in
    let comps := normpath_comps initial_slashes (split_sep [] path) [] in
    let path := replicate initial_slashes sep ++ str_join [sep] comps in
    if bool_decide (path = []) then py "." else path.

(** [os.path.abspath(path)] in a process whose working directory is
    [cwd]. *)
Definition abspath (cwd path : pystr) : pystr :=
  normpath (if startswith [sep] path then path else join cwd [path]).

(** ** The process and its environment *)

(** A file-system node: a directory (with whether entries may be created
    in it) or a regular file and its contents. *)
Inductive node : Type :=
  | Dir (writable : bool)
  | File (data : bytes).

(** Everything outside the program that it reads or changes.  The file
    system maps absolute path strings to nodes. *)
Record world : Type := mkworld {
  fs : gmap pystr node;
  cwd : pystr;                  (* os.getcwd() *)
  environ : gmap pystr pystr;   (* os.environ *)
  stdin : list pystr;           (* the lines still to be read *)
  stdout : pystr;
  stderr : pystr;
  clock : datetime;             (* the wall clock, for datetime.now() *)
  entropy : list N              (* the draws still to come from random *)
}.

Definition set_fs (f : gmap pystr node → gmap pystr node) (w : world) : world :=
  mkworld (f (fs w)) (cwd w) (environ w) (stdin w) (stdout w) (stderr w)
          (clock w) (entropy w).

(** Programs: a result or an exception, and the world afterwards. *)
Definition M (A : Type) : Type := world → result A * world.

#[global] Instance M_ret : MRet M := fun A a w => (Ok a, w).
#[global] Instance M_bind : MBind M := fun A B k m w =>
  match m w with
  | (Ok a, w') => k a w'
  | (Raise e, w') => (Raise e, w')
  end.

Definition raise {A} (e : exn) : M A := fun w => (Raise e, w).

Definition lift {A} (r : result A) : M A := fun w => (r, w).

(** [try: m  except OSError as e: handler e]; other exceptions pass. *)
Definition try_except_OSError {A} (m : M A) (handler : errno → M A) : M A :=
  fun w =>
    match m w with
    | (Raise (OSError e), w') => handler e w'
    | other => other
    end.

(** The key of the file system a path names in a process whose working
    directory is [dir]: relative paths start from [dir]. *)
Definition resolve_in (dir path : pystr) : pystr :=
  if startswith [sep] path then path else join dir [path].

Definition resolve (w : world) (path : pystr) : pystr :=
  resolve_in (cwd w) path.

(** The directory a new entry [k] would be created in, as the system sees
    it when it walks the path. *)
Definition parent_of (w : world) (k : pystr) : result bool :=
  match fs w !! dirname k with
  | None => Raise (OSError ENOENT)
  | Some (File _) => Raise (OSError ENOTDIR)
  | Some (Dir writable) => Ok writable
  end.

(** [os.mkdir(path)] and [pathlib.Path(path).mkdir()]. *)
Definition os_mkdir (path : pystr) : M unit := fun w =>
  let k := resolve w path in
  match parent_of w k with
  | Raise e => (Raise e, w)
  | Ok writable =>
      match fs w !! k with
      | Some _ => (Raise (OSError EEXIST), w)
      | None =>
          if writable then (Ok (), set_fs (insert k (Dir true)) w)
          else (Raise (OSError EACCES), w)
      end
  end.

(** [open(path, 'a+b')] and [open(path, 'a+')]: the file is created when
    missing; the handle is the key of the file. *)
Definition open_append (path : pystr) : M pystr := fun w =>
  let k := resolve w path in
  match parent_of w k with
  | Raise e => (Raise e, w)
  | Ok writable =>
      match fs w !! k with
      | Some (Dir _) => (Raise (OSError EISDIR), w)
      | Some (File _) => (Ok k, w)
      | None =>
          if writable then (Ok k, set_fs (insert k (File [])) w)
          else (Raise (OSError EACCES), w)
      end
  end.

(** [f.write(data)] on a handle opened for appending. *)
Definition file_write (f : pystr) (data : bytes) : M unit := fun w =>
  let old := match fs w !! f with Some (File d) => d | _ => [] end in
  (Ok (), set_fs (insert f (File (old ++ data))) w).

(** [f.close()]: nothing is left to be flushed in this model. *)
Definition file_close (f : pystr) : M unit := mret ().

(** [os.rename(src, dst)] of a regular file; an existing file at [dst] is
    replaced. *)
Definition os_rename (src dst : pystr) : M unit := fun w =>
  let ks := resolve w src in
  let kd := resolve w dst in
  match parent_of w ks, fs w !! ks, parent_of w kd with
  | Raise e, _, _ => (Raise e, w)
  | Ok _, None, _ => (Raise (OSError ENOENT), w)
  | Ok _, Some _, Raise e => (Raise e, w)
  | Ok ws, Some n, Ok wd =>
      if negb (ws && wd) then (Raise (OSError EACCES), w)
      else
        match n, fs w !! kd with
        | File _, Some (Dir _) => (Raise (OSError EISDIR), w)
        | Dir _, Some (File _) => (Raise (OSError ENOTDIR), w)
        | _, _ => (Ok (), set_fs (fun m => <[kd := n]> (delete ks m)) w)
        end
  end.

Fixpoint strip_prefix (prefix s : pystr) : option pystr :=
  match prefix, s with
  | [], _ => Some s
  | c :: prefix', d :: s' => if c =? d then strip_prefix prefix' s' else None
  | _ :: _, [] => None
  end.

(** The name under which key [k] is an entry of directory [d], if it is
    one. *)
Definition entry_name (d k : pystr) : option pystr :=
  match strip_prefix (if endswith [sep] d then d else d ++ [sep]) k with
  | Some n => if bool_decide (n ≠ []) && bool_decide (sep ∉ n) then Some n
              else None
  | None => None
  end.

(** [os.listdir(path)], in the order the system happens to give. *)
Definition os_listdir (path : pystr) : M (list pystr) := fun w =>
  let k := resolve w path in
  match fs w !! k with
  | None => (Raise (OSError ENOENT), w)
  | Some (File _) => (Raise (OSError ENOTDIR), w)
  | Some (Dir _) => (Ok (omap (entry_name k) (map fst (map_to_list (fs w)))), w)
  end.

(** [open(path, 'rb').read()]. *)
Definition read_bytes (path : pystr) : M bytes := fun w =>
  match fs w !! resolve w path with
  | None => (Raise (OSError ENOENT), w)
  | Some (Dir _) => (Raise (OSError EISDIR), w)
  | Some (File data) => (Ok data, w)
  end.

(** [os.environ[key]]. *)
Definition environ_get (key : pystr) : M pystr := fun w =>
  match environ w !! key with
  | Some v => (Ok v, w)
  | None => (Raise (KeyError key), w)
  end.

(** [sys.stdin.readline()]: the next line, or the empty string at the end
    of the input. *)
Definition stdin_readline : M pystr := fun w =>
  match stdin w with
  | [] => (Ok [], w)
  | line :: rest =>
      (Ok line, mkworld (fs w) (cwd w) (environ w) rest (stdout w) (stderr w)
                        (clock w) (entropy w))
  end.

Definition stdout_write (s : pystr) : M unit := fun w =>
  (Ok (), mkworld (fs w) (cwd w) (environ w) (stdin w) (stdout w ++ s)
                  (stderr w) (clock w) (entropy w)).

Definition stderr_write (s : pystr) : M unit := fun w =>
  (Ok (), mkworld (fs w) (cwd w) (environ w) (stdin w) (stdout w)
                  (stderr w ++ s) (clock w) (entropy w)).

(** [print(s)]. *)
Definition print (s : pystr) : M unit := stdout_write (s ++ [10]).

(** [sys.exit(code)]. *)
Definition sys_exit {A} (code : Z) : M A := raise (SystemExit code).

(** [datetime.now()]: the wall clock, with no time zone attached. *)
Definition datetime_now : M datetime := fun w =>
  let t := clock w in
  (Ok (mkdatetime (year t) (month t) (day t) (hour t) (minute t) (second t)
                  (microsecond t) None), w).

(** [random.choices(population, k=k)]: each draw selects one element. *)
Definition random_choices (population : pystr) (k : nat) : M pystr := fun w =>
  let draws := take k (entropy w ++ replicate k 0) in
  (Ok (map (fun d => nth (N.to_nat (d mod N.of_nat (length population)))
                         population 0) draws),
   mkworld (fs w) (cwd w) (environ w) (stdin w) (stdout w) (stderr w)
           (clock w) (drop k (entropy w))).

Definition os_getcwd : M pystr := fun w => (Ok (cwd w), w).

(** ** The program *)

Section Pit.

(** What the C library prints for [%s]: the seconds since the Epoch that
    it derives from the broken-down fields, read as local time. *)
Variable epoch_seconds : datetime → Z.

(** [zlib.compress]. *)
Variable zlib_compress : bytes → bytes.

(** [datetime.strftime(t, "%s %z")]. *)
Definition strftime_s_z (t : datetime) : pystr :=
  str_of_Z (epoch_seconds t) ++ py " " ++ strftime_z t.

Definition Author_serialize (self : Author) : pystr :=
  let timestamp := strftime_s_z (Author_time self) in
  Author_name self ++ py " " ++ Author_email self ++ py " " ++ timestamp.

Definition Commit_serialize (tree : pystr) (author : Author)
    (message : pystr) : result bytes :=
  let lines := [
    py "tree " ++ tree;
    py "author " ++ Author_serialize author;
    py "committer " ++ Author_serialize author;
    [];
    message
  ] in
  str_encode (str_join [10] lines).

Definition serialize (object : pyobject) : result bytes :=
  match body object with
  | BlobC data => Blob_serialize data
  | CommitC tree author message => Commit_serialize tree author message
  | TreeC entries => Tree_serialize entries
  end.


Inductive pyvalue : Type :=
  | PyNone
  | PyStr (s : pystr).

Record Database : Type := mkDatabase { Database_pathname : pystr }.
Record Workspace : Type := mkWorkspace { Workspace_pathname : pystr }.

Definition ascii_uppercase : pystr := py "ABCDEFGHIJKLMNOPQRSTUVWXYZ".
Definition digits : pystr := py "0123456789".

Definition generate_temp_name : M pystr :=
  suffix ← random_choices (ascii_uppercase ++ digits) 6;
  mret (py "tmp_obj_" ++ suffix).

(** The local variable [f] of [write_object] is [None] while it is
    unbound; reading it then raises [UnboundLocalError]. *)
Definition read_local {A} (v : option A) : M A :=
  match v with
  | Some x => mret x
  | None => raise UnboundLocalError
  end.

Definition write_object (self : Database) (id : pystr) (content : bytes)
  : M unit :=
  let object_path := join (Database_pathname self) [take 2 id; drop 2 id] in
  let dirname := dirname object_path in
  name ← generate_temp_name;
  let temp_path := join dirname [name] in
  f ← try_except_OSError
        (h ← open_append temp_path; mret (Some h))
        (fun e =>
           match e with
           | ENOENT =>
               os_mkdir dirname;;
               h ← open_append temp_path; mret (Some h)
           | _ => mret None
           end);
  let compressed := zlib_compress content in
  f ← read_local f;
  file_write f compressed;;
  file_close f;;
  os_rename temp_path object_path.

(** [Database.store]: the value returned, the object as the call leaves
    it, and the world.  The function has no [return] statement, so a call
    that completes evaluates to [None]; [object.id] is assigned before
    [write_object] is called and stays assigned if that call raises. *)
Definition store (self : Database) (object : pyobject) (w : world)
  : result pyvalue * pyobject * world :=
  match serialize object with
  | Raise e => (Raise e, object, w)
  | Ok data =>
      match frame (type_of (body object)) data with
      | Raise e => (Raise e, object, w)
      | Ok content =>
          let id := sha1_hexdigest content in
          let object := mkobject (body object) (Some id) in
          match write_object self id content w with
          | (Ok _, w') => (Ok PyNone, object, w')
          | (Raise e, w') => (Raise e, object, w')
          end
      end
  end.

(** A call of [store] in a sequence of statements that goes on with the
    object. *)
Definition store_then (self : Database) (object : pyobject) : M pyobject :=
  fun w =>
    match store self object w with
    | (Ok _, object', w') => (Ok object', w')
    | (Raise e, _, w') => (Raise e, w')
    end.

(** Reading the attribute [id]. *)
Definition get_id (object : pyobject) : M pystr :=
  match id_attr object with
  | Some id => mret id
  | None => raise AttributeError
  end.

Definition list_files (self : Workspace) : M (list pystr) :=
  names ← os_listdir (Workspace_pathname self);
  mret (sorted (fun f => f)
          (filter (fun f => negb (endswith (py ".git") f)
                            && negb (endswith (py ".DS_Store") f)) names)).

Definition read_file (self : Workspace) (path : pystr) : M bytes :=
  read_bytes (join path []).

Definition init (args_path : pystr) : M unit :=
  cwd ← os_getcwd;
  let root_path := abspath cwd args_path in
  let git_path := join root_path [py ".git"] in
  try_except_OSError
    (os_mkdir git_path;;
     os_mkdir (join git_path [py "objects"]);;
     os_mkdir (join git_path [py "refs"]))
    (fun exc =>
       stderr_write (py "Unable to initialize git paths");;
       sys_exit 1);;
  stdout_write (py "Initialized empty Pit repository in " ++ root_path);;
  sys_exit 0.

(** The loop of [commit] over the files of the working tree. *)
Fixpoint store_files (workspace : Workspace) (database : Database)
    (files : list pystr) (entries : list Entry) : M (list Entry) :=
  match files with
  | [] => mret entries
  | file :: rest =>
      data ← read_file workspace file;
      blob ← store_then database (Blob data);
      blob_id ← get_id blob;
      store_files workspace database rest (entries ++ [mkEntry file blob_id])
  end.

Definition commit : M unit :=
  cwd ← os_getcwd;
  let root_path := abspath cwd cwd in
  let git_path := join root_path [py ".git"] in
  let db_path := join git_path [py "objects"] in
  let workspace := mkWorkspace root_path in
  let database := mkDatabase db_path in
  files ← list_files workspace;
  entries ← store_files workspace database files [];
  tree ← store_then database (Tree entries);
  name ← environ_get (py "GIT_AUTHOR_NAME");
  email ← environ_get (py "GIT_AUTHOR_EMAIL");
  now ← datetime_now;
  let author := mkAuthor name email now in
  message ← stdin_readline;
  tree_id ← get_id tree;
  commit ← store_then database (Commit tree_id author message);
  let head_path := join git_path [py "HEAD"] in
  file ← open_append head_path;
  commit_id ← get_id commit;
  text ← lift (str_encode commit_id);
  file_write file text;;
  file_close file;;
  commit_id ← get_id commit;
  print (py "[(root-commit) " ++ commit_id ++ py "] " ++ message).

Inductive command : Type :=
  | cmd_init (path : pystr)
  | cmd_commit.

Definition main (args : command) : M unit :=
  match args with
  | cmd_init path => init path
  | cmd_commit => commit
  end.

End Pit.

(** The exit status of the process for the outcome of [main]. *)
Definition exit_status {A} (r : result A) : Z :=
  match r with
  | Ok _ => 0
  | Raise (SystemExit code) => code
  | Raise _ => 1
  end.

(** ** Vocabulary of the statements *)

Definition is_ascii (c : N) : bool := c <? 128.

Definition is_lower_hex (c : N) : bool :=
  is_digit c || ((97 <=? c) && (c <=? 102)).

Definition is_hex (c : N) : bool :=
  match digit_value c with Some _ => true | None => false end.

(** The frame of an object whose serialized content is [data], written
    out: kind, space, decimal length of [data], NUL, [data]. *)
Definition frame_of (object : pyobject) (data : bytes) : bytes :=
  type_of (body object) ++ b " "
    ++ map byte_of_N (str_of_N (N.of_nat (length data))) ++ [x00] ++ data.

(** ** A concrete platform and process, for the examples *)

(** Seconds since the Epoch of the wall-clock fields on a platform whose
    local time is UTC (proleptic Gregorian calendar). *)
Definition utc_epoch_seconds (t : datetime) : Z :=
  (let y := if month t <=? 2 then year t - 1 else year t in
   let era := y / 400 in
   let yoe := y - era * 400 in
   let mp := if month t <=? 2 then month t + 9 else month t - 3 in
   let doy := (153 * mp + 2) / 5 + day t - 1 in
   let doe := yoe * 365 + yoe / 4 - yoe / 100 + doy in
   let days := era * 146097 + doe - 719468 in
   days * 86400 + hour t * 3600 + minute t * 60 + second t)%Z.

(** A compressor that stores its input unchanged. *)
Definition store_only (data : bytes) : bytes := data.

Definition hello : bytes := b "hello" ++ [x0a].

(** A process in [/repo], a directory with two files and no repository
    yet. *)
Definition sample_world : world := {|
  fs := list_to_map [
    (py "/", Dir true);
    (py "/repo", Dir true);
    (py "/repo/hello.txt", File hello);
    (py "/repo/b.txt", File (b "bbb"))
  ];
  cwd := py "/repo";
  environ := list_to_map [
    (py "GIT_AUTHOR_NAME", py "Jane");
    (py "GIT_AUTHOR_EMAIL", py "jane@x.com")
  ];
  stdin := [py "init" ++ [10]];
  stdout := [];
  stderr := [];
  clock := mkdatetime 2020 1 2 3 4 5 6 None;
  entropy := [1; 2; 3]
|}.

(** The same process once [init] has run. *)
Definition sample_repo : world :=
  set_fs (fun m => <[py "/repo/.git/refs" := Dir true]>
                   (<[py "/repo/.git/objects" := Dir true]>
                   (<[py "/repo/.git" := Dir true]> m))) sample_world.

Definition sample_db : Database := mkDatabase (py "/repo/.git/objects").

Definition jane : Author :=
  mkAuthor (py "Jane") (py "jane@x.com")
           (mkdatetime 2020 1 2 3 4 5 6 (Some 3600000000%Z)).

Definition sample_tree_id : pystr :=
  py "b5b383bce316b6a26cc7a7bf3747e1c8993da1e5".

(** [x] comes no later than [y] in the order [sorted] uses for [key]. *)
Definition key_le {A} (key : A → pystr) (x y : A) : Prop :=
  str_lt (key y) (key x) = false.

Definition a_txt (id : pystr) : Entry := mkEntry (py "a.txt") id.
Definition b_txt (id : pystr) : Entry := mkEntry (py "b.txt") id.

Definition hello_id : pystr := py "ce013625030ba8dba906f756967f9e9ca394464a".
Definition bbb_id : pystr := py "01f02e32ce8a128dd7b1d16a45f2eff66ec23c2d".

(** A character that makes [bytearray.fromhex] fail wherever it stands:
    neither a hexadecimal digit nor ASCII white space. *)
Definition is_foreign (c : N) : bool := negb (is_hex c) && negb (is_space c).

(** A run from [w] to [w'] that stays in the working directory [dir] and
    leaves every file-system key outside [K] as it was. *)
Definition confined_run (dir : pystr) (K : pystr → Prop) (w w' : world) : Prop :=
  cwd w' = dir ∧ ∀ k, ¬ K k → fs w' !! k = fs w !! k.

(** A program all of whose runs from directory [dir] are confined to
    [K], whatever their outcome. *)
Definition confined {A} (dir : pystr) (K : pystr → Prop) (m : M A) : Prop :=
  ∀ w r w', cwd w = dir → m w = (r, w') → confined_run dir K w w'.

(** The keys strictly below [d], textually. *)
Definition below (d : pystr) (k : pystr) : Prop :=
  ∃ rest, rest ≠ [] ∧ k = d ++ rest.

(** The contents of the regular file at key [k], empty when there is no
    such file. *)
Definition file_contents (w : world) (k : pystr) : bytes :=
  match fs w !! k with
  | Some (File data) => data
  | _ => []
  end.

(** A path that is not empty and does not end with a separator. *)
Definition ends_plain (a : pystr) : Prop :=
  ∃ l x, a = l ++ [x] ∧ x ≠ sep.

(** What every content id is: forty lowercase hexadecimal digits. *)
Definition is_content_id (id : pystr) : Prop :=
  length id = 40%nat ∧ Forall (fun c => is_lower_hex c = true) id.

(** The repository of [sample_repo] with a fan-out directory [ce] in which
    nothing may be created. *)
Definition sample_readonly : world :=
  set_fs (insert (py "/repo/.git/objects/ce") (Dir false)) sample_repo.

(** The body of the [try] statement of [init]: its three [mkdir] calls,
    in order. *)
Definition make_git_dirs (git_path : pystr) : M unit :=
  os_mkdir git_path;;
  os_mkdir (join git_path [py "objects"]);;
  os_mkdir (join git_path [py "refs"]).

(** ** The rest of the module *)

(** [utf8len(s)]: [len(s.encode('utf-8'))]. *)
Definition utf8len (s : pystr) : result nat :=
  x ← str_encode s; Ok (length x).

(** The characters [generate_temp_name] draws from. *)
Definition is_upper_or_digit (c : N) : bool :=
  is_digit c || ((65 <=? c) && (c <=? 90)).

(** The three keys of the file system [write_object] works on, with the
    path expressions of the source: the object file, its fan-out
    directory and the temporary file called [name]. *)
Definition object_key (w : world) (self : Database) (id : pystr) : pystr :=
  resolve w (join (Database_pathname self) [take 2 id; drop 2 id]).

Definition fan_out_key (w : world) (self : Database) (id : pystr) : pystr :=
  resolve w (dirname (join (Database_pathname self) [take 2 id; drop 2 id])).

Definition temp_key (w : world) (self : Database) (id name : pystr) : pystr :=
  resolve w (join (dirname (join (Database_pathname self)
                              [take 2 id; drop 2 id])) [name]).

(** Key [k] holds a regular file. *)
Definition is_file_at (w : world) (k : pystr) : Prop :=
  ∃ data, fs w !! k = Some (File data).

(** Lexicographic order on byte strings, as [bytes.__lt__]. *)
Fixpoint bytes_lt (s t : bytes) : bool :=
  match s, t with
  | _, [] => false
  | [], _ :: _ => true
  | x :: s', y :: t' =>
      if Byte.to_N x <? Byte.to_N y then true
      else if Byte.to_N y <? Byte.to_N x then false
      else bytes_lt s' t'
  end.

(** The frame of the Blob of [hello]. *)
Definition hello_frame : bytes := b "blob 6" ++ [x00] ++ hello.

(** The sample repository after the Blob of [hello] has been stored. *)
Definition sample_stored : world :=
  (store utc_epoch_seconds store_only sample_db (Blob hello) sample_repo).2.

(** The keys [write_object] may touch for [id] in the database whose
    directory has key [D]: the fan-out directory, the object file and the
    temporary files next to it. *)
Definition write_keys (D id : pystr) (k : pystr) : Prop :=
  k = D ++ sep :: take 2 id
  ∨ k = (D ++ sep :: take 2 id) ++ sep :: drop 2 id
  ∨ ∃ suffix, k = (D ++ sep :: take 2 id) ++ sep :: (py "tmp_obj_" ++ suffix).

(** The key of the entry named [n] of the directory with key [d]. *)
Definition child_key (d n : pystr) : pystr :=
  (if endswith [sep] d then d else d ++ [sep]) ++ n.

(** The names [list_files] keeps. *)
Definition is_listed (f : pystr) : bool :=
  negb (endswith (py ".git") f) && negb (endswith (py ".DS_Store") f).

(** [w'] differs from [w] at most in the file system and in the random
    draws still to come. *)
Definition same_process (w w' : world) : Prop :=
  cwd w' = cwd w ∧ environ w' = environ w ∧ stdin w' = stdin w
  ∧ stdout w' = stdout w ∧ stderr w' = stderr w ∧ clock w' = clock w.

(** A program that neither reads from the standard input nor writes to the
    standard streams, and leaves the environment alone. *)
Definition quiet {A} (m : M A) : Prop :=
  ∀ w r w', m w = (r, w') → same_process w w'.

(** What [datetime.now()] answers in world [w]. *)
Definition now_of (w : world) : datetime :=
  let t := clock w in
  mkdatetime (year t) (month t) (day t) (hour t) (minute t) (second t)
             (microsecond t) None.

(** The repository of [sample_repo] with a subdirectory [docs] beside its
    two files. *)
Definition sample_subdir : world :=
  set_fs (fun m => <[py "/repo/docs" := Dir true]> m) sample_repo.

(** ** Vocabulary for the commit recorded in the head file *)

(** A component [os.path.normpath] keeps on an absolute path: not empty,
    neither [.] nor [..], and free of separators. *)
Definition plain_component (x : pystr) : Prop :=
  x ≠ [] ∧ x ≠ py "." ∧ x ≠ dotdot ∧ sep ∉ x.

(** The keys [Database.store] may touch in the database whose directory
    has key [D], whatever the object: the fan-out directory of a content
    id and the entries directly in it (the object file, the temporary
    file). *)
Definition store_keys (D : pystr) (k : pystr) : Prop :=
  ∃ id, is_content_id id
        ∧ ((k = D ++ sep :: take 2 id)
           ∨ (∃ n, (sep ∉ n) ∧ k = (D ++ sep :: take 2 id) ++ sep :: n)).

(** The entry [commit] makes for the file called [f] of the working
    directory in world [w]: the name, and the content id of the Blob of
    what the file holds. *)
Definition blob_entry (w : world) (f : pystr) (e : Entry) : Prop :=
  ∃ data,
    fs w !! resolve w f = Some (File data)
    ∧ e = mkEntry f (sha1_hexdigest (frame_of (Blob data) data)).

(** [id] is the content id of the commit object that [commit] builds in
    world [w]: its tree is the Tree of one entry per file [list_files]
    reports, each with the content id of the Blob of that file; its author
    is the pair of [GIT_AUTHOR_NAME] and [GIT_AUTHOR_EMAIL] with the
    wall-clock time; its message is the first line of the standard
    input. *)
Definition commit_id_of (epoch_seconds : datetime → Z) (w : world)
    (id : pystr) : Prop :=
  ∃ files entries tree_data name email commit_data,
    list_files (mkWorkspace (abspath (cwd w) (cwd w))) w = (Ok files, w)
    ∧ Forall2 (blob_entry w) files entries
    ∧ Tree_serialize entries = Ok tree_data
    ∧ environ w !! py "GIT_AUTHOR_NAME" = Some name
    ∧ environ w !! py "GIT_AUTHOR_EMAIL" = Some email
    ∧ let tree_id := sha1_hexdigest (frame_of (Tree entries) tree_data) in
      let author := mkAuthor name email (now_of w) in
      let message := hd [] (stdin w) in
      Commit_serialize epoch_seconds tree_id author message = Ok commit_data
      ∧ id = sha1_hexdigest
               (frame_of (Commit tree_id author message) commit_data).

(** * Properties *)

(** ** Encoding and decimal numerals *)

Lemma utf8_char_ascii c : is_ascii c = true → utf8_char c = Ok [byte_of_N c].
Proof. unfold is_ascii, utf8_char. intros ->. reflexivity. Qed.

Lemma str_encode_ascii s :
  Forall (fun c => is_ascii c = true) s → str_encode s = Ok (map byte_of_N s).
Proof.
  induction 1 as [|c s Hc _ IH]; [reflexivity|].
  cbn [str_encode map]. rewrite (utf8_char_ascii c Hc), IH. reflexivity.
Qed.

Lemma str_encode_app s t :
  str_encode (s ++ t) =
  x ← str_encode s; y ← str_encode t; Ok (x ++ y).
Proof.
  induction s as [|c s IH]; cbn [str_encode app].
  - destruct (str_encode t); reflexivity.
  - destruct (utf8_char c) as [x|e]; [|reflexivity]. cbn.
    rewrite IH. destruct (str_encode s) as [y|e]; [|reflexivity]. cbn.
    destruct (str_encode t) as [z|e]; [|reflexivity]. cbn.
    by rewrite app_assoc.
Qed.

Lemma str_encode_app_ok s t x y :
  str_encode s = Ok x → str_encode t = Ok y → str_encode (s ++ t) = Ok (x ++ y).
Proof. intros Hs Ht. rewrite str_encode_app, Hs, Ht. reflexivity. Qed.

Lemma uint_str_digits d : Forall (fun c => is_digit c = true) (uint_str d).
Proof. induction d; cbn [uint_str]; constructor; done. Qed.

Lemma is_digit_ascii c : is_digit c = true → is_ascii c = true.
Proof.
  unfold is_digit, is_ascii. intros [_ H]%andb_prop.
  apply N.leb_le in H. apply N.ltb_lt. lia.
Qed.

Lemma decimal_value_uint d d' :
  fold_left (fun acc c => 10 * acc + (c - 48)) (uint_str d)
            (DecimalPos.Unsigned.of_lu d')
  = DecimalPos.Unsigned.of_lu (Decimal.revapp d d').
Proof.
  revert d'. induction d; intros d'; cbn [uint_str fold_left Decimal.revapp];
    [reflexivity|..]; rewrite <- IHd; f_equal;
    cbn [DecimalPos.Unsigned.of_lu]; lia.
Qed.

(** [str(n)] consists of decimal digits and denotes [n]. *)
Lemma str_of_N_value n : decimal_value (str_of_N n) = n.
Proof.
  unfold decimal_value, str_of_N.
  change 0 with (DecimalPos.Unsigned.of_lu Decimal.Nil).
  rewrite decimal_value_uint.
  change (Decimal.revapp (N.to_uint n) Decimal.Nil) with (Decimal.rev (N.to_uint n)).
  rewrite <- DecimalPos.Unsigned.of_uint_alt.
  apply DecimalN.Unsigned.of_to.
Qed.

Lemma str_of_N_digits n : Forall (fun c => is_digit c = true) (str_of_N n).
Proof. apply uint_str_digits. Qed.

Lemma str_of_N_encode n : str_encode (str_of_N n) = Ok (map byte_of_N (str_of_N n)).
Proof.
  apply str_encode_ascii. eapply Forall_impl; [apply str_of_N_digits|].
  intros c. apply is_digit_ascii.
Qed.

(** The frame never fails to be built. *)
Lemma frame_eq type data :
  frame type data =
  Ok (type ++ b " " ++ map byte_of_N (str_of_N (N.of_nat (length data)))
           ++ [x00] ++ data).
Proof. unfold frame. rewrite str_of_N_encode. reflexivity. Qed.

(** ** Shape of a digest *)

Lemma hex_digit_lower n : n < 16 → is_lower_hex (hex_digit n) = true.
Proof.
  intros Hn. unfold is_lower_hex, is_digit, hex_digit.
  destruct (n <? 10) eqn:E.
  - apply N.ltb_lt in E. apply orb_true_intro; left.
    apply andb_true_intro; split; apply N.leb_le; lia.
  - apply N.ltb_ge in E. apply orb_true_intro; right.
    apply andb_true_intro; split; apply N.leb_le; lia.
Qed.

Lemma hexlify_length l : length (hexlify l) = (2 * length l)%nat.
Proof.
  unfold hexlify. induction l as [|x l IH]; cbn; [done|]. rewrite IH. lia.
Qed.

Lemma hexlify_lower l : Forall (fun c => is_lower_hex c = true) (hexlify l).
Proof.
  unfold hexlify. induction l as [|x l IH]; cbn; [constructor|].
  pose proof (Byte.to_N_bounded x) as Hx.
  constructor; [|constructor; [|exact IH]]; apply hex_digit_lower.
  - apply N.Div0.div_lt_upper_bound. lia.
  - apply N.mod_lt. lia.
Qed.

Lemma be_bytes_length k n : length (SHA1.be_bytes k n) = k.
Proof. induction k; cbn; congruence. Qed.

Lemma compress_length h block :
  length h = 5%nat → length (SHA1.compress h block) = 5%nat.
Proof.
  destruct h as [|h0 [|h1 [|h2 [|h3 [|h4 [|? ?]]]]]]; try discriminate.
  intros _. unfold SHA1.compress.
  destruct (SHA1.rounds _ _ _ _) as [[[[a x] c] d] e]. reflexivity.
Qed.

Lemma fold_compress_length blocks h :
  length h = 5%nat → length (fold_left SHA1.compress blocks h) = 5%nat.
Proof.
  revert h. induction blocks as [|blk blocks IH]; intros h Hh; cbn; [done|].
  apply IH, compress_length, Hh.
Qed.

Lemma digest_length msg : length (SHA1.digest msg) = 20%nat.
Proof.
  unfold SHA1.digest.
  pose proof (fold_compress_length
    (SHA1.chunks (length (SHA1.pad msg)) 64 (SHA1.pad msg)) SHA1.H0 eq_refl) as H.
  destruct (fold_left _ _ _) as [|h0 [|h1 [|h2 [|h3 [|h4 [|? ?]]]]]];
    try discriminate.
  reflexivity.
Qed.

(** A content id is forty lowercase hexadecimal digits. *)
Lemma sha1_hexdigest_length content : length (sha1_hexdigest content) = 40%nat.
Proof. unfold sha1_hexdigest. rewrite hexlify_length, digest_length. done. Qed.

Lemma sha1_hexdigest_lower content :
  Forall (fun c => is_lower_hex c = true) (sha1_hexdigest content).
Proof. apply hexlify_lower. Qed.

(** ** [Database.store] *)

Section StoreFacts.
Variable epoch_seconds : datetime → Z.
Variable zlib_compress : bytes → bytes.

Lemma store_serialized self object data w :
  serialize epoch_seconds object = Ok data →
  store epoch_seconds zlib_compress self object w =
    let id := sha1_hexdigest (frame_of object data) in
    let object' := mkobject (body object) (Some id) in
    match write_object zlib_compress self id (frame_of object data) w with
    | (Ok _, w') => (Ok PyNone, object', w')
    | (Raise e, w') => (Raise e, object', w')
    end.
Proof. intros Hs. unfold store. rewrite Hs, frame_eq. reflexivity. Qed.

Lemma store_failed self object e w :
  serialize epoch_seconds object = Raise e →
  store epoch_seconds zlib_compress self object w = (Raise e, object, w).
Proof. intros Hs. unfold store. rewrite Hs. reflexivity. Qed.

End StoreFacts.

(** C1. For every object whose content serializes to [data], [store]
    builds the frame "kind, one space, the decimal ASCII length of [data]
    (not of the frame), one NUL, [data]" and sets the content id to the
    lowercase hexadecimal SHA-1 digest of exactly that frame.  For the Blob
    of [b"hello\n"] the frame is [b"blob 6\x00hello\n"] and the id is the
    digest of that frame. *)
Theorem store_frame_and_content_id epoch_seconds zlib_compress self object data w :
  serialize epoch_seconds object = Ok data →
  let size := str_of_N (N.of_nat (length data)) in
  let content :=
    type_of (body object) ++ b " " ++ map byte_of_N size ++ [x00] ++ data in
  frame (type_of (body object)) data = Ok content
  ∧ Forall (fun c => is_digit c = true) size
  ∧ decimal_value size = N.of_nat (length data)
  ∧ id_attr (store epoch_seconds zlib_compress self object w).1.2
    = Some (sha1_hexdigest content)
  ∧ length (sha1_hexdigest content) = 40%nat
  ∧ Forall (fun c => is_lower_hex c = true) (sha1_hexdigest content)
  ∧ frame (type_of (body (Blob hello))) hello
    = Ok (b "blob 6" ++ [x00] ++ b "hello" ++ [x0a])
  ∧ id_attr (store epoch_seconds zlib_compress self (Blob hello) w).1.2
    = Some (sha1_hexdigest (b "blob 6" ++ [x00] ++ b "hello" ++ [x0a])).
Proof.
  intros Hs size content.
  split; [apply frame_eq|].
  split; [apply str_of_N_digits|].
  split; [apply str_of_N_value|].
  split.
  { rewrite (store_serialized _ _ _ _ _ _ Hs). cbn zeta.
    by destruct (write_object _ _ _ _ _) as [[[]|e] w']. }
  split; [apply sha1_hexdigest_length|].
  split; [apply sha1_hexdigest_lower|].
  split; [reflexivity|].
  rewrite (store_serialized _ _ _ (Blob hello) hello _ eq_refl). cbn zeta.
  by destruct (write_object _ _ _ _ _) as [[[]|e] w'].
Qed.

Lemma store_frame_and_content_id_witness :
  serialize utc_epoch_seconds (Blob hello) = Ok hello
  ∧ id_attr (store utc_epoch_seconds store_only sample_db (Blob hello)
               sample_repo).1.2
    = Some (py "ce013625030ba8dba906f756967f9e9ca394464a").
Proof.
  split; [reflexivity|].
  pose proof (store_frame_and_content_id utc_epoch_seconds store_only
                sample_db (Blob hello) hello sample_repo eq_refl) as H.
  cbv zeta in H. destruct H as (_ & _ & _ & H & _). rewrite H.
  vm_compute. reflexivity.
Defined.

(** C3, as stated, fails: [store] has no [return] statement, so the call
    evaluates to [None], not to the content id; the id is only left on the
    object. *)
Lemma store_returns_id_counterexample :
  let r := store utc_epoch_seconds store_only sample_db (Blob hello) sample_repo in
  r.1.1 = Ok PyNone
  ∧ id_attr r.1.2 = Some (py "ce013625030ba8dba906f756967f9e9ca394464a")
  ∧ r.1.1 ≠ Ok (PyStr (py "ce013625030ba8dba906f756967f9e9ca394464a")).
Proof. vm_compute. split; [reflexivity|]. split; [reflexivity|]. discriminate. Qed.

(** C3, amended. For every object whose content serializes, [store]
    assigns the computed content id onto the object's [id] attribute and
    leaves the rest of the object as it was; the call itself returns
    nothing: whenever it returns, its value is [None], and it returns
    whenever the write succeeds. *)
Theorem store_assigns_id epoch_seconds zlib_compress self object data w :
  serialize epoch_seconds object = Ok data →
  let r := store epoch_seconds zlib_compress self object w in
  let id := sha1_hexdigest (frame_of object data) in
  id_attr r.1.2 = Some id
  ∧ body r.1.2 = body object
  ∧ (∀ v, r.1.1 = Ok v → v = PyNone)
  ∧ (is_ok (write_object zlib_compress self id (frame_of object data) w).1 = true
     → r.1.1 = Ok PyNone).
Proof.
  intros Hs. cbv zeta. rewrite (store_serialized _ _ _ _ _ _ Hs). cbv zeta.
  destruct (write_object _ _ _ _ _) as [[[]|e] w']; cbn;
    repeat split; try congruence; discriminate.
Qed.

Lemma store_assigns_id_witness :
  serialize utc_epoch_seconds (Blob hello) = Ok hello
  ∧ (store utc_epoch_seconds store_only sample_db (Blob hello) sample_repo).1.1
    = Ok PyNone.
Proof.
  split; [reflexivity|].
  apply (store_assigns_id utc_epoch_seconds store_only sample_db (Blob hello)
           hello sample_repo eq_refl).
  vm_compute. reflexivity.
Defined.

(** ** [Author.serialize] *)

Lemma zero_pad_2_shape n :
  n < 100 →
  zero_pad 2 n = [48 + n / 10; 48 + n mod 10].
Proof.
  intros Hn.
  assert (Hall : forallb (fun k =>
            bool_decide (zero_pad 2 k = [48 + k / 10; 48 + k mod 10]))
            (map N.of_nat (seq 0 100)) = true) by (vm_compute; reflexivity).
  rewrite forallb_forall in Hall.
  eapply bool_decide_eq_true_1, Hall.
  apply in_map_iff. exists (N.to_nat n). split; [lia|].
  apply in_seq. lia.
Qed.

(** With a time zone whose offset is a whole number of minutes, [%z] is a
    sign and four digits. *)
Lemma strftime_z_aware t offset :
  utcoffset t = Some offset →
  (Z.abs offset < 86400000000)%Z →
  (offset mod 60000000 = 0)%Z →
  let a := Z.to_N (Z.abs offset) / 60000000 in
  strftime_z t =
    (if (offset <? 0)%Z then 45 else 43)
      :: [48 + a / 60 / 10; 48 + (a / 60) mod 10;
          48 + (a mod 60) / 10; 48 + (a mod 60) mod 10].
Proof.
  intros Ht Hlt Hmod a. unfold strftime_z. rewrite Ht.
  set (o := Z.to_N (Z.abs offset)).
  assert (Ho : o = 60000000 * a).
  { unfold a, o.
    assert (Hm : Z.to_N (Z.abs offset) mod 60000000 = 0).
    { apply N2Z.inj. rewrite N2Z.inj_mod, Z2N.id by lia.
      change (Z.of_N 60000000) with 60000000%Z. change (Z.of_N 0) with 0%Z.
      destruct (Z.abs_eq_or_opp offset) as [->| ->]; [exact Hmod|].
      rewrite Z.mod_opp_l_z; lia. }
    pose proof (N.div_mod (Z.to_N (Z.abs offset)) 60000000). lia. }
  assert (Ha : a < 1440).
  { unfold a, o. apply N.Div0.div_lt_upper_bound. lia. }
  assert (Hu : o mod 1000000 = 0).
  { rewrite Ho. replace (60000000 * a) with (60 * a * 1000000) by lia.
    apply N.Div0.mod_mul. }
  assert (Hsecs : o / 1000000 = 60 * a).
  { rewrite Ho. replace (60000000 * a) with (60 * a * 1000000) by lia.
    apply N.div_mul. lia. }
  rewrite Hu, Hsecs.
  assert (Hs : (60 * a) mod 60 = 0).
  { rewrite N.mul_comm. apply N.Div0.mod_mul. }
  rewrite Hs. cbn [N.eqb negb].
  assert (Hh : 60 * a / 3600 = a / 60).
  { replace 3600 with (60 * 60) by lia.
    rewrite <- N.Div0.div_div. f_equal. rewrite N.mul_comm. apply N.div_mul. lia. }
  assert (Hm : 60 * a / 60 = a).
  { rewrite N.mul_comm. apply N.div_mul. lia. }
  rewrite Hh, Hm.
  assert (a / 60 < 100) by (apply N.Div0.div_lt_upper_bound; lia).
  assert (a mod 60 < 100) by (pose proof (N.mod_lt a 60); lia).
  rewrite !zero_pad_2_shape by assumption.
  destruct (offset <? 0)%Z; reflexivity.
Qed.

(** C4 fails on the Authors the program builds. [commit] takes the
    timestamp from [datetime.now()], which carries no time zone, and for
    such a value [%z] is empty: the text ends with the space after the
    seconds and has no offset field. *)
Theorem Author_serialize_naive epoch_seconds name email w :
  ∃ now,
    (datetime_now w).1 = Ok now
    ∧ utcoffset now = None
    ∧ Author_serialize epoch_seconds (mkAuthor name email now)
      = name ++ py " " ++ email ++ py " "
             ++ str_of_Z (epoch_seconds now) ++ py " ".
Proof.
  eexists. split; [reflexivity|]. split; [reflexivity|].
  unfold Author_serialize, strftime_s_z, strftime_z.
  cbn [utcoffset Author_time Author_name Author_email].
  by rewrite app_nil_r.
Qed.

(** ** [Commit.serialize] *)

(** C6. [Commit.serialize] returns the record made of the line
    [tree T], the line [author A], the line [committer A] with the same
    author text [A = a.serialize()], an empty line and the message [m],
    joined by newlines and with nothing after [m]; in bytes, it is the
    concatenation of the encodings of these pieces. *)
Theorem Commit_serialize_record epoch_seconds T a m bT bA bM :
  str_encode T = Ok bT →
  str_encode (Author_serialize epoch_seconds a) = Ok bA →
  str_encode m = Ok bM →
  let A := Author_serialize epoch_seconds a in
  Commit_serialize epoch_seconds T a m
  = str_encode (py "tree " ++ T ++ [10]
                ++ py "author " ++ A ++ [10]
                ++ py "committer " ++ A ++ [10]
                ++ [10]
                ++ m)
  ∧ Commit_serialize epoch_seconds T a m
    = Ok (b "tree " ++ bT ++ [x0a]
          ++ b "author " ++ bA ++ [x0a]
          ++ b "committer " ++ bA ++ [x0a]
          ++ [x0a]
          ++ bM).
Proof.
  intros HT HA Hm A.
  assert (Htext : Commit_serialize epoch_seconds T a m
    = str_encode (py "tree " ++ T ++ [10] ++ py "author " ++ A ++ [10]
                  ++ py "committer " ++ A ++ [10] ++ [10] ++ m)).
  { unfold Commit_serialize. cbn [str_join]. fold A.
    by rewrite <- ?app_assoc. }
  split; [exact Htext|]. rewrite Htext.
  repeat first
    [ exact Hm
    | apply str_encode_app_ok; [first [exact HT | exact HA | reflexivity]|] ].
Qed.

Lemma Commit_serialize_record_witness :
  Commit_serialize utc_epoch_seconds sample_tree_id jane (py "init" ++ [10])
  = Ok (b "tree b5b383bce316b6a26cc7a7bf3747e1c8993da1e5" ++ [x0a]
        ++ b "author Jane jane@x.com 1577934245 +0100" ++ [x0a]
        ++ b "committer Jane jane@x.com 1577934245 +0100" ++ [x0a]
        ++ [x0a]
        ++ b "init" ++ [x0a]).
Proof.
  refine (eq_trans (proj2 (Commit_serialize_record utc_epoch_seconds
            sample_tree_id jane (py "init" ++ [10])
            (b "b5b383bce316b6a26cc7a7bf3747e1c8993da1e5")
            (b "Jane jane@x.com 1577934245 +0100")
            (b "init" ++ [x0a]) _ _ _)) _);
    vm_compute; reflexivity.
Defined.

(** ** The order of strings and [sorted] *)

Ltac ltb_cases :=
  repeat match goal with
  | |- context [?x <? ?y] => destruct (N.ltb_spec x y)
  | H : context [?x <? ?y] |- _ => destruct (N.ltb_spec x y)
  end.

Lemma str_lt_irrefl s : str_lt s s = false.
Proof.
  induction s as [|c s IH]; cbn; [done|]. by rewrite N.ltb_irrefl.
Qed.

Lemma str_lt_asym s t : str_lt s t = true → str_lt t s = false.
Proof.
  revert t. induction s as [|c s IH]; intros [|d t]; cbn; try done.
  ltb_cases; try done; try lia. apply IH.
Qed.

Lemma str_lt_trans s t u :
  str_lt s t = true → str_lt t u = true → str_lt s u = true.
Proof.
  revert t u. induction s as [|c s IH]; intros [|d t] [|e u]; cbn; try done.
  ltb_cases; try done; try lia. apply IH.
Qed.

Lemma str_lt_total s t : str_lt s t = false → str_lt t s = false → s = t.
Proof.
  revert t. induction s as [|c s IH]; intros [|d t]; cbn; try done.
  ltb_cases; try done; try lia.
  intros Hst Hts. f_equal; [lia|]. by apply IH.
Qed.

Section SortedFacts.
Context {A : Type} (key : A → pystr).

#[local] Instance key_le_trans : Transitive (key_le key).
Proof.
  unfold key_le. intros x y z Hxy Hyz.
  destruct (str_lt (key z) (key x)) eqn:Hzx; [|done].
  destruct (str_lt (key x) (key y)) eqn:Hlt.
  - by rewrite (str_lt_trans _ _ _ Hzx Hlt) in Hyz.
  - rewrite (str_lt_total _ _ Hlt Hxy) in Hzx. congruence.
Qed.

Lemma insert_by_perm x l : insert_by key x l ≡ₚ x :: l.
Proof.
  induction l as [|y l IH]; cbn; [done|].
  destruct (str_lt (key y) (key x)); [|done].
  rewrite IH. apply Permutation_swap.
Qed.

Lemma sorted_perm l : sorted key l ≡ₚ l.
Proof.
  induction l as [|x l IH]; cbn; [done|].
  by rewrite insert_by_perm, IH.
Qed.

Lemma insert_by_Sorted x l :
  Sorted (key_le key) l → Sorted (key_le key) (insert_by key x l).
Proof.
  induction 1 as [|y l Hl IH Hy]; cbn.
  { by repeat constructor. }
  destruct (str_lt (key y) (key x)) eqn:Hyx.
  - constructor; [exact IH|].
    destruct Hy as [|z l Hyz]; cbn.
    + constructor. by apply str_lt_asym.
    + destruct (str_lt (key z) (key x)); constructor;
        [exact Hyz | by apply str_lt_asym].
  - constructor; [by constructor|]. by constructor.
Qed.

Lemma sorted_Sorted l : Sorted (key_le key) (sorted key l).
Proof.
  induction l as [|x l IH]; cbn; [constructor|].
  by apply insert_by_Sorted.
Qed.

Lemma NoDup_key_inj l x y :
  NoDup (map key l) → x ∈ l → y ∈ l → key x = key y → x = y.
Proof.
  induction l as [|z l IH]; cbn; [by intros _ ?%elem_of_nil|].
  intros [Hz Hl]%NoDup_cons [->|Hx]%elem_of_cons [->|Hy]%elem_of_cons Hk;
    try done.
  - destruct Hz. rewrite Hk. by apply list_elem_of_fmap_2.
  - destruct Hz. rewrite <- Hk. by apply list_elem_of_fmap_2.
  - by apply IH.
Qed.

(** With pairwise distinct keys the result of [sorted] does not depend
    on the order of the input. *)
Lemma sorted_perm_invariant l1 l2 :
  NoDup (map key l1) → l1 ≡ₚ l2 → sorted key l1 = sorted key l2.
Proof.
  intros Hnd Hp.
  apply (Sorted_unique_strong (key_le key)); try apply sorted_Sorted.
  - intros x1 x2 Hx1 Hx2 H12 H21.
    apply (NoDup_key_inj l1); [done|..].
    + by rewrite <- (sorted_perm l1).
    + by rewrite Hp, <- (sorted_perm l2).
    + unfold key_le in *. by apply str_lt_total.
  - by rewrite !sorted_perm.
Qed.
End SortedFacts.

(** ** [Tree.serialize] and the order of the entries *)

(** C2, as stated, fails: [sorted] compares the names only and is stable,
    so two entries that share a name keep their input order, and the two
    orders of such a set serialize differently. *)
Lemma Tree_order_counterexample :
  let e1 := mkEntry (py "a") hello_id in
  let e2 := mkEntry (py "a") bbb_id in
  NoDup [e1; e2]
  ∧ [e1; e2] ≡ₚ [e2; e1]
  ∧ Tree_serialize [e1; e2] ≠ Tree_serialize [e2; e1].
Proof.
  intros e1 e2. split; [|split].
  - apply NoDup_cons. split; [|apply NoDup_singleton].
    intros H%list_elem_of_singleton. discriminate H.
  - apply Permutation_swap.
  - vm_compute. discriminate.
Qed.

(** C2, amended. For every list of Entries with pairwise distinct names
    and every permutation of it, [Tree.serialize] visits the entries in
    ascending order of their names and gives the same outcome, so storing
    the Tree yields the same content id; a Tree built from
    [("b.txt", id_B); ("a.txt", id_A)] serializes the [a.txt] entry before
    the [b.txt] entry. *)
Theorem Tree_serialize_order_independent (l1 l2 : list Entry) :
  NoDup (map Entry_name l1) →
  l1 ≡ₚ l2 →
  Sorted (key_le Entry_name) (sorted Entry_name l1)
  ∧ sorted Entry_name l1 ≡ₚ l1
  ∧ Tree_serialize l1 = Tree_serialize l2
  ∧ (∀ epoch_seconds zlib_compress self w1 w2,
       id_attr (store epoch_seconds zlib_compress self (Tree l1) w1).1.2
       = id_attr (store epoch_seconds zlib_compress self (Tree l2) w2).1.2)
  ∧ (∀ id_A id_B d_A d_B,
       fromhex id_A = Ok d_A → fromhex id_B = Ok d_B →
       Tree_serialize [b_txt id_B; a_txt id_A]
       = Ok ((b "100644 a.txt" ++ [x00] ++ d_A)
             ++ (b "100644 b.txt" ++ [x00] ++ d_B))).
Proof.
  intros Hnd Hp.
  assert (Hser : Tree_serialize l1 = Tree_serialize l2).
  { unfold Tree_serialize. by rewrite (sorted_perm_invariant _ l1 l2). }
  split; [apply sorted_Sorted|].
  split; [apply sorted_perm|].
  split; [exact Hser|].
  split.
  - intros ep zc self w1 w2.
    destruct (Tree_serialize l1) as [data|e] eqn:H1.
    + rewrite (store_serialized ep zc self (Tree l1) data w1 H1).
      rewrite (store_serialized ep zc self (Tree l2) data w2 (eq_sym Hser)).
      cbn zeta.
      destruct (write_object _ _ _ _ w1) as [[[]|?] ?];
        destruct (write_object _ _ _ _ w2) as [[[]|?] ?]; reflexivity.
    + rewrite (store_failed ep zc self (Tree l1) e w1 H1).
      rewrite (store_failed ep zc self (Tree l2) e w2 (eq_sym Hser)).
      reflexivity.
  - intros id_A id_B d_A d_B HA HB.
    assert (Ha : str_encode (py "a.txt") = Ok (b "a.txt"))
      by (vm_compute; reflexivity).
    assert (Hb : str_encode (py "b.txt") = Ok (b "b.txt"))
      by (vm_compute; reflexivity).
    unfold Tree_serialize.
    change (sorted Entry_name [b_txt id_B; a_txt id_A])
      with [a_txt id_A; b_txt id_B].
    cbn [Tree_entries]. unfold Tree_entry.
    cbn [Entry_id Entry_name a_txt b_txt]. rewrite Ha, Hb, HA, HB.
    cbn [mbind result_bind concat]. rewrite app_nil_r. reflexivity.
Qed.

Lemma Tree_serialize_order_independent_witness :
  NoDup (map Entry_name [b_txt bbb_id; a_txt hello_id])
  ∧ [b_txt bbb_id; a_txt hello_id] ≡ₚ [a_txt hello_id; b_txt bbb_id]
  ∧ Tree_serialize [b_txt bbb_id; a_txt hello_id]
    = Tree_serialize [a_txt hello_id; b_txt bbb_id].
Proof.
  assert (Hnd : NoDup (map Entry_name [b_txt bbb_id; a_txt hello_id])).
  { apply NoDup_cons. split; [|apply NoDup_singleton].
    intros H%list_elem_of_singleton. discriminate H. }
  assert (Hp : [b_txt bbb_id; a_txt hello_id] ≡ₚ [a_txt hello_id; b_txt bbb_id])
    by apply Permutation_swap.
  split; [exact Hnd|]. split; [exact Hp|].
  exact (proj1 (proj2 (proj2
           (Tree_serialize_order_independent _ _ Hnd Hp)))).
Defined.

(** ** [bytearray.fromhex] and malformed entry ids *)

Lemma is_hex_not_space c : is_hex c = true → is_space c = false.
Proof.
  unfold is_hex, digit_value, is_space.
  destruct (c =? 32) eqn:E1; [apply N.eqb_eq in E1; subst; done|].
  destruct ((9 <=? c) && (c <=? 13)) eqn:E2; [|done].
  apply andb_prop in E2 as [H1%N.leb_le H2%N.leb_le].
  replace ((48 <=? c) && (c <=? 57)) with false
    by (symmetry; apply andb_false_intro1, N.leb_gt; lia).
  replace ((97 <=? c) && (c <=? 102)) with false
    by (symmetry; apply andb_false_intro1, N.leb_gt; lia).
  replace ((65 <=? c) && (c <=? 70)) with false
    by (symmetry; apply andb_false_intro1, N.leb_gt; lia).
  done.
Qed.

Lemma is_hex_digit_value c : is_hex c = true → ∃ v, digit_value c = Some v.
Proof. unfold is_hex. destruct (digit_value c); [eauto|done]. Qed.

(** [fromhex] raises nothing but [ValueError]. *)
Lemma fromhex_raise s e : fromhex s = Raise e → e = ValueError.
Proof.
  remember (length s) as n eqn:Hn. revert s Hn e.
  induction n as [n IH] using lt_wf_ind. intros [|c s1] Hn e; cbn; [done|].
  destruct (is_space c).
  { apply (IH (length s1)); [cbn in Hn; lia|done]. }
  destruct (digit_value c) as [top|]; [|congruence].
  destruct s1 as [|d s2]; [congruence|].
  destruct (digit_value d) as [bot|]; [|congruence].
  destruct (fromhex s2) as [rest|e'] eqn:Hrest; cbn; [done|].
  intros [= <-]. apply (IH (length s2)) with s2; [cbn in Hn; lia|done..].
Qed.

(** A foreign character anywhere in the string makes [fromhex] fail. *)
Lemma fromhex_foreign s :
  Exists (fun c => is_foreign c = true) s → fromhex s = Raise ValueError.
Proof.
  remember (length s) as n eqn:Hn. revert s Hn.
  induction n as [n IH] using lt_wf_ind. intros [|c s1] Hn Hex.
  { by apply Exists_nil in Hex. }
  cbn. destruct (is_space c) eqn:Hsp.
  { apply (IH (length s1)); [cbn in Hn; lia|done|].
    apply Exists_cons in Hex as [Hc|?]; [|done].
    unfold is_foreign in Hc. rewrite Hsp in Hc.
    by rewrite andb_false_r in Hc. }
  destruct (digit_value c) as [top|] eqn:Hc; [|done].
  apply Exists_cons in Hex as [Hbad|Hex].
  { unfold is_foreign, is_hex in Hbad. by rewrite Hc in Hbad. }
  destruct s1 as [|d s2]; [done|].
  destruct (digit_value d) as [bot|] eqn:Hd; [|done].
  apply Exists_cons in Hex as [Hbad|Hex].
  { unfold is_foreign, is_hex in Hbad. by rewrite Hd in Hbad. }
  rewrite (IH (length s2)) with (s := s2); [done|cbn in Hn; lia|done..].
Qed.

(** An odd number of hexadecimal digits leaves half a byte: failure. *)
Lemma fromhex_odd s k :
  Forall (fun c => is_hex c = true) s → length s = (2 * k + 1)%nat →
  fromhex s = Raise ValueError.
Proof.
  revert s. induction k as [|k IH]; intros s Hs Hlen.
  - destruct s as [|c [|? ?]]; cbn in Hlen; try lia. cbn.
    apply Forall_cons in Hs as [Hc _].
    rewrite (is_hex_not_space c Hc).
    by destruct (digit_value c).
  - destruct s as [|c [|d s2]]; cbn in Hlen; try lia. cbn.
    apply Forall_cons in Hs as [Hc Hs]. apply Forall_cons in Hs as [Hd Hs].
    rewrite (is_hex_not_space c Hc).
    destruct (is_hex_digit_value c Hc) as [top ->].
    destruct (is_hex_digit_value d Hd) as [bot ->].
    rewrite IH; [done|done|cbn in Hlen; lia].
Qed.

(** An even number of hexadecimal digits decodes to half as many bytes. *)
Lemma fromhex_pairs s k :
  Forall (fun c => is_hex c = true) s → length s = (2 * k)%nat →
  ∃ d, fromhex s = Ok d ∧ length d = k.
Proof.
  revert s. induction k as [|k IH]; intros s Hs Hlen.
  - destruct s; [|cbn in Hlen; lia]. by exists [].
  - destruct s as [|c [|d s2]]; cbn in Hlen; try lia. cbn.
    apply Forall_cons in Hs as [Hc Hs]. apply Forall_cons in Hs as [Hd Hs].
    rewrite (is_hex_not_space c Hc).
    destruct (is_hex_digit_value c Hc) as [top ->].
    destruct (is_hex_digit_value d Hd) as [bot ->].
    destruct (IH s2 Hs) as (rest & -> & Hrest); [cbn in Hlen; lia|].
    eexists. split; [reflexivity|]. cbn. by rewrite Hrest.
Qed.

Lemma Tree_entry_bad_id entry :
  fromhex (Entry_id entry) = Raise ValueError →
  is_ok (Tree_entry entry) = false.
Proof.
  intros H. unfold Tree_entry. rewrite H.
  by destruct (str_encode (Entry_name entry)).
Qed.

Lemma Tree_entries_fail l entry :
  entry ∈ l → is_ok (Tree_entry entry) = false → is_ok (Tree_entries l) = false.
Proof.
  induction l as [|x l IH]; [by intros ?%elem_of_nil|].
  intros [->|Hin]%elem_of_cons Hbad; cbn.
  - by destruct (Tree_entry x).
  - destruct (Tree_entry x); [|done]. cbn.
    specialize (IH Hin Hbad). by destruct (Tree_entries l).
Qed.

Lemma Tree_entries_ok l :
  Forall (fun entry => is_ok (Tree_entry entry) = true) l →
  is_ok (Tree_entries l) = true.
Proof.
  induction 1 as [|x l Hx _ IH]; [done|]. cbn.
  destruct (Tree_entry x); [|done]. cbn. by destruct (Tree_entries l).
Qed.

(** C5, as stated, fails: [fromhex] checks digits, not the length, so an
    id that is hexadecimal but not forty digits long is accepted and gives
    a digest field of another size; white space in the id is skipped. *)
Lemma Tree_wrong_length_counterexample :
  length (py "ab") ≠ 40%nat
  ∧ Tree_serialize [a_txt (py "ab")] = Ok (b "100644 a.txt" ++ [x00; xab])
  ∧ Tree_serialize [a_txt (py "ab cd")] = Ok (b "100644 a.txt" ++ [x00; xab; xcd]).
Proof. split; [discriminate|]. split; vm_compute; reflexivity. Qed.

(** A name that cannot be encoded (here a lone surrogate, as [os.listdir]
    gives for an undecodable file name) also stops the serialization, with
    a well-formed id. *)
Lemma Tree_unencodable_name :
  Tree_serialize [mkEntry [0xDCFF] hello_id] = Raise UnicodeEncodeError.
Proof. vm_compute. reflexivity. Qed.

(** The field of an entry whose id is an even number of hexadecimal
    digits, however many: the mode, the name, a NUL and one byte for every
    two digits. *)
Lemma Tree_entry_pairs entry :
  Forall (fun c => is_hex c = true) (Entry_id entry) →
  Nat.Even (length (Entry_id entry)) →
  is_ok (str_encode (Entry_name entry)) = true →
  ∃ n d,
    str_encode (Entry_name entry) = Ok n
    ∧ fromhex (Entry_id entry) = Ok d
    ∧ length (Entry_id entry) = (2 * length d)%nat
    ∧ Tree_entry entry = Ok (b "100644 " ++ n ++ [x00] ++ d).
Proof.
  intros Hhex [k Hk] Hname. unfold Tree_entry.
  destruct (str_encode (Entry_name entry)) as [n|]; [|discriminate].
  destruct (fromhex_pairs (Entry_id entry) k Hhex Hk) as (d & Hd & Hlen).
  exists n, d. rewrite Hd. subst k. done.
Qed.

Lemma Tree_entries_fields (P : Entry → bytes → Prop) l :
  Forall (fun entry => ∃ field, Tree_entry entry = Ok field ∧ P entry field) l →
  ∃ fields, Tree_entries l = Ok fields ∧ Forall2 P l fields.
Proof.
  induction 1 as [|x l (field & Hx & HP) _ (fields & IH & Hall)].
  { exists []. by split; [|constructor]. }
  exists (field :: fields). cbn. rewrite Hx, IH. by split; [|constructor].
Qed.

(** C5, amended. [Tree.serialize] fails when the id of some entry holds a
    character that is neither a hexadecimal digit nor white space, or is
    an odd number of hexadecimal digits; the failure comes before any
    hashing or writing: [store] raises the same exception and leaves the
    object and the world as they were.  When every id is forty hexadecimal
    digits and every name can be encoded, serialization succeeds.  The
    length of an id is never looked at: when every id is an even number
    of hexadecimal digits - forty or any other number - and every name can
    be encoded, serialization succeeds and is, for the entries in the
    order of their names, the mode, the name, a NUL and a digest field of
    one byte for every two digits of the id. *)
Theorem Tree_serialize_entry_ids entries :
  (∀ entry,
     entry ∈ entries →
     Exists (fun c => is_foreign c = true) (Entry_id entry)
     ∨ (Forall (fun c => is_hex c = true) (Entry_id entry)
        ∧ Nat.Odd (length (Entry_id entry))) →
     ∃ e, Tree_serialize entries = Raise e
          ∧ ∀ epoch_seconds zlib_compress self w,
              store epoch_seconds zlib_compress self (Tree entries) w
              = (Raise e, Tree entries, w))
  ∧ (Forall (fun entry =>
               length (Entry_id entry) = 40%nat
               ∧ Forall (fun c => is_hex c = true) (Entry_id entry)
               ∧ is_ok (str_encode (Entry_name entry)) = true) entries →
     ∃ data, Tree_serialize entries = Ok data)
  ∧ (Forall (fun entry =>
               Forall (fun c => is_hex c = true) (Entry_id entry)
               ∧ Nat.Even (length (Entry_id entry))
               ∧ is_ok (str_encode (Entry_name entry)) = true) entries →
     ∃ fields,
       Tree_serialize entries = Ok (concat fields)
       ∧ Forall2 (fun entry field =>
                    ∃ n d,
                      str_encode (Entry_name entry) = Ok n
                      ∧ fromhex (Entry_id entry) = Ok d
                      ∧ length (Entry_id entry) = (2 * length d)%nat
                      ∧ field = b "100644 " ++ n ++ [x00] ++ d)
                 (sorted Entry_name entries) fields).
Proof.
  assert (Hpairs :
    Forall (fun entry =>
              Forall (fun c => is_hex c = true) (Entry_id entry)
              ∧ Nat.Even (length (Entry_id entry))
              ∧ is_ok (str_encode (Entry_name entry)) = true) entries →
    ∃ fields,
      Tree_serialize entries = Ok (concat fields)
      ∧ Forall2 (fun entry field =>
                   ∃ n d,
                     str_encode (Entry_name entry) = Ok n
                     ∧ fromhex (Entry_id entry) = Ok d
                     ∧ length (Entry_id entry) = (2 * length d)%nat
                     ∧ field = b "100644 " ++ n ++ [x00] ++ d)
                (sorted Entry_name entries) fields).
  { intros Hall.
    destruct (Tree_entries_fields
                (fun entry field =>
                   ∃ n d,
                     str_encode (Entry_name entry) = Ok n
                     ∧ fromhex (Entry_id entry) = Ok d
                     ∧ length (Entry_id entry) = (2 * length d)%nat
                     ∧ field = b "100644 " ++ n ++ [x00] ++ d)
                (sorted Entry_name entries)) as (fields & Hrun & Hfields).
    { rewrite sorted_perm. eapply Forall_impl; [exact Hall|].
      intros entry (Hhex & Heven & Hname).
      destruct (Tree_entry_pairs entry Hhex Heven Hname)
        as (n & d & Hn & Hd & Hlen & Hentry).
      eexists. split; [exact Hentry|]. by exists n, d. }
    exists fields. split; [|exact Hfields].
    unfold Tree_serialize. by rewrite Hrun. }
  split; [|split; [|exact Hpairs]].
  - intros entry Hin Hbad.
    assert (Hid : fromhex (Entry_id entry) = Raise ValueError).
    { destruct Hbad as [Hex|[Hhex [k Hk]]].
      - by apply fromhex_foreign.
      - by apply (fromhex_odd _ k). }
    assert (Hfail : is_ok (Tree_entries (sorted Entry_name entries)) = false).
    { apply (Tree_entries_fail _ entry).
      - by rewrite sorted_perm.
      - by apply Tree_entry_bad_id. }
    assert (Hser : ∃ e, Tree_serialize entries = Raise e).
    { unfold Tree_serialize.
      destruct (Tree_entries _) as [?|e]; [discriminate|]. by exists e. }
    destruct Hser as [e He]. exists e. split; [exact He|].
    intros ep zc self w. by apply store_failed.
  - intros Hall.
    destruct Hpairs as (fields & Hrun & _); [|by eexists].
    eapply Forall_impl; [exact Hall|].
    intros entry (Hlen & Hhex & Hname). split; [done|]. split; [|done].
    exists 20%nat. by rewrite Hlen.
Qed.

Lemma Tree_serialize_entry_ids_witness :
  (∃ e, Tree_serialize [a_txt (py "xyz")] = Raise e)
  ∧ (∃ data, Tree_serialize [b_txt bbb_id; a_txt hello_id] = Ok data)
  ∧ (∃ fields, Tree_serialize [a_txt (hello_id ++ py "ab")] = Ok (concat fields)).
Proof.
  split; [|split].
  - destruct (proj1 (Tree_serialize_entry_ids [a_txt (py "xyz")])
                (a_txt (py "xyz"))) as (e & He & _).
    + by apply list_elem_of_singleton.
    + left. apply Exists_cons_hd. vm_compute. reflexivity.
    + by exists e.
  - apply (proj1 (proj2 (Tree_serialize_entry_ids [b_txt bbb_id; a_txt hello_id]))).
    repeat constructor; try (vm_compute; reflexivity).
  - destruct (proj2 (proj2 (Tree_serialize_entry_ids
                              [a_txt (hello_id ++ py "ab")])))
      as (fields & Hrun & _); [|by exists fields].
    apply Forall_singleton. split; [|split].
    + apply (bool_decide_unpack _). vm_compute. reflexivity.
    + exists 21%nat. vm_compute. reflexivity.
    + vm_compute. reflexivity.
Defined.

(** ** Programs and the file system *)

Lemma bind_run {A B} (m : M A) (k : A → M B) w :
  (m ≫= k) w =
  match m w with
  | (Ok a, w') => k a w'
  | (Raise e, w') => (Raise e, w')
  end.
Proof. reflexivity. Qed.

Lemma bind_ok_inv {A B} (m : M A) (k : A → M B) w r w' :
  (m ≫= k) w = (Ok r, w') →
  ∃ a w1, m w = (Ok a, w1) ∧ k a w1 = (Ok r, w').
Proof.
  rewrite bind_run. destruct (m w) as [[a|e] w1]; [eauto|discriminate].
Qed.

Lemma confined_run_refl w K : confined_run (cwd w) K w w.
Proof. by split. Qed.

Lemma confined_run_trans dir K w1 w2 w3 :
  confined_run dir K w1 w2 → confined_run dir K w2 w3 → confined_run dir K w1 w3.
Proof.
  intros [_ H12] [Hc H23]. split; [done|].
  intros k Hk. by rewrite H23, H12.
Qed.

Lemma confined_ret {A} dir K (a : A) : confined dir K (mret a).
Proof. intros w r w' <- [= _ <-]. apply confined_run_refl. Qed.

Lemma confined_raise {A} dir K e : confined dir K (@raise A e).
Proof. intros w r w' <- [= _ <-]. apply confined_run_refl. Qed.

Lemma confined_lift {A} dir K (x : result A) : confined dir K (lift x).
Proof. intros w r w' <- [= _ <-]. apply confined_run_refl. Qed.

Lemma confined_bind {A B} dir K (m : M A) (k : A → M B) :
  confined dir K m → (∀ a, confined dir K (k a)) → confined dir K (m ≫= k).
Proof.
  intros Hm Hk w r w' Hw. rewrite bind_run.
  destruct (m w) as [[a|e] w1] eqn:E; intros H.
  - pose proof (Hm _ _ _ Hw E) as H1.
    eapply confined_run_trans; [exact H1|].
    eapply Hk; [|exact H]. apply H1.
  - injection H as <- <-. by eapply Hm.
Qed.

Lemma confined_try {A} dir K (m : M A) handler :
  confined dir K m → (∀ e, confined dir K (handler e)) →
  confined dir K (try_except_OSError m handler).
Proof.
  intros Hm Hh w r w' Hw. unfold try_except_OSError.
  destruct (m w) as [[a|e] w1] eqn:E.
  - intros [= <- <-]. by eapply Hm.
  - pose proof (Hm _ _ _ Hw E) as H1.
    destruct e as [e| | | | | |]; try (intros [= <- <-]; exact H1).
    intros H. eapply confined_run_trans; [exact H1|].
    eapply Hh; [|exact H]. apply H1.
Qed.

(** A program that leaves the directory and the file system alone. *)
Lemma confined_pure {A} dir K (m : M A) :
  (∀ w r w', m w = (r, w') → cwd w' = cwd w ∧ fs w' = fs w) →
  confined dir K m.
Proof.
  intros Hm w r w' Hw H. destruct (Hm _ _ _ H) as [Hc Hf].
  split; [congruence|]. intros k _. by rewrite Hf.
Qed.

Lemma confined_mkdir dir K path :
  K (resolve_in dir path) → confined dir K (os_mkdir path).
Proof.
  intros HK w r w' Hw. unfold os_mkdir, resolve. rewrite Hw.
  destruct (parent_of w _) as [[]|]; try (intros [= _ <-]; by split);
    destruct (fs w !! _) eqn:E; intros [= _ <-]; try by split.
  split; [done|]. intros k Hk. cbn.
  apply lookup_insert_ne. congruence.
Qed.

Lemma confined_open_append dir K path :
  K (resolve_in dir path) → confined dir K (open_append path).
Proof.
  intros HK w r w' Hw. unfold open_append, resolve. rewrite Hw.
  destruct (parent_of w _) as [[]|]; try (intros [= _ <-]; by split);
    destruct (fs w !! _) as [[]|] eqn:E; intros [= _ <-]; try by split.
  split; [done|]. intros k Hk. cbn.
  apply lookup_insert_ne. congruence.
Qed.

Lemma confined_file_write dir K f data :
  K f → confined dir K (file_write f data).
Proof.
  intros HK w r w' Hw [= _ <-]. split; [done|]. intros k Hk. cbn.
  apply lookup_insert_ne. congruence.
Qed.

Lemma confined_rename dir K src dst :
  K (resolve_in dir src) → K (resolve_in dir dst) →
  confined dir K (os_rename src dst).
Proof.
  intros Hs Hd w r w' Hw. unfold os_rename, resolve. rewrite Hw.
  destruct (parent_of w (resolve_in dir src)) as [ws|];
    [|intros [= _ <-]; by split].
  destruct (fs w !! resolve_in dir src) as [n|]; [|intros [= _ <-]; by split].
  destruct (parent_of w (resolve_in dir dst)) as [wd|];
    [|intros [= _ <-]; by split].
  destruct (negb (ws && wd)); [intros [= _ <-]; by split|].
  assert (Hmove : confined_run dir K w
            (set_fs (λ m, <[resolve_in dir dst:=n]> (delete (resolve_in dir src) m)) w)).
  { split; [done|]. intros k Hk. cbn.
    rewrite lookup_insert_ne by congruence.
    apply lookup_delete_ne. congruence. }
  destruct n, (fs w !! resolve_in dir dst) as [[]|];
    intros [= _ <-]; try exact Hmove; by split.
Qed.

(** ** Paths *)

Lemma ends_plain_app a a' : ends_plain a' → ends_plain (a ++ a').
Proof. intros (l & x & -> & Hx). exists (a ++ l), x. by rewrite app_assoc. Qed.

Lemma ends_plain_nonempty a : ends_plain a → a ≠ [].
Proof. intros (l & x & -> & _). by destruct l. Qed.

Lemma startswith_sep_cons c p : startswith [sep] (c :: p) = bool_decide (c = sep).
Proof.
  unfold startswith. cbn. destruct (decide (c = sep)) as [->|Hc].
  - by rewrite !bool_decide_eq_true_2.
  - rewrite !bool_decide_eq_false_2; [done..|congruence].
Qed.

Lemma startswith_sep_plain p : head p ≠ Some sep → startswith [sep] p = false.
Proof.
  destruct p as [|c p]; [done|]. rewrite startswith_sep_cons. cbn.
  intros Hc. apply bool_decide_eq_false_2. congruence.
Qed.

Lemma startswith_sep_app g x : g ≠ [] → startswith [sep] (g ++ x) = startswith [sep] g.
Proof. destruct g as [|c g]; [done|]. intros _. by rewrite <- app_comm_cons, !startswith_sep_cons. Qed.

Lemma endswith_sep_plain a : ends_plain a → endswith [sep] a = false.
Proof.
  intros (l & x & -> & Hx). unfold endswith. apply andb_false_intro1.
  apply bool_decide_eq_false_2. rewrite length_app. cbn [length].
  replace (length l + 1 - 1)%nat with (length l) by lia.
  rewrite drop_app_length. congruence.
Qed.

(** Joining a relative component onto a plain path inserts one
    separator. *)
Lemma join2_plain a p :
  ends_plain a → head p ≠ Some sep → join2 a p = a ++ sep :: p.
Proof.
  intros Ha Hp. unfold join2.
  rewrite (startswith_sep_plain p Hp), (endswith_sep_plain a Ha).
  rewrite bool_decide_eq_false_2 by by apply ends_plain_nonempty.
  reflexivity.
Qed.

Lemma join2_rel_app a g x :
  g ≠ [] → startswith [sep] g = false → join2 a (g ++ x) = join2 a g ++ x.
Proof.
  intros Hg Hrel. unfold join2. rewrite startswith_sep_app, Hrel by done.
  destruct (_ || _); by rewrite <- ?app_assoc.
Qed.

Lemma resolve_in_app dir g x :
  g ≠ [] → resolve_in dir (g ++ x) = resolve_in dir g ++ x.
Proof.
  intros Hg. unfold resolve_in. rewrite startswith_sep_app by done.
  destruct (startswith [sep] g) eqn:E; [done|].
  cbn [join fold_left]. by apply join2_rel_app.
Qed.

Lemma resolve_in_ends_plain dir g : ends_plain g → ends_plain (resolve_in dir g).
Proof.
  intros Hg. unfold resolve_in. destruct (startswith [sep] g); [done|].
  cbn [join fold_left]. unfold join2.
  destruct (startswith [sep] g); [done|].
  destruct (_ || _); by repeat apply ends_plain_app.
Qed.

Lemma drop_while_skip {A} (p : A → bool) l x l' :
  Forall (fun y => p y = true) l → p x = false →
  drop_while p (l ++ x :: l') = x :: l'.
Proof.
  intros Hl Hx. induction Hl as [|y l Hy _ IH]; cbn; [by rewrite Hx|].
  by rewrite Hy.
Qed.

(** The directory of a path whose last component is [n]. *)
Lemma dirname_snoc a n :
  ends_plain a → sep ∉ n → dirname (a ++ sep :: n) = a.
Proof.
  intros (l & x & -> & Hx) Hn. unfold dirname.
  assert (Hhead : rev (drop_while (fun c => negb (c =? sep))
                         (rev ((l ++ [x]) ++ sep :: n)))
                  = (l ++ [x]) ++ [sep]).
  { rewrite rev_app_distr. cbn [rev]. rewrite <- app_assoc. cbn [app].
    rewrite drop_while_skip.
    - cbn [rev]. by rewrite rev_involutive.
    - apply Forall_forall. intros c Hc%list_elem_of_In%in_rev%list_elem_of_In.
      apply negb_true_iff, N.eqb_neq. intros ->. contradiction.
    - by rewrite N.eqb_refl. }
  rewrite Hhead.
  rewrite bool_decide_eq_true_2 by (by destruct l).
  rewrite bool_decide_eq_true_2.
  - unfold rstrip_sep. rewrite !rev_app_distr. cbn [rev app].
    cbn [andb drop_while]. rewrite N.eqb_refl.
    replace (sep =? x) with false by (symmetry; apply N.eqb_neq; congruence).
    cbn [rev]. by rewrite rev_involutive.
  - intros Heq.
    assert (Hin : x ∈ replicate (length ((l ++ [x]) ++ [sep])) sep).
    { rewrite <- Heq. rewrite !elem_of_app, !list_elem_of_singleton. auto. }
    apply elem_of_replicate in Hin as [-> _]. done.
Qed.

Lemma git_path_shape root : ∃ X, join root [py ".git"] = X ++ py ".git".
Proof.
  cbn [join fold_left]. unfold join2.
  rewrite startswith_sep_plain by discriminate.
  destruct (_ || _); [by exists root|].
  exists (root ++ [sep]). by rewrite <- app_assoc.
Qed.

Lemma ends_plain_git root : ends_plain (join root [py ".git"]).
Proof.
  destruct (git_path_shape root) as [X ->]. apply ends_plain_app.
  by exists (py ".gi"), 116.
Qed.

Lemma join_plain1 a p :
  ends_plain a → head p ≠ Some sep → join a [p] = a ++ sep :: p.
Proof. intros. cbn [join fold_left]. by apply join2_plain. Qed.

Lemma sha1_hexdigest_content_id content : is_content_id (sha1_hexdigest content).
Proof. split; [apply sha1_hexdigest_length|apply sha1_hexdigest_lower]. Qed.

Lemma lower_hex_not_sep c : is_lower_hex c = true → c ≠ sep.
Proof. by intros H ->. Qed.

Lemma content_id_split id :
  is_content_id id →
  ∃ c0 c1 c2 rest,
    id = c0 :: c1 :: c2 :: rest
    ∧ c0 ≠ sep ∧ c1 ≠ sep ∧ c2 ≠ sep ∧ sep ∉ rest.
Proof.
  intros [Hlen Hhex].
  destruct id as [|c0 [|c1 [|c2 rest]]]; try discriminate.
  apply Forall_cons in Hhex as [H0 Hhex].
  apply Forall_cons in Hhex as [H1 Hhex].
  apply Forall_cons in Hhex as [H2 Hhex].
  exists c0, c1, c2, rest. repeat split; try by apply lower_hex_not_sep.
  intros Hin. rewrite Forall_forall in Hhex.
  by apply (lower_hex_not_sep _ (Hhex _ Hin)).
Qed.

(** The three paths [write_object] computes, for a database directory
    that is a plain path and a content id. *)
Lemma write_object_paths db id :
  ends_plain db → is_content_id id →
  join db [take 2 id; drop 2 id] = db ++ sep :: take 2 id ++ sep :: drop 2 id
  ∧ dirname (join db [take 2 id; drop 2 id]) = db ++ sep :: take 2 id
  ∧ ends_plain (db ++ sep :: take 2 id).
Proof.
  intros Hdb (c0 & c1 & c2 & rest & -> & H0 & H1 & H2 & Hrest)%content_id_split.
  cbn [take drop].
  assert (Hdir : ends_plain (db ++ sep :: [c0; c1])).
  { apply ends_plain_app. by exists [sep; c0], c1. }
  assert (Hjoin : join db [[c0; c1]; c2 :: rest]
                  = db ++ sep :: [c0; c1] ++ sep :: c2 :: rest).
  { cbn [join fold_left].
    rewrite (join2_plain db) by (done || (cbn; congruence)).
    rewrite join2_plain by (done || (cbn; congruence)).
    by rewrite <- app_assoc. }
  split; [exact Hjoin|]. split; [|exact Hdir].
  rewrite Hjoin.
  replace (db ++ sep :: [c0; c1] ++ sep :: c2 :: rest)
    with ((db ++ sep :: [c0; c1]) ++ sep :: c2 :: rest)
    by (by rewrite <- app_assoc).
  apply dirname_snoc; [done|].
  intros [?|?]%elem_of_cons; congruence.
Qed.

Lemma generate_temp_name_run w :
  ∃ suffix,
    generate_temp_name w
    = (Ok (py "tmp_obj_" ++ suffix),
       mkworld (fs w) (cwd w) (environ w) (stdin w) (stdout w) (stderr w)
               (clock w) (drop 6 (entropy w))).
Proof. eexists. reflexivity. Qed.

Lemma confined_bind_post {A B} dir K (P : A → Prop) (m : M A) (k : A → M B) :
  confined dir K m →
  (∀ w a w', cwd w = dir → m w = (Ok a, w') → P a) →
  (∀ a, P a → confined dir K (k a)) →
  confined dir K (m ≫= k).
Proof.
  intros Hm HP Hk w r w' Hw. rewrite bind_run.
  destruct (m w) as [[a|e] w1] eqn:E; intros H.
  - pose proof (Hm _ _ _ Hw E) as H1.
    eapply confined_run_trans; [exact H1|].
    eapply (Hk a); [by eapply HP| |exact H]. apply H1.
  - injection H as <- <-. by eapply Hm.
Qed.

Lemma confined_generate_temp_name dir K : confined dir K generate_temp_name.
Proof.
  apply confined_pure. intros w r w'.
  destruct (generate_temp_name_run w) as [suffix ->]. by intros [= _ <-].
Qed.

Lemma below_app d rest : rest ≠ [] → below d (d ++ rest).
Proof. intros. by exists rest. Qed.

Lemma open_append_handle path w h w' :
  open_append path w = (Ok h, w') → h = resolve w path ∧ cwd w' = cwd w.
Proof.
  unfold open_append. destruct (parent_of w _) as [[]|]; [| |discriminate];
    destruct (fs w !! _) as [[]|]; intros [= <- <-]; done.
Qed.

(** A failed [open] leaves the world as it was. *)
Lemma open_append_raise path w e w' :
  open_append path w = (Raise e, w') → w' = w.
Proof.
  unfold open_append. destruct (parent_of w _) as [[]|];
    try destruct (fs w !! _) as [[]|]; intros [= _ <-]; done.
Qed.

Lemma os_mkdir_cwd path w r w' : os_mkdir path w = (r, w') → cwd w' = cwd w.
Proof.
  intros H.
  by destruct (confined_mkdir (cwd w) (fun _ => True) path I w r w' eq_refl H).
Qed.

(** The handle the [try] statement of [write_object] leaves in [f], when
    it leaves one, is the temporary file. *)
Lemma try_open_handle temp_path dirname w f w' :
  try_except_OSError
    (h ← open_append temp_path; mret (Some h))
    (fun e =>
       match e with
       | ENOENT =>
           os_mkdir dirname;;
           h ← open_append temp_path; mret (Some h)
       | _ => mret None
       end) w = (Ok f, w') →
  f = None ∨ f = Some (resolve w temp_path).
Proof.
  unfold try_except_OSError. rewrite bind_run.
  destruct (open_append temp_path w) as [[h|e] w1] eqn:E1.
  - intros [= <- <-]. right. f_equal.
    by apply open_append_handle in E1 as [-> _].
  - destruct e as [[]| | | | | |]; try discriminate;
      try (intros [= <- <-]; by left).
    rewrite bind_run.
    destruct (os_mkdir dirname w1) as [[[]|e] w2] eqn:E2; [|discriminate].
    rewrite bind_run.
    destruct (open_append temp_path w2) as [[h|e] w3] eqn:E3; [|discriminate].
    intros [= <- <-]. right. f_equal.
    apply open_append_handle in E3 as [-> _].
    apply os_mkdir_cwd in E2. apply open_append_raise in E1 as ->.
    unfold resolve. by rewrite E2.
Qed.

(** [write_object] only touches keys below the database directory. *)
Lemma confined_write_object zlib_compress dir db id content :
  ends_plain db → is_content_id id →
  confined dir (below (resolve_in dir db))
    (write_object zlib_compress (mkDatabase db) id content).
Proof.
  intros Hdb Hid.
  destruct (write_object_paths db id Hdb Hid) as (Hobj & Hdir & Hplain).
  unfold write_object. cbn [Database_pathname]. rewrite Hdir, Hobj.
  assert (Hne : db ≠ []) by by apply ends_plain_nonempty.
  assert (Kdir : below (resolve_in dir db) (resolve_in dir (db ++ sep :: take 2 id))).
  { rewrite resolve_in_app by done. by apply below_app. }
  assert (Kobj : below (resolve_in dir db)
            (resolve_in dir (db ++ sep :: take 2 id ++ sep :: drop 2 id))).
  { rewrite resolve_in_app by done. by apply below_app. }
  apply (confined_bind_post _ _ (fun name => head name ≠ Some sep)).
  { apply confined_generate_temp_name. }
  { intros w a w' _. destruct (generate_temp_name_run w) as [suffix ->].
    by intros [= <- _]. }
  intros name Hname.
  assert (Ktmp : below (resolve_in dir db)
            (resolve_in dir (join (db ++ sep :: take 2 id) [name]))).
  { rewrite join_plain1 by done. rewrite <- app_assoc.
    rewrite resolve_in_app by done. by apply below_app. }
  apply (confined_bind_post _ _
           (fun f => f = None
                     ∨ f = Some (resolve_in dir (join (db ++ sep :: take 2 id) [name])))).
  { apply confined_try.
    - apply confined_bind; [by apply confined_open_append|].
      intros h. apply confined_ret.
    - intros []; try apply confined_ret.
      apply confined_bind; [by apply confined_mkdir|]. intros _.
      apply confined_bind; [by apply confined_open_append|].
      intros h. apply confined_ret. }
  { intros w f w' <- H. by apply try_open_handle in H. }
  intros f Hf.
  apply (confined_bind_post _ _
           (fun h => h = resolve_in dir (join (db ++ sep :: take 2 id) [name]))).
  { destruct f; [apply confined_ret|apply confined_raise]. }
  { intros w h w' _. destruct Hf as [-> | ->]; [discriminate|].
    by intros [= <- _]. }
  intros h ->. apply confined_bind; [by apply confined_file_write|].
  intros _. apply confined_bind; [apply confined_ret|].
  intros _. by apply confined_rename.
Qed.

Lemma os_rename_ok src dst w w' :
  os_rename src dst w = (Ok (), w') →
  ∃ n, fs w !! resolve w src = Some n
       ∧ fs w' = <[resolve w dst := n]> (delete (resolve w src) (fs w))
       ∧ cwd w' = cwd w.
Proof.
  unfold os_rename.
  destruct (parent_of w (resolve w src)) as [ws|]; [|discriminate].
  destruct (fs w !! resolve w src) as [n|]; [|discriminate].
  destruct (parent_of w (resolve w dst)) as [wd|]; [|discriminate].
  destruct (negb (ws && wd)); [discriminate|].
  destruct n, (fs w !! resolve w dst) as [[]|]; try discriminate;
    intros [= <-]; eexists; done.
Qed.

(** A successful [write_object] leaves, at the object path, a file that
    ends with the compressed content (and holds nothing else unless the
    temporary file already existed). *)
Lemma write_object_ok zlib_compress self id content w w' :
  write_object zlib_compress self id content w = (Ok (), w') →
  ∃ old,
    fs w' !! resolve w (join (Database_pathname self) [take 2 id; drop 2 id])
    = Some (File (old ++ zlib_compress content)).
Proof.
  unfold write_object.
  set (object_path := join (Database_pathname self) [take 2 id; drop 2 id]).
  intros H.
  apply bind_ok_inv in H as (name & w1 & Hname & H).
  destruct (generate_temp_name_run w) as [suffix Hrun].
  rewrite Hrun in Hname. injection Hname as <- <-.
  set (temp_path := join (dirname object_path) [py "tmp_obj_" ++ suffix]) in *.
  set (w1 := mkworld _ _ _ _ _ _ _ _) in *.
  apply bind_ok_inv in H as (f & w2 & Htry & H).
  assert (Hcwd2 : cwd w2 = cwd w).
  { eapply (confined_try (cwd w1) (fun _ => True)); [| |reflexivity|exact Htry].
    - apply confined_bind; [by apply confined_open_append|].
      intros h. apply confined_ret.
    - intros []; try apply confined_ret.
      apply confined_bind; [by apply confined_mkdir|]. intros _.
      apply confined_bind; [by apply confined_open_append|].
      intros h. apply confined_ret. }
  apply try_open_handle in Htry.
  apply bind_ok_inv in H as (h & w3 & Hf & H).
  destruct Htry as [-> | ->]; [discriminate|]. injection Hf as <- <-.
  apply bind_ok_inv in H as ([] & w4 & Hwrite & H).
  assert (Hw4 : fs w4 = <[resolve w1 temp_path :=
                            File (file_contents w2 (resolve w1 temp_path)
                                  ++ zlib_compress content)]> (fs w2)
                ∧ cwd w4 = cwd w).
  { injection Hwrite as <-. split; [reflexivity|exact Hcwd2]. }
  destruct Hw4 as [Hfs4 Hcwd4].
  apply bind_ok_inv in H as ([] & w5 & Hclose & H).
  injection Hclose as <-.
  apply os_rename_ok in H as (n & Hn & Hfs & _).
  assert (Hres : ∀ path, resolve w4 path = resolve w path).
  { intros path. unfold resolve. by rewrite Hcwd4. }
  rewrite !Hres in Hfs. rewrite Hres in Hn.
  change (resolve w temp_path) with (resolve w1 temp_path) in Hn.
  rewrite Hfs4, lookup_insert_eq in Hn. injection Hn as <-.
  eexists. rewrite Hfs. apply lookup_insert_eq.
Qed.

(** C7. For every content id, the path the compressed frame is persisted
    at is [objects/<id[:2]>/<id[2:]>] under the [.git] directory - the
    database directory [<git>/objects], then the first two characters of
    the id as a directory and the remaining ones as the file name. *)
Theorem object_path_fan_out zlib_compress root data content w w' :
  let git_path := join root [py ".git"] in
  let database := mkDatabase (join git_path [py "objects"]) in
  let id := sha1_hexdigest data in
  let object_path :=
    git_path ++ py "/objects/" ++ take 2 id ++ py "/" ++ drop 2 id in
  join (Database_pathname database) [take 2 id; drop 2 id] = object_path
  ∧ length (take 2 id) = 2%nat
  ∧ take 2 id ++ drop 2 id = id
  ∧ (write_object zlib_compress database id content w = (Ok (), w') →
     ∃ old,
       fs w' !! resolve w object_path
       = Some (File (old ++ zlib_compress content))).
Proof.
  intros git_path database id object_path.
  assert (Hgit : ends_plain git_path) by apply ends_plain_git.
  assert (Hdb : join git_path [py "objects"] = git_path ++ py "/objects").
  { by apply join_plain1. }
  assert (Hpath : join (Database_pathname database) [take 2 id; drop 2 id]
                  = object_path).
  { unfold database. cbn [Database_pathname]. rewrite Hdb.
    destruct (write_object_paths (git_path ++ py "/objects") id) as [-> _].
    - apply ends_plain_app. by exists (py "/object"), 115.
    - apply sha1_hexdigest_content_id.
    - unfold object_path. by rewrite <- !app_assoc. }
  split; [exact Hpath|].
  split; [unfold id; rewrite length_take, (sha1_hexdigest_length data); done|].
  split; [apply take_drop|].
  intros H. rewrite <- Hpath. by eapply write_object_ok.
Qed.

Lemma object_path_fan_out_witness :
  file_contents
    (write_object store_only sample_db hello_id
       (b "blob 6" ++ [x00] ++ hello) sample_repo).2
    (py "/repo/.git/objects/ce/013625030ba8dba906f756967f9e9ca394464a")
  = b "blob 6" ++ [x00] ++ hello.
Proof.
  destruct (proj2 (proj2 (proj2
    (object_path_fan_out store_only (py "/repo") (b "blob 6" ++ [x00] ++ hello)
       (b "blob 6" ++ [x00] ++ hello) sample_repo
       (write_object store_only sample_db hello_id
          (b "blob 6" ++ [x00] ++ hello) sample_repo).2)))) as [old Hold].
  - vm_compute. reflexivity.
  - vm_compute. reflexivity.
Defined.

(** ** The first [open] of [write_object] *)

(** When the first [open] fails for the missing directory, the directory
    is made and the file is opened once more, outside of any handler: a
    second failure is final. *)
Lemma write_object_retries_once zlib_compress self id content w name w1 w2 :
  let object_path := join (Database_pathname self) [take 2 id; drop 2 id] in
  let temp_path := join (dirname object_path) [name] in
  generate_temp_name w = (Ok name, w1) →
  open_append temp_path w1 = (Raise (OSError ENOENT), w2) →
  write_object zlib_compress self id content w
  = (os_mkdir (dirname object_path);;
     f ← open_append temp_path;
     file_write f (zlib_compress content);;
     file_close f;;
     os_rename temp_path object_path) w1.
Proof.
  intros object_path temp_path Hname Hopen.
  pose proof (open_append_raise _ _ _ _ Hopen) as ->.
  unfold write_object. fold object_path. rewrite bind_run, Hname.
  fold temp_path. rewrite bind_run. unfold try_except_OSError at 1.
  rewrite bind_run, Hopen, !bind_run.
  destruct (os_mkdir (dirname object_path) w1) as [[[]|e] w3]; [|done].
  rewrite !bind_run.
  destruct (open_append temp_path w3) as [[h|e] w4]; done.
Qed.

(** C8 fails on the code. When the first [open] fails with any error other
    than [ENOENT], the handler swallows the error; [f] stays unbound and
    the call ends in [UnboundLocalError] at [f.write], not in the original
    I/O error. *)
Theorem store_io_error_not_propagated
    epoch_seconds zlib_compress self object data w name w1 e w2 :
  serialize epoch_seconds object = Ok data →
  let content := frame_of object data in
  let id := sha1_hexdigest content in
  let object_path := join (Database_pathname self) [take 2 id; drop 2 id] in
  generate_temp_name w = (Ok name, w1) →
  open_append (join (dirname object_path) [name]) w1 = (Raise (OSError e), w2) →
  e ≠ ENOENT →
  write_object zlib_compress self id content w = (Raise UnboundLocalError, w1)
  ∧ (store epoch_seconds zlib_compress self object w).1.1
    = Raise UnboundLocalError
  ∧ (store epoch_seconds zlib_compress self object w).1.1 ≠ Raise (OSError e).
Proof.
  intros Hs content id object_path Hname Hopen He.
  pose proof (open_append_raise _ _ _ _ Hopen) as ->.
  assert (Hw : write_object zlib_compress self id content w
               = (Raise UnboundLocalError, w1)).
  { unfold write_object. fold object_path. rewrite bind_run, Hname.
    rewrite bind_run. unfold try_except_OSError at 1.
    rewrite bind_run, Hopen. by destruct e. }
  split; [exact Hw|].
  rewrite (store_serialized _ _ _ _ _ _ Hs). cbv zeta.
  fold content. fold id. rewrite Hw. split; [reflexivity|discriminate].
Qed.

Lemma store_io_error_not_propagated_witness :
  (open_append (py "/repo/.git/objects/ce/tmp_obj_BCDAAA")
     (generate_temp_name sample_readonly).2).1 = Raise (OSError EACCES)
  ∧ (store utc_epoch_seconds store_only sample_db (Blob hello)
       sample_readonly).1.1 = Raise UnboundLocalError.
Proof.
  split; [vm_compute; reflexivity|].
  refine (proj1 (proj2 (store_io_error_not_propagated utc_epoch_seconds
            store_only sample_db (Blob hello) hello sample_readonly
            (py "tmp_obj_BCDAAA") (generate_temp_name sample_readonly).2
            EACCES (generate_temp_name sample_readonly).2 _ _ _ _)));
    try (vm_compute; reflexivity).
  discriminate.
Defined.

(** ** [init] *)

Lemma os_mkdir_ok path w w' :
  os_mkdir path w = (Ok (), w') →
  parent_of w (resolve w path) = Ok true
  ∧ fs w !! resolve w path = None
  ∧ w' = set_fs (insert (resolve w path) (Dir true)) w.
Proof.
  unfold os_mkdir. destruct (parent_of w _) as [[]|]; try discriminate;
    destruct (fs w !! _); try discriminate. by intros [= <-].
Qed.

Lemma os_mkdir_raise path w e w' :
  os_mkdir path w = (Raise e, w') → (∃ n, e = OSError n) ∧ w' = w.
Proof.
  unfold os_mkdir. destruct (parent_of w (resolve w path)) as [[]|e'] eqn:E.
  - destruct (fs w !! _); [|discriminate]. intros [= <- <-]. eauto.
  - destruct (fs w !! _); intros [= <- <-]; eauto.
  - intros [= <- <-]. split; [|done].
    unfold parent_of in E.
    destruct (fs w !! _) as [[]|]; try discriminate; injection E as <-; eauto.
Qed.

(** [os.mkdir] succeeds exactly where the entry is new and its directory
    accepts it. *)
Lemma os_mkdir_fresh path w :
  parent_of w (resolve w path) = Ok true →
  fs w !! resolve w path = None →
  os_mkdir path w = (Ok (), set_fs (insert (resolve w path) (Dir true)) w).
Proof. intros Hp Hk. unfold os_mkdir. by rewrite Hp, Hk. Qed.

Lemma os_mkdir_refused path w :
  parent_of w (resolve w path) ≠ Ok true ∨ fs w !! resolve w path ≠ None →
  ∃ n, os_mkdir path w = (Raise (OSError n), w).
Proof.
  intros H. destruct (os_mkdir path w) as [[[]|e] w'] eqn:E.
  - apply os_mkdir_ok in E as (? & ? & _). by destruct H.
  - apply os_mkdir_raise in E as [[n ->] ->]. eauto.
Qed.

Lemma make_git_dirs_raise git_path w e w' :
  make_git_dirs git_path w = (Raise e, w') →
  ∃ n, e = OSError n ∧ stdout w' = stdout w ∧ stderr w' = stderr w.
Proof.
  unfold make_git_dirs. rewrite bind_run.
  destruct (os_mkdir git_path w) as [[[]|e1] w1] eqn:E1.
  2:{ intros [= <- <-]. apply os_mkdir_raise in E1 as [[n ->] ->]. eauto. }
  apply os_mkdir_ok in E1 as (_ & _ & ->). rewrite bind_run.
  destruct (os_mkdir _ _) as [[[]|e2] w2] eqn:E2.
  2:{ intros [= <- <-]. apply os_mkdir_raise in E2 as [[n ->] ->]. eauto. }
  apply os_mkdir_ok in E2 as (_ & _ & ->).
  intros E3. apply os_mkdir_raise in E3 as [[n ->] ->]. eauto.
Qed.

Lemma make_git_dirs_ok git_path w w' :
  make_git_dirs git_path w = (Ok (), w') →
  let k1 := resolve w git_path in
  let k2 := resolve w (join git_path [py "objects"]) in
  let k3 := resolve w (join git_path [py "refs"]) in
  parent_of w k1 = Ok true ∧ fs w !! k1 = None
  ∧ w' = set_fs (fun m => <[k3 := Dir true]> (<[k2 := Dir true]> (<[k1 := Dir true]> m))) w.
Proof.
  unfold make_git_dirs. intros H.
  apply bind_ok_inv in H as ([] & w1 & E1 & H).
  apply bind_ok_inv in H as ([] & w2 & E2 & E3).
  apply os_mkdir_ok in E1 as (Hp & Hk & ->).
  apply os_mkdir_ok in E2 as (_ & _ & ->).
  apply os_mkdir_ok in E3 as (_ & _ & ->).
  done.
Qed.

Lemma init_run path w :
  let root_path := abspath (cwd w) path in
  let git_path := join root_path [py ".git"] in
  init path w =
  match make_git_dirs git_path w with
  | (Ok _, w1) =>
      (Raise (SystemExit 0),
       (stdout_write (py "Initialized empty Pit repository in " ++ root_path) w1).2)
  | (Raise (OSError _), w1) =>
      (Raise (SystemExit 1),
       (stderr_write (py "Unable to initialize git paths") w1).2)
  | (Raise e, w1) => (Raise e, w1)
  end.
Proof.
  intros root_path git_path. unfold init. rewrite bind_run. cbn [os_getcwd].
  fold root_path. fold git_path. rewrite bind_run.
  unfold try_except_OSError. fold (make_git_dirs git_path).
  destruct (make_git_dirs git_path w) as [[[]|[]] w1]; reflexivity.
Qed.

(** C9. [init] ends in [sys.exit(1)] after writing the error message to
    the standard error stream whenever [<root>/.git] already exists or the
    file system refuses to create it; it never ends otherwise than by
    [sys.exit(0)] or [sys.exit(1)].  When it ends in [sys.exit(0)], the
    directories [<root>/.git], [<root>/.git/objects] and
    [<root>/.git/refs] exist and the initialized path has been printed;
    and it does so whenever [.git] can be created and nothing is in the
    way of its two subdirectories. *)
Theorem init_outcome path w :
  let root_path := abspath (cwd w) path in
  let git_path := join root_path [py ".git"] in
  let git := resolve w git_path in
  let r := init path w in
  let failed :=
    r.1 = Raise (SystemExit 1)
    ∧ exit_status r.1 = 1%Z
    ∧ stderr r.2 = stderr w ++ py "Unable to initialize git paths"
    ∧ stdout r.2 = stdout w in
  let succeeded :=
    r.1 = Raise (SystemExit 0)
    ∧ exit_status r.1 = 0%Z
    ∧ fs r.2 !! git = Some (Dir true)
    ∧ fs r.2 !! (git ++ py "/objects") = Some (Dir true)
    ∧ fs r.2 !! (git ++ py "/refs") = Some (Dir true)
    ∧ stdout r.2
      = stdout w ++ py "Initialized empty Pit repository in " ++ root_path
    ∧ stderr r.2 = stderr w in
  (fs w !! git ≠ None → failed)
  ∧ (parent_of w git ≠ Ok true → failed)
  ∧ (failed ∨ succeeded)
  ∧ (parent_of w git = Ok true →
     fs w !! git = None →
     fs w !! (git ++ py "/objects") = None →
     fs w !! (git ++ py "/refs") = None →
     succeeded).
Proof.
  intros root_path git_path git r failed succeeded.
  assert (Hplain : ends_plain git_path) by apply ends_plain_git.
  assert (Hne : git_path ≠ []) by by apply ends_plain_nonempty.
  assert (Hobj : resolve w (join git_path [py "objects"]) = git ++ py "/objects").
  { rewrite join_plain1 by done. unfold resolve. by rewrite resolve_in_app. }
  assert (Hrefs : resolve w (join git_path [py "refs"]) = git ++ py "/refs").
  { rewrite join_plain1 by done. unfold resolve. by rewrite resolve_in_app. }
  assert (Hrun := init_run path w). cbv zeta in Hrun.
  fold root_path in Hrun. fold git_path in Hrun. fold r in Hrun.
  assert (Hfail : ∀ n w1, make_git_dirs git_path w = (Raise (OSError n), w1) →
                          failed).
  { intros n w1 E. rewrite E in Hrun.
    apply make_git_dirs_raise in E as (_ & _ & Hout & Herr).
    unfold failed. rewrite Hrun.
    cbn [fst snd exit_status stderr_write stdout stderr].
    by rewrite Hout, Herr. }
  assert (Hsucc : ∀ w1, make_git_dirs git_path w = (Ok (), w1) → succeeded).
  { intros w1 E. rewrite E in Hrun.
    apply make_git_dirs_ok in E as (_ & _ & ->). cbv zeta in Hrun.
    rewrite Hobj, Hrefs in Hrun. fold git in Hrun.
    unfold succeeded. rewrite Hrun.
    cbn [fst snd exit_status stdout_write stdout stderr fs set_fs].
    assert (H1 : git ≠ git ++ py "/objects").
    { intros H. apply (f_equal length) in H. rewrite length_app in H.
      cbn in H. lia. }
    assert (H2 : git ≠ git ++ py "/refs").
    { intros H. apply (f_equal length) in H. rewrite length_app in H.
      cbn in H. lia. }
    assert (H3 : git ++ py "/objects" ≠ git ++ py "/refs").
    { intros H%app_inv_head. discriminate H. }
    repeat split.
    - rewrite !lookup_insert_ne by congruence. apply lookup_insert_eq.
    - rewrite lookup_insert_ne by congruence. apply lookup_insert_eq.
    - apply lookup_insert_eq. }
  assert (Hrefused : parent_of w git ≠ Ok true ∨ fs w !! git ≠ None → failed).
  { intros H. destruct (os_mkdir_refused git_path w H) as [n E].
    apply (Hfail n w). unfold make_git_dirs. by rewrite bind_run, E. }
  split; [intros H; apply Hrefused; by right|].
  split; [intros H; apply Hrefused; by left|].
  split.
  { destruct (make_git_dirs git_path w) as [[[]|e] w1] eqn:E.
    - right. by apply (Hsucc w1).
    - left. destruct (make_git_dirs_raise _ _ _ _ E) as (n & -> & _).
      by apply (Hfail n w1). }
  intros Hp Hk Hko Hkr. apply (Hsucc
    (set_fs (fun m => <[git ++ py "/refs" := Dir true]>
                      (<[git ++ py "/objects" := Dir true]>
                      (<[git := Dir true]> m))) w)).
  assert (Hgplain : ends_plain git) by by apply resolve_in_ends_plain.
  assert (Hdir : ∀ n, sep ∉ n → dirname (git ++ sep :: n) = git).
  { intros n Hn. by apply dirname_snoc. }
  unfold make_git_dirs. rewrite bind_run.
  rewrite (os_mkdir_fresh git_path w Hp Hk). fold git. rewrite bind_run.
  set (w1 := set_fs (insert git (Dir true)) w).
  assert (Hres1 : ∀ p, resolve w1 p = resolve w p) by done.
  rewrite (os_mkdir_fresh _ w1); rewrite ?Hres1, ?Hobj.
  - set (w2 := set_fs (insert (git ++ py "/objects") (Dir true)) w1).
    assert (Hres2 : ∀ p, resolve w2 p = resolve w p) by done.
    rewrite (os_mkdir_fresh _ w2); rewrite ?Hres2, ?Hrefs.
    + reflexivity.
    + unfold parent_of.
      change (py "/refs") with (sep :: py "refs").
      rewrite Hdir by (apply (bool_decide_unpack _); by vm_compute).
      cbn [fs w2 w1 set_fs].
      rewrite lookup_insert_ne, lookup_insert_eq; [done|].
      intros H. apply (f_equal length) in H. rewrite length_app in H.
      cbn in H. lia.
    + cbn [fs w2 w1 set_fs].
      rewrite !lookup_insert_ne; [done|..].
      * intros H. apply (f_equal length) in H. rewrite length_app in H.
        cbn in H. lia.
      * intros H%app_inv_head. discriminate H.
  - unfold parent_of.
    change (py "/objects") with (sep :: py "objects").
    rewrite Hdir by (apply (bool_decide_unpack _); by vm_compute).
    cbn [fs w1 set_fs]. by rewrite lookup_insert_eq.
  - cbn [fs w1 set_fs]. rewrite lookup_insert_ne; [done|].
    intros H. apply (f_equal length) in H. rewrite length_app in H.
    cbn in H. lia.
Qed.

Lemma init_outcome_witness :
  (init (py ".") sample_repo).1 = Raise (SystemExit 1)
  ∧ (init (py ".") sample_world).1 = Raise (SystemExit 0)
  ∧ stdout (init (py ".") sample_world).2
    = py "Initialized empty Pit repository in /repo".
Proof.
  split; [|split].
  - refine (proj1 (proj1 (init_outcome (py ".") sample_repo) _)).
    vm_compute. discriminate.
  - refine (proj1 (proj2 (proj2 (proj2 (init_outcome (py ".") sample_world)))
                     _ _ _ _)); vm_compute; reflexivity.
  - destruct (proj2 (proj2 (proj2 (init_outcome (py ".") sample_world))))
      as (_ & _ & _ & _ & _ & H & _);
      [vm_compute; reflexivity ..|].
    rewrite H. vm_compute. reflexivity.
Defined.

(** ** [commit] and the head pointer *)

Lemma confined_step {A} dir K (m : M A) w wi r wj :
  confined dir K m →
  confined_run dir K w wi → m wi = (r, wj) → confined_run dir K w wj.
Proof.
  intros Hm Hrun H. eapply confined_run_trans; [exact Hrun|].
  eapply Hm; [|exact H]. apply Hrun.
Qed.

Section CommitFacts.
Variable epoch_seconds : datetime → Z.
Variable zlib_compress : bytes → bytes.

Lemma store_then_ok self object w object' w' :
  store_then epoch_seconds zlib_compress self object w = (Ok object', w') →
  ∃ data,
    serialize epoch_seconds object = Ok data
    ∧ object' = mkobject (body object)
                  (Some (sha1_hexdigest (frame_of object data)))
    ∧ write_object zlib_compress self
        (sha1_hexdigest (frame_of object data)) (frame_of object data) w
      = (Ok (), w').
Proof.
  unfold store_then.
  destruct (serialize epoch_seconds object) as [data|e] eqn:Hs.
  - rewrite (store_serialized _ _ _ _ _ _ Hs). cbv zeta.
    destruct (write_object _ _ _ _ _) as [[[]|e] w1] eqn:E; [|discriminate].
    intros [= <- <-]. exists data. by rewrite E.
  - by rewrite (store_failed _ _ _ _ _ _ Hs).
Qed.

Lemma confined_store_then dir db object :
  ends_plain db →
  confined dir (below (resolve_in dir db))
    (store_then epoch_seconds zlib_compress (mkDatabase db) object).
Proof.
  intros Hdb w r w' Hw. unfold store_then.
  destruct (serialize epoch_seconds object) as [data|e] eqn:Hs.
  - rewrite (store_serialized _ _ _ _ _ _ Hs). cbv zeta.
    destruct (write_object _ _ _ _ _) as [[[]|e] w1] eqn:E;
      intros [= _ <-];
      (eapply confined_write_object;
       [exact Hdb|apply sha1_hexdigest_content_id|exact Hw|exact E]).
  - rewrite (store_failed _ _ _ _ _ _ Hs). intros [= _ <-].
    rewrite <- Hw. apply confined_run_refl.
Qed.

Lemma confined_read_bytes dir K path : confined dir K (read_bytes path).
Proof.
  apply confined_pure. intros w r w'. unfold read_bytes.
  destruct (fs w !! _) as [[]|]; by intros [= _ <-].
Qed.

Lemma confined_get_id dir K object : confined dir K (get_id object).
Proof.
  unfold get_id. destruct (id_attr object);
    [apply confined_ret|apply confined_raise].
Qed.

Lemma confined_store_files dir db workspace files entries :
  ends_plain db →
  confined dir (below (resolve_in dir db))
    (store_files epoch_seconds zlib_compress workspace (mkDatabase db)
       files entries).
Proof.
  intros Hdb. revert entries.
  induction files as [|file rest IH]; intros entries; cbn [store_files].
  { apply confined_ret. }
  apply confined_bind; [apply confined_read_bytes|]. intros data.
  apply confined_bind; [by apply confined_store_then|]. intros blob.
  apply confined_bind; [apply confined_get_id|]. intros blob_id.
  apply IH.
Qed.

Lemma confined_list_files dir K workspace : confined dir K (list_files workspace).
Proof.
  apply confined_bind; [|intros names; apply confined_ret].
  apply confined_pure. intros w r w'. unfold os_listdir.
  destruct (fs w !! _) as [[]|]; by intros [= _ <-].
Qed.

Lemma confined_environ_get dir K key : confined dir K (environ_get key).
Proof.
  apply confined_pure. intros w r w'. unfold environ_get.
  destruct (environ w !! key); by intros [= _ <-].
Qed.

Lemma confined_stdin_readline dir K : confined dir K stdin_readline.
Proof.
  apply confined_pure. intros w r w'. unfold stdin_readline.
  destruct (stdin w); by intros [= _ <-].
Qed.

Lemma confined_datetime_now dir K : confined dir K datetime_now.
Proof. apply confined_pure. intros w r w'. by intros [= _ <-]. Qed.

End CommitFacts.

Lemma open_append_contents path w h w' :
  open_append path w = (Ok h, w') →
  file_contents w' h = file_contents w h ∧ cwd w' = cwd w.
Proof.
  unfold open_append, file_contents.
  destruct (parent_of w _) as [[]|]; [| |discriminate];
    destruct (fs w !! resolve w path) as [[]|] eqn:E; intros [= <- <-];
    cbn [fs set_fs cwd]; rewrite ?lookup_insert_eq, ?E; done.
Qed.

Lemma content_id_encode id :
  is_content_id id → str_encode id = Ok (map byte_of_N id).
Proof.
  intros [_ Hhex]. apply str_encode_ascii.
  eapply Forall_impl; [exact Hhex|]. intros c Hc.
  unfold is_lower_hex, is_digit in Hc. unfold is_ascii. apply N.ltb_lt.
  apply orb_prop in Hc as [[_ H]%andb_prop|[_ H]%andb_prop];
    apply N.leb_le in H; lia.
Qed.

Lemma below_objects_not_HEAD g : ¬ below (g ++ py "/objects") (g ++ py "/HEAD").
Proof.
  intros (rest & _ & H). rewrite <- app_assoc in H.
  apply app_inv_head in H. discriminate H.
Qed.

(** The ids [store] hands out are accepted by [Tree.serialize]: a content
    id decodes to the twenty bytes of the digest. *)
Lemma content_id_fromhex id :
  is_content_id id → ∃ d, fromhex id = Ok d ∧ length d = 20%nat.
Proof.
  intros [Hlen Hhex]. apply fromhex_pairs; [|exact Hlen].
  eapply Forall_impl; [exact Hhex|]. intros c Hc.
  unfold is_lower_hex, is_digit in Hc. unfold is_hex, digit_value.
  apply orb_prop in Hc as [Hd|Hl].
  - by rewrite Hd.
  - rewrite Hl. by destruct ((48 <=? c) && (c <=? 57)).
Qed.

(** * Further properties of the module *)

(** ** [generate_temp_name] *)

Lemma population_upper_or_digit :
  Forall (fun c => is_upper_or_digit c = true) (ascii_uppercase ++ digits).
Proof.
  apply Forall_forall. intros c Hc.
  assert (H : forallb is_upper_or_digit (ascii_uppercase ++ digits) = true)
    by (vm_compute; reflexivity).
  rewrite forallb_forall in H. by apply H, list_elem_of_In.
Qed.

(** X1. The name of a temporary file is [tmp_obj_] followed by exactly six
    characters, each an uppercase letter or a digit; it therefore holds no
    path separator. *)
Theorem generate_temp_name_shape w :
  ∃ suffix,
    (generate_temp_name w).1 = Ok (py "tmp_obj_" ++ suffix)
    ∧ length suffix = 6%nat
    ∧ Forall (fun c => is_upper_or_digit c = true) suffix
    ∧ sep ∉ py "tmp_obj_" ++ suffix.
Proof.
  eexists. split; [reflexivity|].
  set (draws := take 6 (entropy w ++ replicate 6 0)).
  assert (Hlen : length draws = 6%nat).
  { unfold draws. rewrite length_take, length_app, length_replicate. lia. }
  assert (Hall : Forall (fun c => is_upper_or_digit c = true)
            (map (fun d => nth (N.to_nat (d mod N.of_nat
                                 (length (ascii_uppercase ++ digits))))
                             (ascii_uppercase ++ digits) 0) draws)).
  { apply Forall_forall. intros c (d & -> & _)%list_elem_of_fmap.
    pose proof population_upper_or_digit as Hpop.
    rewrite Forall_forall in Hpop. apply Hpop, list_elem_of_In, nth_In.
    change (length (ascii_uppercase ++ digits)) with 36%nat.
    pose proof (N.mod_lt d (N.of_nat 36)). lia. }
  split; [by rewrite length_map|]. split; [exact Hall|].
  intros [Hin|Hin]%elem_of_app.
  - revert Hin. apply (bool_decide_unpack _). by vm_compute.
  - rewrite Forall_forall in Hall. by pose proof (Hall _ Hin).
Qed.

(** ** Digests in tree entries *)

Lemma byte_of_to_N x : byte_of_N (Byte.to_N x) = x.
Proof.
  unfold byte_of_N. pose proof (Byte.to_N_bounded x).
  rewrite N.mod_small by lia. by rewrite Byte.of_to_N.
Qed.

Lemma to_N_byte_of_N c : c < 256 → Byte.to_N (byte_of_N c) = c.
Proof.
  intros Hc. unfold byte_of_N. rewrite N.mod_small by done.
  destruct (Byte.of_N c) as [x|] eqn:E.
  - by apply Byte.to_of_N.
  - apply Byte.of_N_None_iff in E. lia.
Qed.

Lemma hex_digit_decodes n :
  n < 16 →
  digit_value (hex_digit n) = Some n ∧ is_space (hex_digit n) = false.
Proof.
  intros Hn.
  assert (Hall : forallb (fun k =>
            bool_decide (digit_value (hex_digit k) = Some k
                         ∧ is_space (hex_digit k) = false))
            (map N.of_nat (seq 0 16)) = true) by (vm_compute; reflexivity).
  rewrite forallb_forall in Hall.
  eapply bool_decide_eq_true_1, Hall.
  apply in_map_iff. exists (N.to_nat n). split; [lia|]. apply in_seq. lia.
Qed.

Lemma fromhex_hexlify l : fromhex (hexlify l) = Ok l.
Proof.
  unfold hexlify. induction l as [|x l IH]; [reflexivity|].
  cbn [flat_map app fromhex].
  pose proof (Byte.to_N_bounded x) as Hx.
  destruct (hex_digit_decodes (Byte.to_N x / 16)) as [-> ->].
  { apply N.Div0.div_lt_upper_bound. lia. }
  destruct (hex_digit_decodes (Byte.to_N x mod 16)) as [-> _].
  { apply N.mod_lt. lia. }
  rewrite IH. cbn [mbind result_bind]. do 2 f_equal.
  rewrite <- (byte_of_to_N x) at 3. f_equal.
  pose proof (N.div_mod (Byte.to_N x) 16). lia.
Qed.

(** X2. Decoding undoes the hexadecimal rendering of a digest: the id
    [store] assigns decodes, in [Tree.serialize], to the twenty raw bytes
    of the SHA-1 digest, so the entry of a stored object is its mode, its
    name, a NUL and that digest. *)
Theorem Tree_entry_of_stored_id name content :
  fromhex (sha1_hexdigest content) = Ok (SHA1.digest content)
  ∧ length (SHA1.digest content) = 20%nat
  ∧ Tree_entry (mkEntry name (sha1_hexdigest content))
    = (n ← str_encode name;
       Ok (b "100644 " ++ n ++ [x00] ++ SHA1.digest content)).
Proof.
  split; [apply fromhex_hexlify|]. split; [apply digest_length|].
  unfold Tree_entry. cbn [Entry_name Entry_id].
  unfold sha1_hexdigest. rewrite fromhex_hexlify.
  by destruct (str_encode name).
Qed.

(** ** [utf8len] *)

Lemma utf8_char_length c x :
  utf8_char c = Ok x → (1 ≤ length x ≤ 4)%nat.
Proof.
  unfold utf8_char.
  repeat match goal with
  | |- context [if ?t then _ else _] => destruct t
  end; intros [= <-]; cbn; lia.
Qed.

Lemma str_encode_length s x :
  str_encode s = Ok x → (length s ≤ length x ≤ 4 * length s)%nat.
Proof.
  revert x. induction s as [|c s IH]; intros x; cbn [str_encode].
  { intros [= <-]. cbn. lia. }
  destruct (utf8_char c) as [y|] eqn:Hc; [|discriminate].
  destruct (str_encode s) as [z|]; [|discriminate].
  intros [= <-]. rewrite length_app. cbn [length].
  pose proof (utf8_char_length _ _ Hc). pose proof (IH z eq_refl). lia.
Qed.

Lemma str_encode_surrogate s :
  Exists (fun c => 0xD800 ≤ c ≤ 0xDFFF) s →
  str_encode s = Raise UnicodeEncodeError.
Proof.
  induction s as [|c s IH]; intros Hex; [by apply Exists_nil in Hex|].
  cbn [str_encode]. apply Exists_cons in Hex as [Hc|Hs].
  - unfold utf8_char.
    replace (c <? 0x80) with false by (symmetry; apply N.ltb_ge; lia).
    replace (c <? 0x800) with false by (symmetry; apply N.ltb_ge; lia).
    replace (c <? 0x10000) with true by (symmetry; apply N.ltb_lt; lia).
    replace (0xD800 <=? c) with true by (symmetry; apply N.leb_le; lia).
    replace (c <=? 0xDFFF) with true by (symmetry; apply N.leb_le; lia).
    reflexivity.
  - rewrite (IH Hs). destruct (utf8_char c) as [y|e] eqn:Hc; [done|].
    cbn [mbind result_bind]. unfold utf8_char in Hc.
    repeat match type of Hc with
    | context [if ?t then _ else _] => destruct t
    end; first [discriminate Hc | by injection Hc as <-].
Qed.

(** X3. [utf8len] counts between one and four bytes per character: the
    result lies between [len(s)] and [4 * len(s)], equals [len(s)] for an
    ASCII string, and the call raises [UnicodeEncodeError] when the string
    holds a surrogate. *)
Theorem utf8len_bounds s :
  (∀ n, utf8len s = Ok n → (length s ≤ n ≤ 4 * length s)%nat)
  ∧ (Forall (fun c => is_ascii c = true) s → utf8len s = Ok (length s))
  ∧ (Exists (fun c => 0xD800 ≤ c ≤ 0xDFFF) s →
     utf8len s = Raise UnicodeEncodeError).
Proof.
  unfold utf8len. split; [|split].
  - intros n. destruct (str_encode s) as [x|] eqn:E; [|discriminate].
    intros [= <-]. by apply str_encode_length.
  - intros Hs. rewrite (str_encode_ascii s Hs). cbn. by rewrite length_map.
  - intros Hs. by rewrite (str_encode_surrogate s Hs).
Qed.

Lemma utf8len_bounds_witness :
  utf8len [0x68; 0xE9; 0x20AC; 0x1F600] = Ok 10%nat
  ∧ (4 ≤ 10 ≤ 4 * 4)%nat.
Proof.
  split; [vm_compute; reflexivity|].
  exact (proj1 (utf8len_bounds [0x68; 0xE9; 0x20AC; 0x1F600]) 10%nat eq_refl).
Defined.

(** ** Frames can be read back *)

Lemma split_at_first {A} (x : A) l1 r1 l2 r2 :
  x ∉ l1 → x ∉ l2 → l1 ++ x :: r1 = l2 ++ x :: r2 → l1 = l2 ∧ r1 = r2.
Proof.
  revert l2. induction l1 as [|y l1 IH]; intros [|z l2] H1 H2; cbn.
  - by intros [= ->].
  - intros [= -> _]. destruct H2. by left.
  - intros [= -> _]. destruct H1. by left.
  - intros [= -> H].
    destruct (IH l2) as [-> ->]; [| |exact H|done].
    + intros ?. apply H1. by right.
    + intros ?. apply H2. by right.
Qed.

Lemma size_field_no_nul n : x00 ∉ map byte_of_N (str_of_N n).
Proof.
  intros (c & Hc & Hin)%list_elem_of_fmap.
  pose proof (str_of_N_digits n) as Hd. rewrite Forall_forall in Hd.
  specialize (Hd c Hin). unfold is_digit in Hd.
  apply andb_prop in Hd as [H1%N.leb_le H2%N.leb_le].
  apply (f_equal Byte.to_N) in Hc. rewrite to_N_byte_of_N in Hc by lia.
  cbn in Hc. lia.
Qed.

(** X4. A frame determines what was framed: two objects have the same
    frame only if they are of the same kind and have the same content, so
    the kind token and the content can be read back from the stored
    bytes. *)
Theorem frame_injective c1 c2 d1 d2 :
  frame (type_of c1) d1 = frame (type_of c2) d2 →
  type_of c1 = type_of c2 ∧ d1 = d2.
Proof.
  rewrite !frame_eq. intros [= H].
  assert (Hty : type_of c1 = type_of c2).
  { destruct c1, c2; try reflexivity; discriminate H. }
  split; [exact Hty|].
  rewrite Hty in H. apply app_inv_head in H. injection H as H.
  by apply split_at_first in H as [_ ->]; try apply size_field_no_nul.
Qed.

Lemma frame_injective_witness :
  type_of (BlobC hello) = type_of (BlobC hello) ∧ hello = hello.
Proof. exact (frame_injective (BlobC hello) (BlobC hello) hello hello eq_refl). Defined.

(** ** [Author.serialize] with a time zone *)

(** X5. For a timestamp that carries a UTC offset of a whole number of
    minutes, less than a day either way, [Author.serialize] is the name,
    the email, the seconds and the offset as a sign and four digits (two
    for the hours, two for the minutes), separated by single spaces. *)
Theorem Author_serialize_aware epoch_seconds name email t offset :
  utcoffset t = Some offset →
  (Z.abs offset < 86400000000)%Z →
  (offset mod 60000000 = 0)%Z →
  let minutes := Z.to_N (Z.abs offset) / 60000000 in
  let hh := minutes / 60 in
  let mm := minutes mod 60 in
  Author_serialize epoch_seconds (mkAuthor name email t)
  = name ++ py " " ++ email ++ py " " ++ str_of_Z (epoch_seconds t) ++ py " "
    ++ [if (offset <? 0)%Z then 45 else 43;
        48 + hh / 10; 48 + hh mod 10; 48 + mm / 10; 48 + mm mod 10]
  ∧ hh < 24 ∧ mm < 60.
Proof.
  intros Ht Hlt Hmod minutes hh mm.
  unfold Author_serialize, strftime_s_z. cbn [Author_name Author_email Author_time].
  rewrite (strftime_z_aware t offset Ht Hlt Hmod). cbv zeta.
  split; [reflexivity|].
  assert (minutes < 1440) by (apply N.Div0.div_lt_upper_bound; lia).
  split.
  - apply N.Div0.div_lt_upper_bound. lia.
  - apply N.mod_lt. lia.
Qed.

Lemma Author_serialize_aware_witness :
  Author_serialize utc_epoch_seconds
    (mkAuthor (py "Jane") (py "jane@x.com")
       (mkdatetime 2020 1 2 3 4 5 6 (Some (-19800000000)%Z)))
  = py "Jane jane@x.com 1577934245 -0530".
Proof.
  refine (eq_trans (proj1 (Author_serialize_aware utc_epoch_seconds
            (py "Jane") (py "jane@x.com")
            (mkdatetime 2020 1 2 3 4 5 6 (Some (-19800000000)%Z))
            (-19800000000)%Z eq_refl _ _)) _); vm_compute; reflexivity.
Defined.

(** ** [init] on an existing repository *)

Lemma init_first_mkdir_refused path w :
  let git := resolve w (join (abspath (cwd w) path) [py ".git"]) in
  fs w !! git ≠ None ∨ parent_of w git ≠ Ok true →
  init path w
  = (Raise (SystemExit 1),
     (stderr_write (py "Unable to initialize git paths") w).2).
Proof.
  intros git H. rewrite init_run. cbv zeta.
  destruct (os_mkdir_refused (join (abspath (cwd w) path) [py ".git"]) w)
    as [n E]; [tauto|].
  unfold make_git_dirs. by rewrite bind_run, E.
Qed.

(** X6. When [<root>/.git] already exists, or the file system refuses to
    create it, [init] changes nothing in the file system and prints
    nothing on the standard output: only the error message is written. *)
Theorem init_refused_changes_nothing path w :
  let git := resolve w (join (abspath (cwd w) path) [py ".git"]) in
  fs w !! git ≠ None ∨ parent_of w git ≠ Ok true →
  fs (init path w).2 = fs w
  ∧ stdout (init path w).2 = stdout w
  ∧ stderr (init path w).2 = stderr w ++ py "Unable to initialize git paths".
Proof.
  intros git H. by rewrite (init_first_mkdir_refused path w H).
Qed.

Lemma init_refused_changes_nothing_witness :
  fs (init (py ".") sample_repo).2 = fs sample_repo.
Proof.
  refine (proj1 (init_refused_changes_nothing (py ".") sample_repo _)).
  left. vm_compute. discriminate.
Defined.

(** X7. Running [init] again on the repository a first run has created
    fails with exit code 1 and leaves the repository as the first run made
    it. *)
Theorem init_twice path w :
  (init path w).1 = Raise (SystemExit 0) →
  let w1 := (init path w).2 in
  (init path w1).1 = Raise (SystemExit 1)
  ∧ exit_status (init path w1).1 = 1%Z
  ∧ fs (init path w1).2 = fs w1.
Proof.
  intros H w1.
  assert (Hrun := init_run path w). cbv zeta in Hrun.
  destruct (make_git_dirs _ w) as [[[]|e] w'] eqn:E.
  2:{ destruct (make_git_dirs_raise _ _ _ _ E) as (n & -> & _).
      rewrite Hrun in H. discriminate H. }
  apply make_git_dirs_ok in E as (_ & _ & ->). cbv zeta in Hrun.
  assert (Hcwd : cwd w1 = cwd w) by (unfold w1; by rewrite Hrun).
  assert (Hgit : fs w1 !! resolve w1 (join (abspath (cwd w1) path) [py ".git"])
                 ≠ None).
  { unfold resolve. rewrite Hcwd. fold (resolve w).
    unfold w1. rewrite Hrun. cbn [snd stdout_write fs set_fs].
    rewrite !lookup_insert. repeat case_decide; done. }
  rewrite (init_first_mkdir_refused path w1 (or_introl Hgit)).
  done.
Qed.

Lemma init_twice_witness :
  (init (py ".") (init (py ".") sample_world).2).1 = Raise (SystemExit 1).
Proof.
  refine (proj1 (init_twice (py ".") sample_world _)). vm_compute. reflexivity.
Defined.

(** ** [write_object] in a healthy store *)

Lemma temp_name_facts w name w1 :
  generate_temp_name w = (Ok name, w1) →
  fs w1 = fs w ∧ cwd w1 = cwd w
  ∧ (∃ suffix, name = py "tmp_obj_" ++ suffix) ∧ sep ∉ name.
Proof.
  unfold generate_temp_name. rewrite bind_run.
  destruct (random_choices (ascii_uppercase ++ digits) 6 w)
    as [[suffix|e] w2] eqn:E; [|discriminate].
  intros H.
  assert (Hn : name = py "tmp_obj_" ++ suffix).
  { apply (f_equal fst) in H. cbn [fst] in H. unfold mret, M_ret in H.
    cbn [fst] in H. congruence. }
  assert (Hw : w1 = w2).
  { apply (f_equal snd) in H. unfold mret, M_ret in H. by cbn [snd] in H. }
  subst name w1. unfold random_choices in E.
  apply (f_equal snd) in E as Hw2. cbn [snd] in Hw2.
  apply (f_equal fst) in E. cbn [fst] in E.
  assert (Hs : suffix = map (fun d => nth (N.to_nat (d mod N.of_nat
                                (length (ascii_uppercase ++ digits))))
                             (ascii_uppercase ++ digits) 0)
                          (take 6 (entropy w ++ replicate 6 0)))
    by congruence.
  clear E. subst w2.
  split; [done|]. split; [done|]. split; [by exists suffix|].
  rewrite Hs.
  intros [Hin|Hin]%elem_of_app.
  - revert Hin. apply (bool_decide_unpack _). by vm_compute.
  - apply list_elem_of_fmap in Hin as (d & Hd & _).
    pose proof population_upper_or_digit as Hpop.
    rewrite Forall_forall in Hpop.
    assert (Hmem : sep ∈ ascii_uppercase ++ digits).
    { rewrite Hd. apply list_elem_of_In, nth_In.
      change (length (ascii_uppercase ++ digits)) with 36%nat.
      pose proof (N.mod_lt d (N.of_nat 36)). lia. }
    by pose proof (Hpop _ Hmem).
Qed.

(** The keys of [write_object], spelled out below the database
    directory. *)
Lemma write_object_keys w db id name :
  ends_plain db → is_content_id id → sep ∉ name →
  let D := resolve w db in
  let self := mkDatabase db in
  fan_out_key w self id = D ++ sep :: take 2 id
  ∧ object_key w self id = (D ++ sep :: take 2 id) ++ sep :: drop 2 id
  ∧ temp_key w self id name = (D ++ sep :: take 2 id) ++ sep :: name
  ∧ dirname (fan_out_key w self id) = D
  ∧ dirname (object_key w self id) = fan_out_key w self id
  ∧ dirname (temp_key w self id name) = fan_out_key w self id.
Proof.
  intros Hdb Hid Hname D self.
  destruct (write_object_paths db id Hdb Hid) as (Hobj & Hdir & Hplain).
  assert (Hne : db ≠ []) by by apply ends_plain_nonempty.
  assert (HD : ends_plain D) by by apply resolve_in_ends_plain.
  destruct (content_id_split id Hid)
    as (c0 & c1 & c2 & rest & Hidq & H0 & H1 & H2 & Hrest).
  assert (Hfan : fan_out_key w self id = D ++ sep :: take 2 id).
  { unfold fan_out_key, resolve. cbn [Database_pathname self].
    rewrite Hdir. by apply resolve_in_app. }
  assert (Hfplain : ends_plain (D ++ sep :: take 2 id)).
  { rewrite Hidq. cbn [take]. apply ends_plain_app. by exists [sep; c0], c1. }
  assert (Hok : object_key w self id
                = (D ++ sep :: take 2 id) ++ sep :: drop 2 id).
  { unfold object_key, resolve. cbn [Database_pathname self].
    rewrite Hobj, resolve_in_app by done. by rewrite <- app_assoc. }
  assert (Htk : temp_key w self id name
                = (D ++ sep :: take 2 id) ++ sep :: name).
  { unfold temp_key, resolve. cbn [Database_pathname self].
    rewrite Hdir, join_plain1; [|done|].
    - rewrite <- app_assoc, resolve_in_app by done. by rewrite <- app_assoc.
    - destruct name as [|c name]; [done|]. cbn. intros [= ->].
      apply Hname. by left. }
  split; [exact Hfan|]. split; [exact Hok|]. split; [exact Htk|].
  rewrite Hok, Htk, Hfan. split; [|split].
  - apply dirname_snoc; [done|]. rewrite Hidq. cbn [take].
    intros [?|[?|?%elem_of_nil]%elem_of_cons]%elem_of_cons; congruence.
  - apply dirname_snoc; [done|]. rewrite Hidq. cbn [drop].
    intros [?|?]%elem_of_cons; congruence.
  - by apply dirname_snoc.
Qed.

Lemma open_append_create path w :
  parent_of w (resolve w path) = Ok true →
  fs w !! resolve w path = None →
  open_append path w
  = (Ok (resolve w path), set_fs (insert (resolve w path) (File [])) w).
Proof. intros Hp Hk. unfold open_append. by rewrite Hp, Hk. Qed.

Lemma os_rename_file src dst w data :
  parent_of w (resolve w src) = Ok true →
  fs w !! resolve w src = Some (File data) →
  parent_of w (resolve w dst) = Ok true →
  fs w !! resolve w dst = None ∨ is_file_at w (resolve w dst) →
  os_rename src dst w
  = (Ok (), set_fs (fun m => <[resolve w dst := File data]>
                             (delete (resolve w src) m)) w).
Proof.
  intros Hps Hs Hpd Hd. unfold os_rename. rewrite Hps, Hs, Hpd. cbn [negb andb].
  by destruct Hd as [-> | [d ->]].
Qed.

Lemma file_write_at f data w old :
  fs w !! f = Some (File old) →
  file_write f data w = (Ok (), set_fs (insert f (File (old ++ data))) w).
Proof. intros H. unfold file_write. by rewrite H. Qed.

Lemma parent_of_dir w k writable :
  fs w !! dirname k = Some (Dir writable) → parent_of w k = Ok writable.
Proof. intros H. unfold parent_of. by rewrite H. Qed.

(** The run of [write_object] in a store that is in order. *)
Lemma write_object_healthy zlib_compress db id content w name w1 :
  ends_plain db → is_content_id id →
  generate_temp_name w = (Ok name, w1) →
  let self := mkDatabase db in
  let dir := fan_out_key w self id in
  let obj := object_key w self id in
  let tmp := temp_key w self id name in
  (fs w !! dir = Some (Dir true)
   ∨ (fs w !! dir = None ∧ fs w !! resolve w db = Some (Dir true))) →
  fs w !! tmp = None →
  (fs w !! obj = None ∨ is_file_at w obj) →
  ∃ w',
    write_object zlib_compress self id content w = (Ok (), w')
    ∧ fs w' = <[obj := File (zlib_compress content)]>
                (<[dir := Dir true]> (fs w))
    ∧ cwd w' = cwd w.
Proof.
  intros Hdb Hid Hgen self dir obj tmp Hdir Htmp Hobj.
  destruct (temp_name_facts _ _ _ Hgen) as (Hfs1 & Hcwd1 & [suffix Hname] & Hsep).
  destruct (write_object_keys w db id name Hdb Hid Hsep)
    as (Kdir & Kobj & Ktmp & Ddir & Dobj & Dtmp).
  fold self in Kdir, Kobj, Ktmp, Ddir, Dobj, Dtmp.
  fold dir in Kdir, Kobj, Ktmp, Ddir, Dobj, Dtmp.
  fold obj in Kobj, Dobj. fold tmp in Ktmp, Dtmp.
  assert (Htd : tmp ≠ dir).
  { rewrite Ktmp, Kdir. intros H. apply (f_equal length) in H.
    rewrite length_app in H. cbn in H. lia. }
  assert (Hod : obj ≠ dir).
  { rewrite Kobj, Kdir. intros H. apply (f_equal length) in H.
    rewrite length_app in H. cbn in H. lia. }
  assert (Hto : tmp ≠ obj).
  { rewrite Ktmp, Kobj. intros H%app_inv_head. injection H as H.
    destruct (content_id_split id Hid) as (c0 & c1 & c2 & rest & -> & _).
    destruct Hid as [_ Hhex]. rewrite Hname in H. cbn in H.
    injection H as H _. subst c2.
    apply Forall_cons in Hhex as [_ Hhex].
    apply Forall_cons in Hhex as [_ Hhex].
    by apply Forall_cons in Hhex as [Hhex _]. }
  set (object_path := join db [take 2 id; drop 2 id]).
  set (temp_path := join (dirname object_path) [name]).
  assert (R1 : ∀ p, resolve w1 p = resolve w p).
  { intros p. unfold resolve. by rewrite Hcwd1. }
  (* the [try] statement *)
  assert (Htry : ∃ w2,
    try_except_OSError
      (h ← open_append temp_path; mret (Some h))
      (fun e =>
         match e with
         | ENOENT =>
             os_mkdir (dirname object_path);;
             h ← open_append temp_path; mret (Some h)
         | _ => mret None
         end) w1 = (Ok (Some tmp), w2)
    ∧ fs w2 = <[tmp := File []]> (<[dir := Dir true]> (fs w))
    ∧ cwd w2 = cwd w).
  { unfold try_except_OSError. rewrite bind_run.
    destruct Hdir as [Hdir|[Hdir HD]].
    - rewrite (open_append_create temp_path w1).
      + rewrite !R1. change (resolve w temp_path) with tmp.
        eexists. split; [reflexivity|].
        split; [|done]. cbn [fs set_fs]. rewrite Hfs1.
        by rewrite (insert_id (fs w) dir).
      + rewrite R1. apply parent_of_dir.
        change (resolve w temp_path) with tmp. by rewrite Dtmp, Hfs1.
      + by rewrite R1, Hfs1.
    - assert (Hfail : open_append temp_path w1 = (Raise (OSError ENOENT), w1)).
      { unfold open_append, parent_of. rewrite R1.
        change (resolve w temp_path) with tmp. by rewrite Dtmp, Hfs1, Hdir. }
      rewrite Hfail, bind_run.
      rewrite (os_mkdir_fresh (dirname object_path) w1).
      2:{ rewrite R1. apply parent_of_dir.
          change (resolve w (dirname object_path)) with dir.
          by rewrite Ddir, Hfs1. }
      2:{ by rewrite R1, Hfs1. }
      rewrite R1. change (resolve w (dirname object_path)) with dir.
      rewrite bind_run.
      set (w2 := set_fs (insert dir (Dir true)) w1).
      rewrite (open_append_create temp_path w2).
      + change (resolve w2 temp_path) with (resolve w1 temp_path).
        rewrite !R1. change (resolve w temp_path) with tmp.
        eexists. split; [reflexivity|]. split; [|done].
        cbn [fs set_fs w2]. by rewrite Hfs1.
      + apply parent_of_dir.
        change (resolve w2 temp_path) with (resolve w1 temp_path).
        rewrite R1. change (resolve w temp_path) with tmp.
        rewrite Dtmp. cbn [fs set_fs w2]. apply lookup_insert_eq.
      + change (resolve w2 temp_path) with (resolve w1 temp_path).
        rewrite R1. change (resolve w temp_path) with tmp.
        cbn [fs set_fs w2]. by rewrite lookup_insert_ne, Hfs1. }
  destruct Htry as (w2 & Htry & Hfs2 & Hcwd2).
  unfold write_object. cbn [Database_pathname self].
  fold object_path. rewrite bind_run, Hgen. fold temp_path.
  rewrite bind_run, Htry. cbn [read_local]. rewrite bind_run.
  unfold mret at 1, M_ret at 1. cbn beta iota.
  rewrite bind_run.
  rewrite (file_write_at tmp _ w2 []) by (rewrite Hfs2; apply lookup_insert_eq).
  rewrite bind_run. unfold file_close, mret, M_ret.
  set (w3 := set_fs (insert tmp (File ([] ++ zlib_compress content))) w2).
  assert (R3 : ∀ p, resolve w3 p = resolve w p).
  { intros p. unfold resolve. cbn [cwd set_fs w3]. by rewrite Hcwd2. }
  assert (Hfs3 : fs w3 = <[tmp := File (zlib_compress content)]>
                           (<[dir := Dir true]> (fs w))).
  { cbn [fs set_fs w3]. by rewrite Hfs2, insert_insert_eq. }
  rewrite (os_rename_file temp_path object_path w3 (zlib_compress content)).
  - eexists. split; [reflexivity|]. split; [|by rewrite <- Hcwd2].
    cbn [fs set_fs]. rewrite !R3.
    change (resolve w temp_path) with tmp.
    change (resolve w object_path) with obj.
    fold w3. rewrite Hfs3, delete_insert_id; [done|].
    by rewrite lookup_insert_ne.
  - apply parent_of_dir. rewrite R3. change (resolve w temp_path) with tmp.
    rewrite Dtmp, Hfs3, lookup_insert_ne by done. apply lookup_insert_eq.
  - rewrite R3. change (resolve w temp_path) with tmp.
    rewrite Hfs3. apply lookup_insert_eq.
  - apply parent_of_dir. rewrite R3. change (resolve w object_path) with obj.
    rewrite Dobj, Hfs3, lookup_insert_ne by done. apply lookup_insert_eq.
  - rewrite R3. change (resolve w object_path) with obj.
    unfold is_file_at. rewrite Hfs3.
    rewrite !lookup_insert_ne by done.
    destruct Hobj as [?|?]; [by left|by right].
Qed.

(** X8. In a store whose fan-out directory exists and is writable, or is
    missing below a writable database directory, with no file yet under
    the temporary name and nothing but a file (if anything) at the object
    path, [write_object] succeeds; afterwards the file system is the one
    before with the fan-out directory present and, at the object path, a
    file holding exactly the compressed content.  No temporary file is
    left. *)
Theorem write_object_fresh zlib_compress db id content w name w1 :
  ends_plain db → is_content_id id →
  generate_temp_name w = (Ok name, w1) →
  let self := mkDatabase db in
  let dir := fan_out_key w self id in
  let obj := object_key w self id in
  let tmp := temp_key w self id name in
  (fs w !! dir = Some (Dir true)
   ∨ (fs w !! dir = None ∧ fs w !! resolve w db = Some (Dir true))) →
  fs w !! tmp = None →
  (fs w !! obj = None ∨ is_file_at w obj) →
  ∃ w',
    write_object zlib_compress self id content w = (Ok (), w')
    ∧ fs w' = <[obj := File (zlib_compress content)]>
                (<[dir := Dir true]> (fs w))
    ∧ cwd w' = cwd w.
Proof. apply write_object_healthy. Qed.

Lemma hello_id_content_id : is_content_id hello_id.
Proof.
  split; [reflexivity|]. apply (bool_decide_unpack _). by vm_compute.
Qed.

Lemma sample_db_plain : ends_plain (py "/repo/.git/objects").
Proof. by exists (py "/repo/.git/object"), 115. Qed.

Lemma write_object_fresh_witness :
  ∃ w',
    write_object store_only sample_db hello_id hello_frame sample_repo
    = (Ok (), w')
    ∧ fs w' = <[py "/repo/.git/objects/ce/013625030ba8dba906f756967f9e9ca394464a"
                  := File hello_frame]>
                (<[py "/repo/.git/objects/ce" := Dir true]> (fs sample_repo)).
Proof.
  destruct (write_object_fresh store_only (py "/repo/.git/objects") hello_id
              hello_frame sample_repo (py "tmp_obj_BCDAAA")
              (generate_temp_name sample_repo).2 sample_db_plain
              hello_id_content_id)
    as (w' & Hrun & Hfs & _).
  - vm_compute. reflexivity.
  - right. split; vm_compute; reflexivity.
  - vm_compute. reflexivity.
  - left. vm_compute. reflexivity.
  - exists w'. split; [exact Hrun|]. exact Hfs.
Defined.

(** X9. Storing content that is already in the store changes nothing:
    when the object file already holds the compressed frame (and the
    temporary name is free), [store] succeeds again, assigns the same id
    and leaves the file system exactly as it was. *)
Theorem store_again epoch_seconds zlib_compress db object data w name w1 :
  ends_plain db →
  serialize epoch_seconds object = Ok data →
  generate_temp_name w = (Ok name, w1) →
  let self := mkDatabase db in
  let id := sha1_hexdigest (frame_of object data) in
  fs w !! fan_out_key w self id = Some (Dir true) →
  fs w !! object_key w self id
    = Some (File (zlib_compress (frame_of object data))) →
  fs w !! temp_key w self id name = None →
  ∃ w',
    store epoch_seconds zlib_compress self object w
    = (Ok PyNone, mkobject (body object) (Some id), w')
    ∧ fs w' = fs w.
Proof.
  intros Hdb Hs Hgen self id Hdir Hobj Htmp.
  destruct (write_object_healthy zlib_compress db id (frame_of object data)
              w name w1 Hdb (sha1_hexdigest_content_id _) Hgen)
    as (w' & Hrun & Hfs & _); [by left|done|right; by eexists|].
  fold self in Hrun, Hfs. exists w'. split.
  - rewrite (store_serialized _ _ _ _ _ _ Hs). cbv zeta. fold id.
    by rewrite Hrun.
  - rewrite Hfs. rewrite (insert_id (fs w) _ _ Hdir). by apply insert_id.
Qed.

Lemma store_again_witness :
  ∃ w',
    store utc_epoch_seconds store_only sample_db (Blob hello) sample_stored
    = (Ok PyNone, mkobject (BlobC hello) (Some hello_id), w')
    ∧ fs w' = fs sample_stored.
Proof.
  destruct (store_again utc_epoch_seconds store_only (py "/repo/.git/objects")
              (Blob hello) hello sample_stored (py "tmp_obj_AAAAAA")
              (generate_temp_name sample_stored).2 sample_db_plain eq_refl)
    as (w' & Hrun & Hfs); try (vm_compute; reflexivity).
  exists w'. split; [|exact Hfs].
  unfold sample_db. rewrite Hrun. reflexivity.
Defined.

(** ** What [write_object] leaves alone *)

Lemma confined_write_object_keys zlib_compress dir db id content :
  ends_plain db → is_content_id id →
  confined dir (write_keys (resolve_in dir db) id)
    (write_object zlib_compress (mkDatabase db) id content).
Proof.
  intros Hdb Hid.
  destruct (write_object_paths db id Hdb Hid) as (Hobj & Hdir & Hplain).
  unfold write_object. cbn [Database_pathname]. rewrite Hdir, Hobj.
  assert (Hne : db ≠ []) by by apply ends_plain_nonempty.
  set (D := resolve_in dir db).
  assert (Kdir : write_keys D id (resolve_in dir (db ++ sep :: take 2 id))).
  { left. by apply resolve_in_app. }
  assert (Kobj : write_keys D id
            (resolve_in dir (db ++ sep :: take 2 id ++ sep :: drop 2 id))).
  { right; left. rewrite resolve_in_app by done. by rewrite <- app_assoc. }
  apply (confined_bind_post _ _
           (fun name => ∃ suffix, name = py "tmp_obj_" ++ suffix)).
  { apply confined_generate_temp_name. }
  { intros w a w' _ H. by destruct (temp_name_facts _ _ _ H) as (_ & _ & ? & _). }
  intros name [suffix ->].
  assert (Ktmp : write_keys D id
            (resolve_in dir (join (db ++ sep :: take 2 id)
                               [py "tmp_obj_" ++ suffix]))).
  { right; right. exists suffix.
    rewrite join_plain1 by (done || discriminate).
    rewrite <- app_assoc, resolve_in_app by done. by rewrite <- app_assoc. }
  apply (confined_bind_post _ _
           (fun f => f = None
                     ∨ f = Some (resolve_in dir (join (db ++ sep :: take 2 id)
                                                   [py "tmp_obj_" ++ suffix])))).
  { apply confined_try.
    - apply confined_bind; [by apply confined_open_append|].
      intros h. apply confined_ret.
    - intros []; try apply confined_ret.
      apply confined_bind; [by apply confined_mkdir|]. intros _.
      apply confined_bind; [by apply confined_open_append|].
      intros h. apply confined_ret. }
  { intros w f w' <- H. by apply try_open_handle in H. }
  intros f Hf.
  apply (confined_bind_post _ _
           (fun h => h = resolve_in dir (join (db ++ sep :: take 2 id)
                                           [py "tmp_obj_" ++ suffix]))).
  { destruct f; [apply confined_ret|apply confined_raise]. }
  { intros w h w' _. destruct Hf as [-> | ->]; [discriminate|].
    intros H. apply (f_equal fst) in H. cbn [fst read_local] in H.
    unfold mret, M_ret in H. cbn [fst] in H. congruence. }
  intros h ->. apply confined_bind; [by apply confined_file_write|].
  intros _. apply confined_bind; [apply confined_ret|].
  intros _. by apply confined_rename.
Qed.

Lemma content_id_parts id1 id2 :
  is_content_id id1 → is_content_id id2 →
  take 2 id1 ++ sep :: drop 2 id1 = take 2 id2 ++ sep :: drop 2 id2 →
  id1 = id2.
Proof.
  intros (a0 & a1 & a2 & ra & -> & _)%content_id_split
         (b0 & b1 & b2 & rb & -> & _)%content_id_split.
  cbn [take drop app]. congruence.
Qed.

(** X10. Writing one object never touches the file of another: whatever
    the outcome of [write_object] for [id], the object path of every other
    content id holds afterwards what it held before. *)
Theorem write_object_other_objects zlib_compress db id id' content w :
  ends_plain db → is_content_id id → is_content_id id' → id' ≠ id →
  let self := mkDatabase db in
  let w' := (write_object zlib_compress self id content w).2 in
  fs w' !! object_key w self id' = fs w !! object_key w self id'.
Proof.
  intros Hdb Hid Hid' Hne self w'.
  destruct (write_object zlib_compress self id content w) as [r w1] eqn:E.
  destruct (confined_write_object_keys zlib_compress (cwd w) db id content
              Hdb Hid w r w1 eq_refl E) as [_ Hkeep].
  apply Hkeep. clear Hkeep E.
  destruct (write_object_keys w db id' [] Hdb Hid')
    as (_ & Kobj & _); [by intros ?%elem_of_nil|].
  fold self in Kobj. rewrite Kobj. fold (resolve w db).
  destruct (content_id_split id Hid) as (c0 & c1 & c2 & rest & Hq & _).
  destruct (content_id_split id' Hid')
    as (c0' & c1' & c2' & rest' & Hq' & _ & _ & Hc2' & _).
  intros [H|[H|[suffix H]]].
  - rewrite <- app_assoc in H. apply app_inv_head in H.
    apply (f_equal length) in H. rewrite Hq, Hq' in H. cbn in H. lia.
  - rewrite <- !app_assoc in H. apply app_inv_head in H. injection H as H.
    by apply Hne, content_id_parts.
  - rewrite <- !app_assoc in H. apply app_inv_head in H. injection H as H.
    rewrite Hq, Hq' in H. cbn in H. injection H as _ _ H _.
    destruct Hid' as [_ Hhex]. rewrite Hq' in Hhex.
    apply Forall_cons in Hhex as [_ Hhex].
    apply Forall_cons in Hhex as [_ Hhex].
    apply Forall_cons in Hhex as [Hhex _]. rewrite H in Hhex.
    discriminate Hhex.
Qed.

Lemma bbb_id_content_id : is_content_id bbb_id.
Proof.
  split; [reflexivity|]. apply (bool_decide_unpack _). by vm_compute.
Qed.

Lemma write_object_other_objects_witness :
  fs (write_object store_only sample_db bbb_id (b "blob 3" ++ [x00] ++ b "bbb")
        sample_stored).2
    !! py "/repo/.git/objects/ce/013625030ba8dba906f756967f9e9ca394464a"
  = Some (File hello_frame).
Proof.
  refine (eq_trans (write_object_other_objects store_only
            (py "/repo/.git/objects") bbb_id hello_id
            (b "blob 3" ++ [x00] ++ b "bbb") sample_stored sample_db_plain
            bbb_id_content_id hello_id_content_id _) _).
  - discriminate.
  - vm_compute. reflexivity.
Defined.

(** X11. A successful [write_object] leaves no temporary file behind: the
    temporary name it generated names nothing afterwards, the file having
    been renamed onto the object path. *)
Theorem write_object_no_temp_left zlib_compress db id content w name w1 w' :
  ends_plain db → is_content_id id →
  generate_temp_name w = (Ok name, w1) →
  let self := mkDatabase db in
  write_object zlib_compress self id content w = (Ok (), w') →
  fs w' !! temp_key w self id name = None
  ∧ is_file_at w' (object_key w self id).
Proof.
  intros Hdb Hid Hgen self H.
  destruct (temp_name_facts _ _ _ Hgen) as (Hfs1 & Hcwd1 & [suffix Hname] & Hsep).
  destruct (write_object_keys w db id name Hdb Hid Hsep)
    as (_ & Kobj & Ktmp & _).
  fold self in Kobj, Ktmp.
  assert (Hto : temp_key w self id name ≠ object_key w self id).
  { rewrite Ktmp, Kobj. intros E%app_inv_head. injection E as E.
    destruct (content_id_split id Hid) as (c0 & c1 & c2 & rest & -> & _).
    destruct Hid as [_ Hhex]. rewrite Hname in E. cbn in E.
    injection E as E _. subst c2.
    apply Forall_cons in Hhex as [_ Hhex].
    apply Forall_cons in Hhex as [_ Hhex].
    by apply Forall_cons in Hhex as [Hhex _]. }
  split; [|destruct (write_object_ok _ _ _ _ _ _ H) as [old Hold];
           by exists (old ++ zlib_compress content)].
  unfold write_object in H. cbn [Database_pathname self] in H.
  set (object_path := join db [take 2 id; drop 2 id]) in *.
  rewrite bind_run, Hgen in H.
  set (temp_path := join (dirname object_path) [name]) in *.
  apply bind_ok_inv in H as (f & w2 & Htry & H).
  assert (Hcwd2 : cwd w2 = cwd w).
  { rewrite <- Hcwd1.
    eapply (confined_try (cwd w1) (fun _ => True)); [| |reflexivity|exact Htry].
    - apply confined_bind; [by apply confined_open_append|].
      intros h. apply confined_ret.
    - intros []; try apply confined_ret.
      apply confined_bind; [by apply confined_mkdir|]. intros _.
      apply confined_bind; [by apply confined_open_append|].
      intros h. apply confined_ret. }
  apply bind_ok_inv in H as (h & w3 & Hf & H).
  assert (Hw3 : w3 = w2).
  { destruct f; apply (f_equal snd) in Hf; by cbn in Hf. }
  subst w3.
  apply bind_ok_inv in H as ([] & w4 & Hwrite & H).
  assert (Hcwd4 : cwd w4 = cwd w2).
  { apply (f_equal snd) in Hwrite. cbn [snd file_write] in Hwrite. by subst w4. }
  apply bind_ok_inv in H as ([] & w5 & Hclose & H).
  assert (Hw5 : w5 = w4).
  { apply (f_equal snd) in Hclose. by cbn [snd file_close] in Hclose. }
  subst w5.
  apply os_rename_ok in H as (n & _ & Hfs & _).
  assert (R4 : ∀ p, resolve w4 p = resolve w p).
  { intros p. unfold resolve. by rewrite Hcwd4, Hcwd2. }
  rewrite !R4 in Hfs.
  change (resolve w temp_path) with (temp_key w self id name) in Hfs.
  change (resolve w object_path) with (object_key w self id) in Hfs.
  rewrite Hfs, lookup_insert_ne by done. apply lookup_delete_eq.
Qed.

Lemma write_object_no_temp_left_witness :
  fs (write_object store_only sample_db hello_id hello_frame sample_repo).2
    !! py "/repo/.git/objects/ce/tmp_obj_BCDAAA" = None.
Proof.
  refine (proj1 (write_object_no_temp_left store_only (py "/repo/.git/objects")
            hello_id hello_frame sample_repo (py "tmp_obj_BCDAAA")
            (generate_temp_name sample_repo).2 _ sample_db_plain
            hello_id_content_id _ _)); vm_compute; reflexivity.
Defined.

(** ** [Workspace.list_files] *)

Lemma strip_prefix_Some p s n : strip_prefix p s = Some n ↔ s = p ++ n.
Proof.
  revert s. induction p as [|c p IH]; intros s; cbn.
  { split; [by intros [= ->]|by intros ->]. }
  destruct s as [|d s]; [split; discriminate|].
  destruct (N.eqb_spec c d) as [->|Hne].
  - rewrite IH. split; [by intros ->|by intros [= ->]].
  - split; [discriminate|intros [= -> _]; done].
Qed.

Lemma entry_name_Some d k n :
  entry_name d k = Some n ↔ k = child_key d n ∧ n ≠ [] ∧ sep ∉ n.
Proof.
  unfold entry_name, child_key.
  destruct (strip_prefix _ k) as [n'|] eqn:E.
  - apply strip_prefix_Some in E. subst k.
    destruct (decide (n' ≠ [])) as [H1|H1];
      destruct (decide (sep ∉ n')) as [H2|H2];
      rewrite ?(bool_decide_eq_true_2 _ H1), ?(bool_decide_eq_false_2 _ H1),
              ?(bool_decide_eq_true_2 _ H2), ?(bool_decide_eq_false_2 _ H2);
      cbn [andb]; split;
      try (intros [= <-]; done);
      try (intros (->%app_inv_head & ? & ?); done);
      discriminate.
  - split; [discriminate|]. intros (-> & _).
    assert (H : strip_prefix (if endswith [sep] d then d else d ++ [sep])
                  ((if endswith [sep] d then d else d ++ [sep]) ++ n) = Some n)
      by by apply strip_prefix_Some.
    congruence.
Qed.

Lemma os_listdir_names path w names w' :
  os_listdir path w = (Ok names, w') →
  w' = w
  ∧ (∃ writable, fs w !! resolve w path = Some (Dir writable))
  ∧ ∀ n, n ∈ names ↔
         is_Some (fs w !! child_key (resolve w path) n) ∧ n ≠ [] ∧ sep ∉ n.
Proof.
  unfold os_listdir. destruct (fs w !! resolve w path) as [[wr|]|] eqn:E;
    try discriminate.
  intros H. assert (Hw : w' = w) by (apply (f_equal snd) in H; by cbn in H).
  apply (f_equal fst) in H. cbn [fst] in H. injection H as <-.
  split; [done|]. split; [by exists wr|]. intros n.
  rewrite list_elem_of_omap. split.
  - intros (k & Hk & (-> & H1 & H2)%entry_name_Some). split; [|done].
    apply list_elem_of_In, in_map_iff in Hk as ([k' v] & Hkv & Hin).
    cbn in Hkv. subst k'. apply list_elem_of_In, elem_of_map_to_list in Hin.
    by exists v.
  - intros ([v Hv] & H1 & H2). exists (child_key (resolve w path) n). split.
    + apply list_elem_of_In, in_map_iff.
      exists (child_key (resolve w path) n, v). split; [done|].
      by apply list_elem_of_In, elem_of_map_to_list.
    + by apply entry_name_Some.
Qed.

(** X12. [list_files] answers, without changing anything, the names of
    the entries of the workspace directory, in ascending order, except
    those that end in [.git] or [.DS_Store]: a name is listed exactly when
    it is an entry of the directory and has neither suffix - so any file
    whose name merely ends in [.git] is left out as well.  The call raises
    [OSError] when the directory is missing or is not a directory. *)
Theorem list_files_spec self w :
  let d := resolve w (Workspace_pathname self) in
  (∀ files w',
     list_files self w = (Ok files, w') →
     w' = w
     ∧ Sorted (key_le (fun f => f)) files
     ∧ ∀ f, f ∈ files ↔
            is_Some (fs w !! child_key d f) ∧ f ≠ [] ∧ (sep ∉ f)
            ∧ is_listed f = true)
  ∧ (fs w !! d = None → list_files self w = (Raise (OSError ENOENT), w))
  ∧ (∀ data, fs w !! d = Some (File data) →
             list_files self w = (Raise (OSError ENOTDIR), w)).
Proof.
  intros d. split; [|split].
  - intros files w' H. unfold list_files in H.
    apply bind_ok_inv in H as (names & w1 & Hls & H).
    apply os_listdir_names in Hls as (-> & _ & Hnames).
    assert (Hw : w' = w) by (apply (f_equal snd) in H; by cbn in H).
    apply (f_equal fst) in H. cbn [fst] in H. unfold mret, M_ret in H.
    cbn [fst] in H. injection H as <-.
    split; [done|]. split; [apply sorted_Sorted|].
    intros f. rewrite sorted_perm, list_elem_of_filter, Hnames.
    fold (is_listed f). fold d. rewrite Is_true_true. tauto.
  - intros E. unfold list_files, os_listdir. rewrite bind_run. fold d.
    by rewrite E.
  - intros data E. unfold list_files, os_listdir. rewrite bind_run. fold d.
    by rewrite E.
Qed.

Lemma list_files_spec_witness :
  list_files (mkWorkspace (py "/repo")) sample_repo
  = (Ok [py "b.txt"; py "hello.txt"], sample_repo)
  ∧ Sorted (key_le (fun f => f)) [py "b.txt"; py "hello.txt"].
Proof.
  assert (H : list_files (mkWorkspace (py "/repo")) sample_repo
              = (Ok [py "b.txt"; py "hello.txt"], sample_repo))
    by (vm_compute; reflexivity).
  split; [exact H|].
  exact (proj1 (proj2 (proj1 (list_files_spec (mkWorkspace (py "/repo"))
                                sample_repo) _ _ H))).
Defined.

(** ** What the object store does not touch *)

Lemma same_process_refl w : same_process w w.
Proof. by repeat split. Qed.

Lemma same_process_trans w1 w2 w3 :
  same_process w1 w2 → same_process w2 w3 → same_process w1 w3.
Proof.
  intros (?&?&?&?&?&?) (?&?&?&?&?&?). repeat split; congruence.
Qed.

Lemma same_process_set_fs f w : same_process w (set_fs f w).
Proof. by repeat split. Qed.

Lemma quiet_ret {A} (a : A) : quiet (mret a).
Proof. intros w r w' H. apply (f_equal snd) in H. cbn in H. subst. apply same_process_refl. Qed.

Lemma quiet_raise {A} e : quiet (@raise A e).
Proof. intros w r w' H. apply (f_equal snd) in H. cbn in H. subst. apply same_process_refl. Qed.

Lemma quiet_bind {A B} (m : M A) (k : A → M B) :
  quiet m → (∀ a, quiet (k a)) → quiet (m ≫= k).
Proof.
  intros Hm Hk w r w'. rewrite bind_run.
  destruct (m w) as [[a|e] w1] eqn:E; intros H.
  - eapply same_process_trans; [by eapply Hm|by eapply Hk].
  - apply (f_equal snd) in H. cbn in H. subst. by eapply Hm.
Qed.

Lemma quiet_try {A} (m : M A) handler :
  quiet m → (∀ e, quiet (handler e)) → quiet (try_except_OSError m handler).
Proof.
  intros Hm Hh w r w'. unfold try_except_OSError.
  destruct (m w) as [[a|e] w1] eqn:E.
  - intros H. apply (f_equal snd) in H. cbn in H. subst. by eapply Hm.
  - pose proof (Hm _ _ _ E) as H1.
    destruct e as [e| | | | | |];
      try (intros H; apply (f_equal snd) in H; cbn in H; by subst).
    intros H. eapply same_process_trans; [exact H1|by eapply Hh].
Qed.

Lemma quiet_mkdir path : quiet (os_mkdir path).
Proof.
  intros w r w'. unfold os_mkdir.
  destruct (parent_of w _) as [[]|]; try destruct (fs w !! _);
    intros H; apply (f_equal snd) in H; cbn [snd] in H; subst;
    (apply same_process_refl || apply same_process_set_fs).
Qed.

Lemma quiet_open_append path : quiet (open_append path).
Proof.
  intros w r w'. unfold open_append.
  destruct (parent_of w _) as [[]|]; try destruct (fs w !! _) as [[]|];
    intros H; apply (f_equal snd) in H; cbn [snd] in H; subst;
    (apply same_process_refl || apply same_process_set_fs).
Qed.

Lemma quiet_file_write f data : quiet (file_write f data).
Proof.
  intros w r w' H. apply (f_equal snd) in H. cbn [snd file_write] in H.
  subst. apply same_process_set_fs.
Qed.

Lemma quiet_rename src dst : quiet (os_rename src dst).
Proof.
  intros w r w'. unfold os_rename.
  destruct (parent_of w (resolve w src)) as [ws|];
    [|intros H; apply (f_equal snd) in H; cbn in H; subst; apply same_process_refl].
  destruct (fs w !! resolve w src) as [n|];
    [|intros H; apply (f_equal snd) in H; cbn in H; subst; apply same_process_refl].
  destruct (parent_of w (resolve w dst)) as [wd|];
    [|intros H; apply (f_equal snd) in H; cbn in H; subst; apply same_process_refl].
  destruct (negb (ws && wd));
    [intros H; apply (f_equal snd) in H; cbn in H; subst; apply same_process_refl|].
  destruct n, (fs w !! resolve w dst) as [[]|];
    intros H; apply (f_equal snd) in H; cbn [snd] in H; subst;
    (apply same_process_refl || apply same_process_set_fs).
Qed.

Lemma quiet_generate_temp_name : quiet generate_temp_name.
Proof.
  intros w r w'. destruct (generate_temp_name_run w) as [suffix ->].
  intros H. apply (f_equal snd) in H. cbn [snd] in H. subst. by repeat split.
Qed.

Lemma quiet_write_object zlib_compress self id content :
  quiet (write_object zlib_compress self id content).
Proof.
  unfold write_object.
  apply quiet_bind; [apply quiet_generate_temp_name|]. intros name.
  apply quiet_bind.
  { apply quiet_try.
    - apply quiet_bind; [apply quiet_open_append|]. intros h. apply quiet_ret.
    - intros []; try apply quiet_ret.
      apply quiet_bind; [apply quiet_mkdir|]. intros _.
      apply quiet_bind; [apply quiet_open_append|]. intros h. apply quiet_ret. }
  intros f. apply quiet_bind.
  { destruct f; [apply quiet_ret|apply quiet_raise]. }
  intros h. apply quiet_bind; [apply quiet_file_write|].
  intros _. apply quiet_bind; [apply quiet_ret|].
  intros _. apply quiet_rename.
Qed.

Lemma quiet_get_id object : quiet (get_id object).
Proof. unfold get_id. destruct (id_attr object); [apply quiet_ret|apply quiet_raise]. Qed.

Lemma quiet_read_bytes path : quiet (read_bytes path).
Proof.
  intros w r w'. unfold read_bytes.
  destruct (fs w !! _) as [[]|]; intros H; apply (f_equal snd) in H;
    cbn in H; subst; apply same_process_refl.
Qed.

Lemma quiet_list_files self : quiet (list_files self).
Proof.
  apply quiet_bind; [|intros names; apply quiet_ret].
  intros w r w'. unfold os_listdir.
  destruct (fs w !! _) as [[]|]; intros H; apply (f_equal snd) in H;
    cbn in H; subst; apply same_process_refl.
Qed.

Section QuietStore.
Variable epoch_seconds : datetime → Z.
Variable zlib_compress : bytes → bytes.

Lemma quiet_store_then self object :
  quiet (store_then epoch_seconds zlib_compress self object).
Proof.
  intros w r w'. unfold store_then, store.
  destruct (serialize epoch_seconds object) as [data|e];
    [|intros H; apply (f_equal snd) in H; cbn in H; subst; apply same_process_refl].
  rewrite frame_eq.
  destruct (write_object _ _ _ _ _) as [[[]|e] w1] eqn:E;
    intros H; apply (f_equal snd) in H; cbn in H; subst;
    by eapply quiet_write_object.
Qed.

Lemma quiet_store_files workspace database files entries :
  quiet (store_files epoch_seconds zlib_compress workspace database
           files entries).
Proof.
  revert entries. induction files as [|file rest IH]; intros entries;
    cbn [store_files]; [apply quiet_ret|].
  apply quiet_bind; [apply quiet_read_bytes|]. intros data.
  apply quiet_bind; [apply quiet_store_then|]. intros blob.
  apply quiet_bind; [apply quiet_get_id|]. intros blob_id. apply IH.
Qed.

End QuietStore.

(** X13. [store] is silent: whatever its outcome, it has read nothing from
    the standard input, written nothing to the standard streams, and left
    the working directory and the environment as they were. *)
Theorem store_quiet epoch_seconds zlib_compress self object w :
  same_process w (store epoch_seconds zlib_compress self object w).2.
Proof.
  destruct (store_then epoch_seconds zlib_compress self object w)
    as [r w'] eqn:E.
  pose proof (quiet_store_then _ _ _ _ _ _ _ E) as H.
  unfold store_then in E.
  destruct (store epoch_seconds zlib_compress self object w) as [[r0 o] w0].
  cbn [snd]. destruct r0; injection E as _ <-; exact H.
Qed.

(** ** [commit] without an identity *)

Lemma bind_inv {A B} (m : M A) (k : A → M B) w r w' :
  (m ≫= k) w = (r, w') →
  (∃ e, m w = (Raise e, w') ∧ r = Raise e)
  ∨ (∃ a w1, m w = (Ok a, w1) ∧ k a w1 = (r, w')).
Proof.
  rewrite bind_run. destruct (m w) as [[a|e] w1]; intros H.
  - right. eauto.
  - left. exists e. apply (f_equal fst) in H as H1.
    apply (f_equal snd) in H. cbn in H, H1. by subst.
Qed.

Lemma environ_get_run key w :
  environ_get key w
  = (match environ w !! key with
     | Some v => Ok v
     | None => Raise (KeyError key)
     end, w).
Proof. unfold environ_get. by destruct (environ w !! key). Qed.

(** X14. When [GIT_AUTHOR_NAME] or [GIT_AUTHOR_EMAIL] is not in the
    environment, [commit] raises; the head file holds afterwards what it
    held before, nothing has been read from the standard input and nothing
    has been printed. *)
Theorem commit_missing_identity epoch_seconds zlib_compress w :
  environ w !! py "GIT_AUTHOR_NAME" = None
  ∨ environ w !! py "GIT_AUTHOR_EMAIL" = None →
  let r := commit epoch_seconds zlib_compress w in
  let git_path := join (abspath (cwd w) (cwd w)) [py ".git"] in
  let HEAD := resolve w (join git_path [py "HEAD"]) in
  (∃ e, r.1 = Raise e)
  ∧ fs r.2 !! HEAD = fs w !! HEAD
  ∧ same_process w r.2.
Proof.
  intros Henv r git_path HEAD.
  assert (Hgit : ends_plain git_path) by apply ends_plain_git.
  assert (Hgne : git_path ≠ []) by by apply ends_plain_nonempty.
  assert (Hdbp : join git_path [py "objects"] = git_path ++ py "/objects")
    by by apply join_plain1.
  assert (Hhp : join git_path [py "HEAD"] = git_path ++ py "/HEAD")
    by by apply join_plain1.
  assert (Hdb : ends_plain (join git_path [py "objects"])).
  { rewrite Hdbp. apply ends_plain_app. by exists (py "/object"), 115. }
  set (K := below (resolve_in (cwd w) (join git_path [py "objects"]))).
  assert (HK : ¬ K HEAD).
  { unfold K, HEAD, resolve. rewrite Hdbp, Hhp, !resolve_in_app by done.
    apply below_objects_not_HEAD. }
  assert (Hgoal : ∀ res w',
            commit epoch_seconds zlib_compress w = (res, w') →
            (∃ e, res = Raise e)
            ∧ fs w' !! HEAD = fs w !! HEAD ∧ same_process w w').
  2:{ destruct (commit epoch_seconds zlib_compress w) as [res w'] eqn:E.
      by apply Hgoal. }
  intros res w' H. unfold commit in H.
  apply bind_inv in H as [(e & E & _)|(c & w0 & Hc & H)]; [discriminate E|].
  injection Hc as <- <-. cbv zeta in H. fold git_path in H.
  assert (R0 : confined_run (cwd w) K w w) by apply confined_run_refl.
  assert (S0 : same_process w w) by apply same_process_refl.
  apply bind_inv in H as [(e & E & ->)|(files & w1 & E & H)].
  { pose proof (confined_step _ K _ _ _ _ _ (confined_list_files _ _ _) R0 E) as R.
    pose proof (quiet_list_files _ _ _ _ E) as S.
    split; [eauto|]. split; [by apply R|done]. }
  pose proof (confined_step _ K _ _ _ _ _ (confined_list_files _ _ _) R0 E) as R1.
  pose proof (same_process_trans _ _ _ S0 (quiet_list_files _ _ _ _ E)) as S1.
  clear E. apply bind_inv in H as [(e & E & ->)|(entries & w2 & E & H)].
  { pose proof (confined_step _ K _ _ _ _ _
      (confined_store_files epoch_seconds zlib_compress _ _ _ _ _ Hdb) R1 E) as R.
    pose proof (same_process_trans _ _ _ S1
      (quiet_store_files _ _ _ _ _ _ _ _ _ E)) as S.
    split; [eauto|]. split; [by apply R|done]. }
  pose proof (confined_step _ K _ _ _ _ _
    (confined_store_files epoch_seconds zlib_compress _ _ _ _ _ Hdb) R1 E) as R2.
  pose proof (same_process_trans _ _ _ S1
    (quiet_store_files _ _ _ _ _ _ _ _ _ E)) as S2.
  clear E. apply bind_inv in H as [(e & E & ->)|(tree & w3 & E & H)].
  { pose proof (confined_step _ K _ _ _ _ _
      (confined_store_then epoch_seconds zlib_compress _ _ _ Hdb) R2 E) as R.
    pose proof (same_process_trans _ _ _ S2
      (quiet_store_then _ _ _ _ _ _ _ E)) as S.
    split; [eauto|]. split; [by apply R|done]. }
  pose proof (confined_step _ K _ _ _ _ _
    (confined_store_then epoch_seconds zlib_compress _ _ _ Hdb) R2 E) as R3.
  pose proof (same_process_trans _ _ _ S2
    (quiet_store_then _ _ _ _ _ _ _ E)) as S3.
  clear E.
  assert (Henv3 : environ w3 = environ w) by apply S3.
  rewrite bind_run, environ_get_run, Henv3 in H.
  destruct (environ w !! py "GIT_AUTHOR_NAME") as [name|] eqn:Hn.
  2:{ injection H as <- <-. split; [eauto|]. split; [by apply R3|done]. }
  rewrite bind_run, environ_get_run, Henv3 in H.
  destruct Henv as [Henv|Henv]; [discriminate Henv|]. rewrite Henv in H.
  injection H as <- <-. split; [eauto|]. split; [by apply R3|done].
Qed.

Lemma commit_missing_identity_witness :
  (commit utc_epoch_seconds store_only
     (mkworld (fs sample_repo) (py "/repo") ∅ [py "init" ++ [10]] [] []
              (clock sample_repo) [])).1
  = Raise (KeyError (py "GIT_AUTHOR_NAME")).
Proof.
  destruct (commit_missing_identity utc_epoch_seconds store_only
     (mkworld (fs sample_repo) (py "/repo") ∅ [py "init" ++ [10]] [] []
              (clock sample_repo) [])) as ([e He] & _ & _).
  - left. reflexivity.
  - vm_compute. reflexivity.
Defined.

(** ** A successful [commit], step by step *)

Lemma get_id_ok object id w w' :
  get_id object w = (Ok id, w') → id_attr object = Some id ∧ w' = w.
Proof.
  unfold get_id. destruct (id_attr object) as [i|]; [|discriminate].
  intros H. apply (f_equal snd) in H as Hw. apply (f_equal fst) in H.
  cbn in H, Hw. unfold mret, M_ret in H. cbn in H. split; congruence.
Qed.

Lemma environ_get_ok key v w w' :
  environ_get key w = (Ok v, w') → environ w !! key = Some v ∧ w' = w.
Proof.
  rewrite environ_get_run. destruct (environ w !! key); [|discriminate].
  intros H. apply (f_equal snd) in H as Hw. apply (f_equal fst) in H.
  cbn in H, Hw. split; congruence.
Qed.

(** The statements of a successful [commit], one after the other. *)
Lemma commit_success_run epoch_seconds zlib_compress w w' :
  commit epoch_seconds zlib_compress w = (Ok (), w') →
  let root_path := abspath (cwd w) (cwd w) in
  let git_path := join root_path [py ".git"] in
  let workspace := mkWorkspace root_path in
  let database := mkDatabase (join git_path [py "objects"]) in
  ∃ files entries w2 tree w3 name email message w4 commit_obj w5 file w6
    tree_id commit_id,
    list_files workspace w = (Ok files, w)
    ∧ store_files epoch_seconds zlib_compress workspace database files [] w
      = (Ok entries, w2)
    ∧ store_then epoch_seconds zlib_compress database (Tree entries) w2
      = (Ok tree, w3)
    ∧ environ w3 !! py "GIT_AUTHOR_NAME" = Some name
    ∧ environ w3 !! py "GIT_AUTHOR_EMAIL" = Some email
    ∧ stdin_readline w3 = (Ok message, w4)
    ∧ id_attr tree = Some tree_id
    ∧ store_then epoch_seconds zlib_compress database
        (Commit tree_id (mkAuthor name email (now_of w3)) message) w4
      = (Ok commit_obj, w5)
    ∧ open_append (join git_path [py "HEAD"]) w5 = (Ok file, w6)
    ∧ id_attr commit_obj = Some commit_id
    ∧ is_content_id commit_id
    ∧ w' = (print (py "[(root-commit) " ++ commit_id ++ py "] " ++ message)
              (file_write file (map byte_of_N commit_id) w6).2).2.
Proof.
  intros H root_path git_path workspace database. unfold commit in H.
  apply bind_ok_inv in H as (c & w0 & Hc & H). injection Hc as <- <-.
  cbv zeta in H. fold root_path git_path workspace database in H.
  apply bind_ok_inv in H as (files & w1 & E1 & H).
  assert (Hw1 : w1 = w).
  { unfold list_files in E1. apply bind_ok_inv in E1 as (names & wa & Ea & Eb).
    apply os_listdir_names in Ea as (-> & _).
    apply (f_equal snd) in Eb. by cbn in Eb. }
  subst w1.
  apply bind_ok_inv in H as (entries & w2 & E2 & H).
  apply bind_ok_inv in H as (tree & w3 & E3 & H).
  apply bind_ok_inv in H as (name & wa & E4 & H).
  apply environ_get_ok in E4 as [E4 ->].
  apply bind_ok_inv in H as (email & wa & E5 & H).
  apply environ_get_ok in E5 as [E5 ->].
  apply bind_ok_inv in H as (now & wa & E6 & H).
  assert (Hnow : now = now_of w3 ∧ wa = w3).
  { unfold datetime_now in E6. by injection E6 as <- <-. }
  destruct Hnow as [-> ->]. clear E6.
  apply bind_ok_inv in H as (message & w4 & E7 & H).
  apply bind_ok_inv in H as (tree_id & wa & E8 & H).
  apply get_id_ok in E8 as [E8 ->].
  apply bind_ok_inv in H as (commit_obj & w5 & E9 & H).
  apply bind_ok_inv in H as (file & w6 & E10 & H).
  apply bind_ok_inv in H as (commit_id & wa & E11 & H).
  apply get_id_ok in E11 as [E11 ->].
  assert (Hcid : is_content_id commit_id).
  { destruct (store_then_ok _ _ _ _ _ _ _ E9) as (data & _ & -> & _).
    cbn [id_attr] in E11. injection E11 as <-.
    apply sha1_hexdigest_content_id. }
  apply bind_ok_inv in H as (text & wa & E12 & H).
  unfold lift in E12. rewrite (content_id_encode _ Hcid) in E12.
  injection E12 as <- <-.
  apply bind_ok_inv in H as ([] & w7 & E13 & H).
  apply bind_ok_inv in H as ([] & wa & E14 & H).
  assert (Hw7 : wa = w7) by (apply (f_equal snd) in E14; by cbn in E14).
  subst wa. clear E14.
  apply bind_ok_inv in H as (commit_id' & wa & E15 & H).
  apply get_id_ok in E15 as [E15 ->].
  assert (commit_id' = commit_id) by congruence. subst commit_id'.
  exists files, entries, w2, tree, w3, name, email, message, w4, commit_obj,
    w5, file, w6, tree_id, commit_id.
  repeat (split; [done|]).
  rewrite E13. cbn [snd]. by rewrite H.
Qed.

Lemma stdin_readline_run w :
  stdin_readline w
  = (Ok (hd [] (stdin w)),
     mkworld (fs w) (cwd w) (environ w) (tail (stdin w)) (stdout w) (stderr w)
             (clock w) (entropy w)).
Proof. unfold stdin_readline. by destruct w as [? ? ? [|] ? ? ? ?]. Qed.

(** X15. What a successful [commit] records and reports: the author is the
    pair of [GIT_AUTHOR_NAME] and [GIT_AUTHOR_EMAIL] with the current
    wall-clock time (no time zone), the message is the first line of the
    standard input (the empty string when there is none), which is
    consumed; the one line printed is
    ["[(root-commit) <id>] <message>"], with the id of that very commit
    object; nothing goes to the standard error stream. *)
Theorem commit_record epoch_seconds zlib_compress w w' :
  commit epoch_seconds zlib_compress w = (Ok (), w') →
  ∃ name email tree_id data,
    environ w !! py "GIT_AUTHOR_NAME" = Some name
    ∧ environ w !! py "GIT_AUTHOR_EMAIL" = Some email
    ∧ let message := hd [] (stdin w) in
      let author := mkAuthor name email (now_of w) in
      Commit_serialize epoch_seconds tree_id author message = Ok data
      ∧ let id := sha1_hexdigest
                    (frame_of (Commit tree_id author message) data) in
        stdout w'
        = stdout w ++ py "[(root-commit) " ++ id ++ py "] " ++ message ++ [10]
        ∧ stdin w' = tail (stdin w)
        ∧ stderr w' = stderr w.
Proof.
  intros H.
  destruct (commit_success_run _ _ _ _ H)
    as (files & entries & w2 & tree & w3 & name & email & message & w4
        & commit_obj & w5 & file & w6 & tree_id & commit_id
        & E1 & E2 & E3 & En & Ee & E7 & Et & E9 & E10 & Ec & Hcid & ->).
  pose proof (quiet_store_files _ _ _ _ _ _ _ _ _ E2) as S2.
  pose proof (same_process_trans _ _ _ S2 (quiet_store_then _ _ _ _ _ _ _ E3))
    as (Hc3 & Hen3 & Hin3 & Hout3 & Herr3 & Hck3).
  rewrite stdin_readline_run in E7. injection E7 as Hm <-.
  pose proof (quiet_store_then _ _ _ _ _ _ _ E9)
    as (Hc5 & Hen5 & Hin5 & Hout5 & Herr5 & Hck5).
  pose proof (quiet_open_append _ _ _ _ E10)
    as (Hc6 & Hen6 & Hin6 & Hout6 & Herr6 & Hck6).
  cbn [stdin stdout stderr] in Hin5, Hout5, Herr5.
  destruct (store_then_ok _ _ _ _ _ _ _ E9) as (data & Hser & -> & _).
  cbn [id_attr] in Ec. injection Ec as <-.
  assert (Hnow : now_of w3 = now_of w) by (unfold now_of; by rewrite Hck3).
  rewrite Hnow in Hser. rewrite Hnow. rewrite Hin3 in Hm. subst message.
  exists name, email, tree_id, data.
  rewrite <- Hen3. split; [done|]. split; [done|]. cbv zeta.
  split; [exact Hser|].
  cbn [print stdout_write file_write snd stdout stdin stderr set_fs].
  rewrite Hout6, Hout5, Hout3, Hin6, Hin5, Hin3, Herr6, Herr5, Herr3.
  by rewrite <- !app_assoc.
Qed.

Lemma commit_record_witness :
  stdout (commit utc_epoch_seconds store_only sample_repo).2
  = py "[(root-commit) d53aee6d5d0f473e7e23f7409e02a62647ee7d65] init"
    ++ [10; 10].
Proof.
  destruct (commit_record utc_epoch_seconds store_only sample_repo
              (commit utc_epoch_seconds store_only sample_repo).2)
    as (name & email & tree_id & data & _ & _ & _ & Hout & _).
  - vm_compute. reflexivity.
  - vm_compute. reflexivity.
Defined.

(** ** Every id a commit mentions names a stored object *)

Lemma other_object_not_written D id id' :
  is_content_id id → is_content_id id' → id' ≠ id →
  ¬ write_keys D id ((D ++ sep :: take 2 id') ++ sep :: drop 2 id').
Proof.
  intros Hid Hid' Hne.
  destruct (content_id_split id Hid) as (c0 & c1 & c2 & rest & Hq & _).
  destruct (content_id_split id' Hid')
    as (c0' & c1' & c2' & rest' & Hq' & _ & _ & Hc2' & _).
  intros [H|[H|[suffix H]]].
  - rewrite <- app_assoc in H. apply app_inv_head in H.
    apply (f_equal length) in H. rewrite Hq, Hq' in H. cbn in H. lia.
  - rewrite <- !app_assoc in H. apply app_inv_head in H. injection H as H.
    by apply Hne, content_id_parts.
  - rewrite <- !app_assoc in H. apply app_inv_head in H. injection H as H.
    rewrite Hq, Hq' in H. cbn in H. injection H as _ _ H _.
    destruct Hid' as [_ Hhex]. rewrite Hq' in Hhex.
    apply Forall_cons in Hhex as [_ Hhex].
    apply Forall_cons in Hhex as [_ Hhex].
    apply Forall_cons in Hhex as [Hhex _]. rewrite H in Hhex.
    discriminate Hhex.
Qed.

Lemma object_key_cwd w0 w self id :
  cwd w = cwd w0 → object_key w self id = object_key w0 self id.
Proof. intros H. unfold object_key, resolve. by rewrite H. Qed.

Section StoredObjects.
Variable epoch_seconds : datetime → Z.
Variable zlib_compress : bytes → bytes.
Variable w0 : world.
Variable db : pystr.
Hypothesis Hdb : ends_plain db.

(** A successful [store] puts a file at the object path of the id it
    assigns and keeps the object files that are there. *)
Lemma store_then_objects object w object' w' :
  cwd w = cwd w0 →
  store_then epoch_seconds zlib_compress (mkDatabase db) object w
  = (Ok object', w') →
  cwd w' = cwd w0
  ∧ (∃ id, id_attr object' = Some id ∧ is_content_id id
           ∧ is_file_at w' (object_key w0 (mkDatabase db) id))
  ∧ ∀ id', is_content_id id' →
           is_file_at w (object_key w0 (mkDatabase db) id') →
           is_file_at w' (object_key w0 (mkDatabase db) id').
Proof.
  intros Hcwd H.
  destruct (store_then_ok _ _ _ _ _ _ _ H) as (data & Hser & -> & Hw).
  set (id := sha1_hexdigest (frame_of object data)) in *.
  assert (Hid : is_content_id id) by apply sha1_hexdigest_content_id.
  destruct (confined_write_object_keys zlib_compress (cwd w) db id
              (frame_of object data) Hdb Hid w _ w' eq_refl Hw)
    as [Hcwd' Hkeep].
  assert (Hnew : is_file_at w' (object_key w0 (mkDatabase db) id)).
  { destruct (write_object_ok _ _ _ _ _ _ Hw) as [old Hold].
    rewrite <- (object_key_cwd w0 w) by done. by eexists. }
  split; [congruence|]. split; [by exists id|].
  intros id' Hid' Hfile.
  destruct (decide (id' = id)) as [->|Hne]; [exact Hnew|].
  destruct Hfile as [d Hd]. exists d. rewrite <- Hd. apply Hkeep.
  destruct (write_object_keys w0 db id' [] Hdb Hid')
    as (_ & -> & _); [by intros ?%elem_of_nil|].
  unfold resolve. rewrite <- Hcwd.
  by apply other_object_not_written.
Qed.

Lemma store_files_objects workspace files entries w entries' w' :
  cwd w = cwd w0 →
  store_files epoch_seconds zlib_compress workspace (mkDatabase db)
    files entries w = (Ok entries', w') →
  Forall (fun e => is_content_id (Entry_id e)
                   ∧ is_file_at w (object_key w0 (mkDatabase db) (Entry_id e)))
         entries →
  cwd w' = cwd w0
  ∧ map Entry_name entries' = map Entry_name entries ++ files
  ∧ Forall (fun e => is_content_id (Entry_id e)
                     ∧ is_file_at w' (object_key w0 (mkDatabase db) (Entry_id e)))
           entries'
  ∧ ∀ id', is_content_id id' →
           is_file_at w (object_key w0 (mkDatabase db) id') →
           is_file_at w' (object_key w0 (mkDatabase db) id').
Proof.
  revert entries w. induction files as [|file rest IH]; intros entries w Hcwd H Hall;
    cbn [store_files] in H.
  { injection H as <- <-. rewrite app_nil_r. done. }
  apply bind_ok_inv in H as (data & w1 & E1 & H).
  assert (Hw1 : w1 = w).
  { apply (f_equal snd) in E1. cbn [snd] in E1. rewrite <- E1.
    unfold read_file, read_bytes. by destruct (fs w !! _) as [[]|]. }
  subst w1.
  apply bind_ok_inv in H as (blob & w2 & E2 & H).
  destruct (store_then_objects _ _ _ _ Hcwd E2)
    as (Hcwd2 & (id & Hid & Hcid & Hfile) & Hkeep2).
  apply bind_ok_inv in H as (blob_id & w3 & E3 & H).
  apply get_id_ok in E3 as [E3 ->].
  assert (blob_id = id) by congruence. subst blob_id.
  destruct (IH _ _ Hcwd2 H) as (Hcwd' & Hnames & Hall' & Hkeep').
  { apply Forall_app. split.
    - eapply Forall_impl; [exact Hall|]. intros e [? ?]. split; [done|].
      by apply Hkeep2.
    - apply Forall_singleton. by split. }
  split; [done|]. split.
  { rewrite Hnames, map_app. cbn. by rewrite <- app_assoc. }
  split; [done|]. intros id' Hid' Hf. by apply Hkeep', Hkeep2.
Qed.

End StoredObjects.

(** X16. After a successful [commit] nothing dangles: the commit object is
    in the store, the tree whose id its [tree] line gives is in the store,
    and so is the blob of every entry of that tree; the entries are the
    files [list_files] reported, in that order. *)
Theorem commit_referential_integrity epoch_seconds zlib_compress w w' :
  commit epoch_seconds zlib_compress w = (Ok (), w') →
  let root_path := abspath (cwd w) (cwd w) in
  let database := mkDatabase (join (join root_path [py ".git"]) [py "objects"]) in
  ∃ entries tree_data author message commit_data,
    list_files (mkWorkspace root_path) w = (Ok (map Entry_name entries), w)
    ∧ Tree_serialize entries = Ok tree_data
    ∧ let tree_id := sha1_hexdigest (frame_of (Tree entries) tree_data) in
      Commit_serialize epoch_seconds tree_id author message = Ok commit_data
      ∧ let commit_id :=
          sha1_hexdigest (frame_of (Commit tree_id author message) commit_data) in
        is_file_at w' (object_key w database commit_id)
        ∧ is_file_at w' (object_key w database tree_id)
        ∧ Forall (fun e => is_content_id (Entry_id e)
                           ∧ is_file_at w' (object_key w database (Entry_id e)))
                 entries.
Proof.
  intros H root_path database.
  destruct (commit_success_run _ _ _ _ H)
    as (files & entries & w2 & tree & w3 & name & email & message & w4
        & commit_obj & w5 & file & w6 & tree_id & commit_id
        & E1 & E2 & E3 & En & Ee & E7 & Et & E9 & E10 & Ec & Hcid & ->).
  fold root_path in E1, E2, E3, E9, E10.
  set (git_path := join root_path [py ".git"]) in *.
  fold database in E2, E3, E9.
  assert (Hgit : ends_plain git_path) by apply ends_plain_git.
  assert (Hgne : git_path ≠ []) by by apply ends_plain_nonempty.
  assert (Hdbp : join git_path [py "objects"] = git_path ++ py "/objects")
    by by apply join_plain1.
  assert (Hhp : join git_path [py "HEAD"] = git_path ++ py "/HEAD")
    by by apply join_plain1.
  assert (Hdb : ends_plain (join git_path [py "objects"])).
  { rewrite Hdbp. apply ends_plain_app. by exists (py "/object"), 115. }
  destruct (store_files_objects epoch_seconds zlib_compress w _ Hdb
              _ _ _ _ _ _ eq_refl E2 (Forall_nil_2 _))
    as (Hc2 & Hnames & Hall2 & _).
  destruct (store_then_objects epoch_seconds zlib_compress w _ Hdb
              _ _ _ _ Hc2 E3)
    as (Hc3 & (tid & Htid & Htcid & Htfile) & Hkeep3).
  assert (tid = tree_id) by congruence. subst tid.
  rewrite stdin_readline_run in E7. injection E7 as _ <-.
  set (w4 := mkworld _ _ _ _ _ _ _ _) in E9.
  assert (Hc4 : cwd w4 = cwd w) by exact Hc3.
  assert (H34 : ∀ k, is_file_at w3 k → is_file_at w4 k) by (intros k Hk; exact Hk).
  destruct (store_then_objects epoch_seconds zlib_compress w _ Hdb
              _ _ _ _ Hc4 E9)
    as (Hc5 & (cid & Hcid' & _ & Hcfile) & Hkeep5).
  assert (cid = commit_id) by congruence. subst cid.
  (* the head file is not an object *)
  set (HEAD := resolve w (join git_path [py "HEAD"])).
  assert (Hfile : file = HEAD).
  { apply open_append_handle in E10 as [-> _]. unfold HEAD, resolve.
    by rewrite Hc5. }
  assert (Hlast : ∀ id, is_content_id id →
            is_file_at w5 (object_key w database id) →
            is_file_at
              (print (py "[(root-commit) " ++ commit_id ++ py "] " ++ message)
                 (file_write file (map byte_of_N commit_id) w6).2).2
              (object_key w database id)).
  { intros id Hid [d Hd]. exists d. rewrite <- Hd.
    assert (Hne : object_key w database id ≠ HEAD).
    { destruct (write_object_keys w _ id [] Hdb Hid)
        as (_ & Kobj & _); [by intros ?%elem_of_nil|].
      fold database in Kobj. rewrite Kobj. unfold HEAD, resolve.
      rewrite Hdbp, Hhp, !resolve_in_app by done. intros Heq.
      apply (below_objects_not_HEAD (resolve_in (cwd w) git_path)).
      rewrite <- Heq. exists ((sep :: take 2 id) ++ sep :: drop 2 id).
      split; [done|]. by rewrite <- !app_assoc. }
    cbn [print stdout_write file_write snd fs set_fs].
    rewrite Hfile, lookup_insert_ne by done.
    destruct (confined_open_append (cwd w5) (fun k => k = HEAD)
                (join git_path [py "HEAD"])) with (w := w5) (r := Ok file)
                (w' := w6) as [_ Hkeep]; [|done|done|by apply Hkeep].
    unfold HEAD, resolve. by rewrite Hc5. }
  destruct (store_then_ok _ _ _ _ _ _ _ E3) as (tree_data & Hts & Htree & _).
  destruct (store_then_ok _ _ _ _ _ _ _ E9) as (commit_data & Hcs & Hcobj & _).
  subst tree commit_obj. cbn [id_attr] in Et, Ec.
  injection Et as <-. injection Ec as <-.
  assert (Hnow : ∃ author, author = mkAuthor name email (now_of w3)) by eauto.
  destruct Hnow as [author Hauthor]. rewrite <- Hauthor in *.
  exists entries, tree_data, author, message, commit_data.
  cbn [map app] in Hnames. rewrite Hnames.
  split; [exact E1|]. split; [exact Hts|]. cbv zeta.
  split; [exact Hcs|].
  split; [by apply Hlast|].
  split; [by apply Hlast, Hkeep5, H34|].
  eapply Forall_impl; [exact Hall2|]. intros e [He Hf]. split; [done|].
  by apply Hlast, Hkeep5, H34, Hkeep3.
Qed.

Lemma commit_referential_integrity_witness :
  is_file_at (commit utc_epoch_seconds store_only sample_repo).2
    (py "/repo/.git/objects/d5/3aee6d5d0f473e7e23f7409e02a62647ee7d65").
Proof.
  destruct (commit_referential_integrity utc_epoch_seconds store_only
              sample_repo (commit utc_epoch_seconds store_only sample_repo).2)
    as (entries & tree_data & author & message & commit_data & _).
  - vm_compute. reflexivity.
  - eexists. vm_compute. reflexivity.
Defined.

(** ** [commit] and subdirectories *)

Lemma join2_relative c p :
  head p ≠ Some sep →
  join2 c p = (if bool_decide (c = []) || endswith [sep] c then c
               else c ++ [sep]) ++ p.
Proof.
  intros Hp. unfold join2. rewrite (startswith_sep_plain p Hp).
  destruct (_ || _); [done|]. by rewrite <- app_assoc.
Qed.

Lemma startswith_sep_false p : startswith [sep] p = false → head p ≠ Some sep.
Proof.
  destruct p as [|c p]; [done|]. rewrite startswith_sep_cons. cbn.
  intros H%bool_decide_eq_false_1. congruence.
Qed.

(** A name of the working directory is never a key below the object
    directory of the repository in that directory. *)
Lemma working_file_not_below c f :
  sep ∉ f →
  ¬ below (resolve_in c (join (join c [py ".git"]) [py "objects"]))
          (resolve_in c f).
Proof.
  intros Hf.
  assert (Hhead : head f ≠ Some sep).
  { destruct f as [|x f]; [done|]. cbn. intros [= ->]. apply Hf. by left. }
  set (P := if bool_decide (c = []) || endswith [sep] c then c else c ++ [sep]).
  assert (Hkey : resolve_in c f = P ++ f).
  { unfold resolve_in. rewrite (startswith_sep_plain f Hhead).
    cbn [join fold_left]. by apply join2_relative. }
  assert (Hgit : join c [py ".git"] = P ++ py ".git").
  { cbn [join fold_left]. by apply join2_relative. }
  assert (Hplain : ends_plain (join c [py ".git"])) by apply ends_plain_git.
  assert (Hne : join c [py ".git"] ≠ []) by by apply ends_plain_nonempty.
  rewrite join_plain1 by done. rewrite resolve_in_app by done.
  rewrite Hkey. intros (rest & _ & Heq).
  assert (Hin : sep ∈ f); [|done].
  unfold resolve_in in Heq.
  destruct (startswith [sep] (join c [py ".git"])) eqn:E.
  - rewrite Hgit, <- !app_assoc in Heq. apply app_inv_head in Heq.
    rewrite Heq. apply elem_of_app. right. apply elem_of_app. left.
    by apply (bool_decide_unpack _).
  - cbn [join fold_left] in Heq.
    rewrite join2_relative in Heq by by apply startswith_sep_false.
    fold P in Heq. rewrite <- !app_assoc in Heq. apply app_inv_head in Heq.
    rewrite Heq. rewrite !elem_of_app. right. left.
    by apply (bool_decide_unpack _).
Qed.

Lemma list_files_no_sep self w files w' f :
  list_files self w = (Ok files, w') → f ∈ files → sep ∉ f.
Proof.
  unfold list_files. intros H.
  apply bind_ok_inv in H as (names & w1 & Hls & H).
  apply os_listdir_names in Hls as (-> & _ & Hnames).
  apply (f_equal fst) in H. cbn [fst] in H. unfold mret, M_ret in H.
  cbn [fst] in H. injection H as <-.
  rewrite sorted_perm, list_elem_of_filter, Hnames. tauto.
Qed.

Lemma store_files_directory epoch_seconds zlib_compress db workspace
    files entries w f writable :
  ends_plain db →
  f ∈ files →
  ¬ below (resolve_in (cwd w) db) (resolve_in (cwd w) f) →
  fs w !! resolve_in (cwd w) f = Some (Dir writable) →
  ∃ e, (store_files epoch_seconds zlib_compress workspace (mkDatabase db)
          files entries w).1 = Raise e.
Proof.
  intros Hdb Hin HK. revert entries w Hin HK.
  induction files as [|file rest IH]; intros entries w Hin HK Hdir;
    [by apply elem_of_nil in Hin|].
  cbn [store_files]. rewrite bind_run.
  destruct (read_file workspace file w) as [[data|e] w1] eqn:E1; [|by exists e].
  assert (Hw1 : w1 = w).
  { apply (f_equal snd) in E1. cbn [snd] in E1. rewrite <- E1.
    unfold read_file, read_bytes. by destruct (fs w !! resolve w _) as [[]|]. }
  subst w1.
  apply elem_of_cons in Hin as [->|Hin].
  { unfold read_file, read_bytes, resolve in E1. cbn [join fold_left] in E1.
    by rewrite Hdir in E1. }
  rewrite bind_run.
  destruct (store_then _ _ _ _ w) as [[blob|e] w2] eqn:E2; [|by exists e].
  destruct (confined_store_then epoch_seconds zlib_compress (cwd w) db
              (Blob data) Hdb w _ w2 eq_refl E2) as [Hcwd2 Hkeep].
  rewrite bind_run.
  destruct (get_id blob w2) as [[blob_id|e] w3] eqn:E3; [|by exists e].
  apply get_id_ok in E3 as [_ ->].
  apply IH; [done|by rewrite Hcwd2|].
  rewrite Hcwd2, Hkeep; done.
Qed.

(** X17. [commit] does not descend into directories: when the working
    directory (the process' current directory, in normal form) has a
    subdirectory among the names [list_files] reports, [commit] raises -
    the directory cannot be read as a file - and the head file holds
    afterwards what it held before. *)
Theorem commit_subdirectory epoch_seconds zlib_compress w files f writable :
  abspath (cwd w) (cwd w) = cwd w →
  list_files (mkWorkspace (cwd w)) w = (Ok files, w) →
  f ∈ files →
  fs w !! resolve w f = Some (Dir writable) →
  let r := commit epoch_seconds zlib_compress w in
  let HEAD := resolve w (join (join (cwd w) [py ".git"]) [py "HEAD"]) in
  (∃ e, r.1 = Raise e) ∧ fs r.2 !! HEAD = fs w !! HEAD.
Proof.
  intros Hroot Hls Hin Hdir r HEAD.
  set (git_path := join (cwd w) [py ".git"]).
  assert (Hgit : ends_plain git_path) by apply ends_plain_git.
  assert (Hgne : git_path ≠ []) by by apply ends_plain_nonempty.
  assert (Hdbp : join git_path [py "objects"] = git_path ++ py "/objects")
    by by apply join_plain1.
  assert (Hhp : join git_path [py "HEAD"] = git_path ++ py "/HEAD")
    by by apply join_plain1.
  assert (Hdb : ends_plain (join git_path [py "objects"])).
  { rewrite Hdbp. apply ends_plain_app. by exists (py "/object"), 115. }
  assert (Hsep : sep ∉ f) by by eapply list_files_no_sep.
  set (K := below (resolve_in (cwd w) (join git_path [py "objects"]))).
  assert (HK : ¬ K HEAD).
  { unfold K, HEAD, resolve. fold git_path.
    rewrite Hdbp, Hhp, !resolve_in_app by done.
    apply below_objects_not_HEAD. }
  assert (Hrun : ∃ e w',
            commit epoch_seconds zlib_compress w = (Raise e, w')
            ∧ confined_run (cwd w) K w w').
  { unfold commit. rewrite bind_run. cbn [os_getcwd]. cbv zeta.
    rewrite Hroot. fold git_path. rewrite bind_run, Hls, bind_run.
    destruct (store_files_directory epoch_seconds zlib_compress
                (join git_path [py "objects"]) (mkWorkspace (cwd w))
                files [] w f writable Hdb Hin) as [e He].
    { by apply working_file_not_below. }
    { exact Hdir. }
    destruct (store_files _ _ _ _ files [] w) as [[?|e'] w'] eqn:E;
      [discriminate He|].
    exists e', w'. split; [done|].
    eapply (confined_store_files epoch_seconds zlib_compress); [exact Hdb| |exact E].
    done. }
  destruct Hrun as (e & w' & Hrun & [_ Hkeep]).
  unfold r. rewrite Hrun. split; [by exists e|]. by apply Hkeep.
Qed.

Lemma commit_subdirectory_witness :
  (∃ e, (commit utc_epoch_seconds store_only sample_subdir).1 = Raise e)
  ∧ fs (commit utc_epoch_seconds store_only sample_subdir).2
      !! py "/repo/.git/HEAD" = None.
Proof.
  destruct (commit_subdirectory utc_epoch_seconds store_only sample_subdir
              [py "b.txt"; py "docs"; py "hello.txt"] (py "docs") true)
    as [Hraise Hhead].
  - vm_compute. reflexivity.
  - vm_compute. reflexivity.
  - apply (bool_decide_unpack _). vm_compute. reflexivity.
  - vm_compute. reflexivity.
  - split; [exact Hraise|].
    etransitivity; [exact Hhead|]. vm_compute. reflexivity.
Defined.

(** * The commit recorded in the head file *)

(** ** [os.path.normpath], component by component *)

Lemma split_sep_app cur a rest :
  split_sep cur (a ++ sep :: rest) = split_sep cur a ++ split_sep [] rest.
Proof.
  revert cur. induction a as [|x a IH]; intros cur; cbn [app split_sep].
  - by rewrite N.eqb_refl.
  - destruct (x =? sep); [by rewrite IH|apply IH].
Qed.

Lemma split_sep_plain cur x : sep ∉ x → split_sep cur x = [rev cur ++ x].
Proof.
  revert cur. induction x as [|c x IH]; intros cur Hx; cbn [split_sep].
  - by rewrite app_nil_r.
  - apply not_elem_of_cons in Hx as [Hc Hx].
    replace (c =? sep) with false by (symmetry; apply N.eqb_neq; congruence).
    rewrite IH by done. cbn [rev]. by rewrite <- app_assoc.
Qed.

Lemma split_sep_slashes i s :
  split_sep [] (replicate i sep ++ s) = replicate i [] ++ split_sep [] s.
Proof.
  induction i as [|i IH]; cbn [replicate app split_sep]; [done|].
  rewrite N.eqb_refl. cbn [rev]. by rewrite IH.
Qed.

Lemma split_sep_no_sep cur s :
  sep ∉ cur → Forall (fun x => sep ∉ x) (split_sep cur s).
Proof.
  revert cur. induction s as [|c s IH]; intros cur Hcur; cbn [split_sep].
  - apply Forall_singleton. by intros ?%list_elem_of_In%in_rev%list_elem_of_In.
  - destruct (c =? sep) eqn:E.
    + apply Forall_cons. split.
      * by intros ?%list_elem_of_In%in_rev%list_elem_of_In.
      * apply IH. by intros ?%elem_of_nil.
    + apply IH. apply N.eqb_neq in E. apply not_elem_of_cons. split; [congruence|done].
Qed.

(** The components of a string without a dot are never [..]. *)
Lemma split_sep_no_dot cur s :
  46 ∉ cur → 46 ∉ s → Forall (fun x => x ≠ dotdot) (split_sep cur s).
Proof.
  revert cur. induction s as [|c s IH]; intros cur Hcur Hs; cbn [split_sep].
  - apply Forall_singleton. intros Heq. apply Hcur.
    apply list_elem_of_In, in_rev, list_elem_of_In. rewrite Heq. by left.
  - apply not_elem_of_cons in Hs as [Hc Hs]. destruct (c =? sep).
    + apply Forall_cons. split.
      * intros Heq. apply Hcur.
        apply list_elem_of_In, in_rev, list_elem_of_In. rewrite Heq. by left.
      * apply IH; [by intros ?%elem_of_nil|done].
    + apply IH; [|done]. apply not_elem_of_cons. split; [congruence|done].
Qed.

Lemma normpath_comps_empties i n l acc :
  normpath_comps i (replicate n [] ++ l) acc = normpath_comps i l acc.
Proof. induction n as [|n IH]; [done|]. cbn [replicate app normpath_comps]. exact IH. Qed.

Lemma normpath_comps_push i x rest acc :
  x ≠ [] → x ≠ py "." → x ≠ dotdot →
  normpath_comps i (x :: rest) acc = normpath_comps i rest (x :: acc).
Proof.
  intros H1 H2 H3. cbn [normpath_comps].
  rewrite (bool_decide_eq_false_2 (x = [])), (bool_decide_eq_false_2 (x = py ".")),
    (bool_decide_eq_true_2 (x ≠ dotdot)) by done.
  reflexivity.
Qed.

Lemma normpath_comps_app i l1 l2 acc :
  normpath_comps i (l1 ++ l2) acc
  = normpath_comps i l2 (rev (normpath_comps i l1 acc)).
Proof.
  revert acc. induction l1 as [|x l1 IH]; intros acc; cbn [app normpath_comps].
  - by rewrite rev_involutive.
  - destruct (_ || _); [apply IH|]. destruct (_ || _); apply IH.
Qed.

Lemma normpath_comps_kept i l acc :
  Forall plain_component l → normpath_comps i l acc = rev acc ++ l.
Proof.
  revert acc. induction l as [|x l IH]; intros acc Hl.
  - cbn. by rewrite app_nil_r.
  - apply Forall_cons in Hl as [(H1 & H2 & H3 & _) Hl].
    rewrite normpath_comps_push, IH by done. cbn [rev].
    by rewrite <- app_assoc.
Qed.

(** Without a [..] among the components nothing is taken back. *)
Lemma normpath_comps_grow i comps acc :
  Forall (fun x => x ≠ dotdot) comps →
  (length acc ≤ length (normpath_comps i comps acc))%nat.
Proof.
  revert acc. induction comps as [|x comps IH]; intros acc H;
    cbn [normpath_comps].
  - by rewrite length_rev.
  - apply Forall_cons in H as [Hx H].
    destruct (_ || _); [by apply IH|].
    rewrite (bool_decide_eq_true_2 (x ≠ dotdot)) by done. cbn [orb].
    etransitivity; [|by apply IH]. cbn [length]. lia.
Qed.

(** On an absolute path the components kept are plain. *)
Lemma normpath_comps_plain i comps acc :
  i ≠ 0%nat →
  Forall (fun x => sep ∉ x) comps →
  Forall plain_component acc →
  Forall plain_component (normpath_comps i comps acc).
Proof.
  intros Hi. revert acc. induction comps as [|x comps IH]; intros acc Hc Hacc;
    cbn [normpath_comps].
  { by apply Forall_rev. }
  apply Forall_cons in Hc as [Hx Hc].
  destruct (bool_decide (x = []) || bool_decide (x = py ".")) eqn:E1;
    [by apply IH|].
  apply orb_false_elim in E1 as [H1%bool_decide_eq_false_1 H2%bool_decide_eq_false_1].
  destruct (decide (x = dotdot)) as [->|H3].
  - rewrite (bool_decide_eq_false_2 (dotdot ≠ dotdot)) by (intros H; by apply H).
    rewrite (bool_decide_eq_false_2 (i = 0%nat)) by done.
    rewrite (bool_decide_eq_false_2 (head acc = Some dotdot)).
    + cbn [orb andb]. apply IH; [done|]. destruct acc; [done|].
      by apply Forall_cons in Hacc as [_ ?].
    + destruct acc as [|y acc]; [done|]. cbn. intros [= ->].
      apply Forall_cons in Hacc as [(_ & _ & Hy & _) _]. by apply Hy.
  - rewrite (bool_decide_eq_true_2 (x ≠ dotdot)) by done. cbn [orb].
    apply IH; [done|]. apply Forall_cons. by split.
Qed.

Lemma plain_ends_plain x : x ≠ [] → sep ∉ x → ends_plain x.
Proof.
  intros Hne Hx. destruct (exists_last Hne) as (l & z & ->).
  exists l, z. split; [done|]. intros ->. apply Hx.
  apply elem_of_app. right. by left.
Qed.

Lemma str_join_ends_plain l :
  l ≠ [] → Forall plain_component l → ends_plain (str_join [sep] l).
Proof.
  induction l as [|x l IH]; [done|]. intros _ Hl.
  apply Forall_cons in Hl as [(H1 & _ & _ & H4) Hl].
  destruct l as [|y l].
  - cbn. by apply plain_ends_plain.
  - cbn [str_join]. rewrite app_assoc. apply ends_plain_app. by apply IH.
Qed.

Lemma split_str_join l :
  l ≠ [] → Forall plain_component l → split_sep [] (str_join [sep] l) = l.
Proof.
  induction l as [|x l IH]; [done|]. intros _ Hl.
  apply Forall_cons in Hl as [(H1 & _ & _ & H4) Hl].
  destruct l as [|y l].
  - cbn [str_join]. by rewrite split_sep_plain.
  - change (str_join [sep] (x :: y :: l))
      with (x ++ sep :: str_join [sep] (y :: l)).
    rewrite split_sep_app, split_sep_plain by done.
    rewrite IH by done. reflexivity.
Qed.

(** An absolute path never is its own normal form followed by
    [.git/...]: the normal form would have to hold its own components and
    [.git] besides. *)
Lemma normpath_git_rest c rest :
  startswith [sep] c = true →
  Forall (fun x => x ≠ dotdot) (split_sep [] rest) →
  c ≠ join (normpath c) [py ".git"] ++ sep :: rest.
Proof.
  intros Habs Hrest Heq.
  assert (Hne : c ≠ []) by (intros ->; discriminate Habs).
  unfold normpath in Heq.
  rewrite (bool_decide_eq_false_2 (c = [])) in Heq by done.
  cbv zeta in Heq. rewrite Habs in Heq.
  remember (if startswith [sep; sep] c && negb (startswith [sep; sep; sep] c)
            then 2%nat else 1%nat) as i eqn:Hi.
  assert (Hi12 : i = 1%nat ∨ i = 2%nat) by (subst i; destruct (_ && _); auto).
  clear Hi.
  remember (normpath_comps i (split_sep [] c) []) as stack eqn:Hs.
  rewrite (bool_decide_eq_false_2 (replicate i sep ++ _ = [])) in Heq
    by (destruct Hi12 as [-> | ->]; discriminate).
  assert (Hplain : Forall plain_component stack).
  { subst stack. apply normpath_comps_plain; [lia| |done].
    apply split_sep_no_sep. by intros ?%elem_of_nil. }
  assert (Hgit : plain_component (py ".git")).
  { repeat split; try discriminate.
    apply (bool_decide_unpack _). vm_compute. reflexivity. }
  assert (Hlen : (length stack < length stack)%nat); [|lia].
  destruct stack as [|x st].
  - assert (Hj : join (replicate i sep ++ str_join [sep] []) [py ".git"]
                 = replicate i sep ++ py ".git")
      by (destruct Hi12 as [-> | ->]; vm_compute; reflexivity).
    rewrite Hj, <- app_assoc in Heq. rewrite Heq in Hs.
    rewrite split_sep_slashes, normpath_comps_empties in Hs.
    rewrite split_sep_app, split_sep_plain in Hs by apply Hgit.
    cbn [rev app] in Hs.
    rewrite normpath_comps_push in Hs by apply Hgit.
    match type of Hs with
    | _ = ?X =>
        pose proof (normpath_comps_grow i (split_sep [] rest) [py ".git"] Hrest
                    : (1 ≤ length X)%nat) as Hg
    end.
    rewrite <- Hs in Hg. cbn in Hg. lia.
  - set (J := str_join [sep] (x :: st)) in *.
    assert (HJ : ends_plain J) by by apply str_join_ends_plain.
    rewrite join_plain1 in Heq by (by apply ends_plain_app || discriminate).
    rewrite <- !app_assoc in Heq. cbn [app] in Heq. rewrite Heq in Hs.
    rewrite split_sep_slashes, normpath_comps_empties in Hs.
    rewrite split_sep_app in Hs. unfold J in Hs.
    rewrite split_str_join in Hs by done.
    rewrite split_sep_app, split_sep_plain in Hs by apply Hgit.
    rewrite normpath_comps_app, (normpath_comps_kept i (x :: st) []) in Hs by done.
    cbn [rev app] in Hs.
    rewrite normpath_comps_push in Hs by apply Hgit.
    match type of Hs with
    | _ = ?X =>
        match X with
        | normpath_comps _ _ ?acc =>
            pose proof (normpath_comps_grow i (split_sep [] rest) acc Hrest
                        : (length acc ≤ length X)%nat) as Hg
        end
    end.
    rewrite <- Hs in Hg. cbn [length] in Hg.
    rewrite length_app, length_rev in Hg. cbn [length] in Hg. lia.
Qed.

(** ** What [store] leaves alone: the working files *)

Lemma confined_write_object_store zlib_compress dir db id content :
  ends_plain db → is_content_id id →
  confined dir (store_keys (resolve_in dir db))
    (write_object zlib_compress (mkDatabase db) id content).
Proof.
  intros Hdb Hid.
  destruct (write_object_paths db id Hdb Hid) as (Hobj & Hdir & Hplain).
  unfold write_object. cbn [Database_pathname]. rewrite Hdir, Hobj.
  assert (Hne : db ≠ []) by by apply ends_plain_nonempty.
  set (D := resolve_in dir db).
  assert (Hdrop : sep ∉ drop 2 id).
  { destruct Hid as [_ Hhex]. apply (Forall_drop _ 2) in Hhex.
    rewrite Forall_forall in Hhex. intros Hin.
    by apply (lower_hex_not_sep _ (Hhex _ Hin)). }
  assert (Kdir : store_keys D (resolve_in dir (db ++ sep :: take 2 id))).
  { exists id. split; [done|]. left. by apply resolve_in_app. }
  assert (Kobj : store_keys D
            (resolve_in dir (db ++ sep :: take 2 id ++ sep :: drop 2 id))).
  { exists id. split; [done|]. right. exists (drop 2 id). split; [done|].
    rewrite resolve_in_app by done. by rewrite <- app_assoc. }
  apply (confined_bind_post _ _ (fun name => sep ∉ name)).
  { apply confined_generate_temp_name. }
  { intros w a w' _ H. by destruct (temp_name_facts _ _ _ H) as (_ & _ & _ & ?). }
  intros name Hname.
  assert (Hhead : head name ≠ Some sep).
  { destruct name as [|x name]; [done|]. cbn. intros [= ->]. apply Hname. by left. }
  assert (Ktmp : store_keys D
            (resolve_in dir (join (db ++ sep :: take 2 id) [name]))).
  { exists id. split; [done|]. right. exists name. split; [done|].
    rewrite join_plain1 by done.
    rewrite <- app_assoc, resolve_in_app by done. by rewrite <- app_assoc. }
  apply (confined_bind_post _ _
           (fun f => f = None
                     ∨ f = Some (resolve_in dir (join (db ++ sep :: take 2 id)
                                                   [name])))).
  { apply confined_try.
    - apply confined_bind; [by apply confined_open_append|].
      intros h. apply confined_ret.
    - intros []; try apply confined_ret.
      apply confined_bind; [by apply confined_mkdir|]. intros _.
      apply confined_bind; [by apply confined_open_append|].
      intros h. apply confined_ret. }
  { intros w f w' <- H. by apply try_open_handle in H. }
  intros f Hf.
  apply (confined_bind_post _ _
           (fun h => h = resolve_in dir (join (db ++ sep :: take 2 id)
                                           [name]))).
  { destruct f; [apply confined_ret|apply confined_raise]. }
  { intros w h w' _. destruct Hf as [-> | ->]; [discriminate|].
    intros H. apply (f_equal fst) in H. cbn [fst read_local] in H.
    unfold mret, M_ret in H. cbn [fst] in H. congruence. }
  intros h ->. apply confined_bind; [by apply confined_file_write|].
  intros _. apply confined_bind; [apply confined_ret|].
  intros _. by apply confined_rename.
Qed.

Lemma confined_store_then_store epoch_seconds zlib_compress dir db object :
  ends_plain db →
  confined dir (store_keys (resolve_in dir db))
    (store_then epoch_seconds zlib_compress (mkDatabase db) object).
Proof.
  intros Hdb w r w' Hw. unfold store_then.
  destruct (serialize epoch_seconds object) as [data|e] eqn:Hs.
  - rewrite (store_serialized _ _ _ _ _ _ Hs). cbv zeta.
    destruct (write_object _ _ _ _ _) as [[[]|e] w1] eqn:E;
      intros [= _ <-];
      (eapply confined_write_object_store;
       [exact Hdb|apply sha1_hexdigest_content_id|exact Hw|exact E]).
  - rewrite (store_failed _ _ _ _ _ _ Hs). intros [= _ <-].
    rewrite <- Hw. apply confined_run_refl.
Qed.

Lemma app_sep_inj l1 l2 f g :
  sep ∉ f → sep ∉ g → l1 ++ sep :: f = l2 ++ sep :: g → l1 = l2 ∧ f = g.
Proof.
  intros Hf Hg. revert l2.
  induction l1 as [|x l1 IH]; intros [|y l2] H; cbn [app] in H.
  - by injection H as ->.
  - injection H as <- ->. exfalso. apply Hf. apply elem_of_app. right. by left.
  - injection H as -> <-. exfalso. apply Hg. apply elem_of_app. right. by left.
  - injection H as -> H. by destruct (IH _ H) as [-> ->].
Qed.

Lemma endswith_sep_inv c : endswith [sep] c = true → ∃ c', c = c' ++ [sep].
Proof.
  unfold endswith. intros [H1%bool_decide_eq_true_1 _]%andb_prop.
  exists (take (length c - length [sep]) c).
  rewrite <- H1 at 2. by rewrite take_drop.
Qed.

(** A file of the working directory is never one of the keys [store]
    writes to, whatever the working directory is. *)
Lemma working_file_not_stored c f :
  sep ∉ f →
  ¬ store_keys
      (resolve_in c (join (join (abspath c c) [py ".git"]) [py "objects"]))
      (resolve_in c f).
Proof.
  intros Hf.
  assert (Hhead : head f ≠ Some sep).
  { destruct f as [|x f]; [done|]. cbn. intros [= ->]. apply Hf. by left. }
  set (P := if bool_decide (c = []) || endswith [sep] c then c else c ++ [sep]).
  assert (Hkey : resolve_in c f = P ++ f).
  { unfold resolve_in. rewrite (startswith_sep_plain f Hhead).
    cbn [join fold_left]. by apply join2_relative. }
  set (git := join (abspath c c) [py ".git"]).
  assert (Hplain : ends_plain git) by apply ends_plain_git.
  assert (Hne : git ≠ []) by by apply ends_plain_nonempty.
  rewrite join_plain1 by (done || discriminate).
  rewrite resolve_in_app by done. rewrite Hkey.
  intros (id & [Hlen Hhex] & Hk).
  set (xx := take 2 id) in *.
  assert (Hxs : (sep ∉ xx) ∧ (46 ∉ xx)).
  { apply (Forall_take _ 2) in Hhex. rewrite Forall_forall in Hhex.
    split; intros Hin; by pose proof (Hhex _ Hin). }
  destruct Hxs as [Hx1 Hx2].
  assert (Hshape : ∃ z g,
            (z = [] ∨ z = sep :: xx) ∧ (sep ∉ g)
            ∧ P ++ f = (resolve_in c git ++ sep :: py "objects" ++ z)
                       ++ sep :: g).
  { destruct Hk as [Hk|(n & Hn & Hk)].
    - exists [], xx. split; [by left|]. split; [done|]. by rewrite app_nil_r.
    - exists (sep :: xx), n. split; [by right|]. split; [done|].
      rewrite Hk. by rewrite <- !app_assoc. }
  clear Hk. destruct Hshape as (z & g & Hz & Hg & Heq).
  unfold resolve_in in Heq.
  destruct (startswith [sep] git) eqn:Habs.
  2: { cbn [join fold_left] in Heq.
       rewrite join2_relative in Heq by by apply startswith_sep_false.
       fold P in Heq. rewrite <- !app_assoc in Heq. apply app_inv_head in Heq.
       apply Hf. rewrite Heq. apply elem_of_app. right. by left. }
  assert (HS : ∃ t, (t = [] ∨ t = [sep])
                    ∧ c = (git ++ sep :: py "objects" ++ z) ++ t).
  { destruct (decide (c = [])) as [Hc|Hc].
    - exfalso.
      assert (HP : P = [])
        by (unfold P; rewrite Hc; by rewrite bool_decide_eq_true_2).
      rewrite HP in Heq. cbn [app] in Heq.
      apply Hf. rewrite Heq. apply elem_of_app. right. by left.
    - unfold P in Heq. rewrite (bool_decide_eq_false_2 (c = [])) in Heq by done.
      cbn [orb] in Heq. destruct (endswith [sep] c) eqn:E.
      + destruct (endswith_sep_inv c E) as [c' Hc'].
        rewrite Hc' in Heq at 1. rewrite <- (app_assoc c' [sep] f) in Heq.
        cbn [app] in Heq. apply app_sep_inj in Heq as [Heq _]; [|done..].
        exists [sep]. split; [by right|]. by rewrite <- Heq.
      + rewrite <- (app_assoc c [sep] f) in Heq. cbn [app] in Heq.
        apply app_sep_inj in Heq as [Heq _]; [|done..].
        exists []. split; [by left|]. by rewrite app_nil_r. }
  destruct HS as (t & Ht & Hc).
  assert (Hcabs : startswith [sep] c = true).
  { rewrite Hc. by rewrite <- app_assoc, startswith_sep_app. }
  unfold git, abspath in Hc. rewrite Hcabs in Hc.
  apply (normpath_git_rest c (py "objects" ++ z ++ t) Hcabs).
  - apply split_sep_no_dot; [by intros ?%elem_of_nil|].
    rewrite !not_elem_of_app. split; [|split].
    + apply (bool_decide_unpack _). vm_compute. reflexivity.
    + destruct Hz as [-> | ->]; [by intros ?%elem_of_nil|].
      apply not_elem_of_cons. by split.
    + destruct Ht as [-> | ->]; [by intros ?%elem_of_nil|].
      apply not_elem_of_cons. split; [done|by intros ?%elem_of_nil].
  - rewrite Hc at 1. rewrite <- !app_assoc. reflexivity.
Qed.

(** ** The commit object of a world *)

Section CommitEntries.
Variable epoch_seconds : datetime → Z.
Variable zlib_compress : bytes → bytes.
Variable w0 : world.
Variable db : pystr.
Variable K : pystr → Prop.
Hypothesis HK : ∀ object,
  confined (cwd w0) K
    (store_then epoch_seconds zlib_compress (mkDatabase db) object).

(** The loop of [commit] makes, for every file, the entry of the Blob of
    what the file held when [commit] started: storing the earlier blobs
    has not touched it. *)
Lemma store_files_entries workspace files entries w entries' w' :
  confined_run (cwd w0) K w0 w →
  (∀ f, f ∈ files → ¬ K (resolve w0 f)) →
  store_files epoch_seconds zlib_compress workspace (mkDatabase db)
    files entries w = (Ok entries', w') →
  ∃ new, entries' = entries ++ new ∧ Forall2 (blob_entry w0) files new.
Proof.
  revert entries w.
  induction files as [|file rest IH]; intros entries w Hrun Hout H;
    cbn [store_files] in H.
  { apply (f_equal fst) in H. cbn [fst] in H. unfold mret, M_ret in H.
    cbn [fst] in H. injection H as <-. exists []. by rewrite app_nil_r. }
  apply bind_ok_inv in H as (data & w1 & E1 & H).
  assert (Hread : fs w !! resolve w file = Some (File data) ∧ w1 = w).
  { unfold read_file, read_bytes in E1. cbn [join fold_left] in E1.
    destruct (fs w !! resolve w file) as [[|d]|]; try discriminate E1.
    apply (f_equal snd) in E1 as Hw. apply (f_equal fst) in E1.
    cbn [fst snd] in E1, Hw. split; congruence. }
  destruct Hread as [Hdata ->].
  destruct Hrun as [Hcwd Hfs].
  assert (Hdata0 : fs w0 !! resolve w0 file = Some (File data)).
  { rewrite <- Hfs by (apply Hout; by left).
    unfold resolve in *. by rewrite <- Hcwd. }
  apply bind_ok_inv in H as (blob & w2 & E2 & H).
  pose proof (HK (Blob data) w _ w2 Hcwd E2) as R2.
  destruct (store_then_ok _ _ _ _ _ _ _ E2) as (d' & Hser & -> & _).
  injection Hser as <-.
  apply bind_ok_inv in H as (blob_id & w3 & E3 & H).
  apply get_id_ok in E3 as [E3 ->]. cbn [id_attr] in E3. injection E3 as <-.
  destruct (IH _ _ (confined_run_trans _ _ _ _ _ (conj Hcwd Hfs) R2)
              (fun f Hf => Hout f (proj2 (elem_of_cons _ _ _) (or_intror Hf))) H)
    as (new & -> & Hnew).
  exists (mkEntry file (sha1_hexdigest (frame_of (Blob data) data)) :: new).
  split; [by rewrite <- app_assoc|].
  constructor; [|exact Hnew]. by exists data.
Qed.

End CommitEntries.

(** The commit object of a world is determined by the world. *)
Lemma blob_entries_functional w files entries1 entries2 :
  Forall2 (blob_entry w) files entries1 →
  Forall2 (blob_entry w) files entries2 → entries1 = entries2.
Proof.
  intros H1. revert entries2.
  induction H1 as [|f e1 files l1 (d1 & Hd1 & ->) _ IH];
    intros entries2 H2; inversion H2 as [|? e2 ? l2 (d2 & Hd2 & ->) Hrest];
    subst; [done|].
  rewrite Hd1 in Hd2. injection Hd2 as <-. f_equal. by apply IH.
Qed.

Lemma commit_id_of_functional epoch_seconds w id1 id2 :
  commit_id_of epoch_seconds w id1 → commit_id_of epoch_seconds w id2 →
  id1 = id2.
Proof.
  intros (files1 & entries1 & td1 & n1 & e1 & cd1
          & Hl1 & Hb1 & Ht1 & Hn1 & He1 & Hc1 & ->)
         (files2 & entries2 & td2 & n2 & e2 & cd2
          & Hl2 & Hb2 & Ht2 & Hn2 & He2 & Hc2 & ->).
  cbv zeta in *.
  assert (files2 = files1) by congruence. subst files2.
  assert (entries2 = entries1) by by eapply blob_entries_functional.
  subst entries2.
  assert (td2 = td1) by congruence. subst td2.
  assert (n2 = n1) by congruence. subst n2.
  assert (e2 = e1) by congruence. subst e2.
  assert (cd2 = cd1) by congruence. by subst cd2.
Qed.

(** One successful [commit]: the commit object built from the working
    files, the environment, the clock and the standard input is stored,
    its id is appended to the head file and printed. *)
Lemma commit_run epoch_seconds zlib_compress w w' :
  commit epoch_seconds zlib_compress w = (Ok (), w') →
  let git_path := join (abspath (cwd w) (cwd w)) [py ".git"] in
  let HEAD := resolve w (join git_path [py "HEAD"]) in
  let database := mkDatabase (join git_path [py "objects"]) in
  cwd w' = cwd w
  ∧ ∃ id,
      commit_id_of epoch_seconds w id
      ∧ fs w' !! HEAD
        = Some (File (file_contents w HEAD ++ map byte_of_N id))
      ∧ is_file_at w' (object_key w database id)
      ∧ stdout w'
        = stdout w ++ py "[(root-commit) " ++ id ++ py "] "
            ++ hd [] (stdin w) ++ [10].
Proof.
  intros H git_path HEAD database.
  destruct (commit_success_run _ _ _ _ H)
    as (files & entries & w2 & tree & w3 & name & email & message & w4
        & commit_obj & w5 & file & w6 & tree_id & commit_id
        & E1 & E2 & E3 & En & Ee & E7 & Et & E9 & E10 & Ec & Hcid & ->).
  fold git_path in E2, E3, E9, E10. fold database in E2, E3, E9.
  assert (Hgit : ends_plain git_path) by apply ends_plain_git.
  assert (Hgne : git_path ≠ []) by by apply ends_plain_nonempty.
  assert (Hdbp : join git_path [py "objects"] = git_path ++ py "/objects")
    by by apply join_plain1.
  assert (Hhp : join git_path [py "HEAD"] = git_path ++ py "/HEAD")
    by by apply join_plain1.
  assert (Hdb : ends_plain (join git_path [py "objects"])).
  { rewrite Hdbp. apply ends_plain_app. by exists (py "/object"), 115. }
  set (db := join git_path [py "objects"]) in *.
  (* the entries *)
  assert (Hout : ∀ f, f ∈ files →
            ¬ store_keys (resolve_in (cwd w) db) (resolve w f)).
  { intros f Hf. apply working_file_not_stored.
    by eapply list_files_no_sep. }
  destruct (store_files_entries epoch_seconds zlib_compress w db
              (store_keys (resolve_in (cwd w) db))
              (fun object => confined_store_then_store _ _ _ _ object Hdb)
              _ files [] w entries w2 (confined_run_refl _ _) Hout E2)
    as (new & Hnew & Hentries).
  cbn [app] in Hnew. subst new.
  (* the file system outside the object directory, the process *)
  set (B := below (resolve_in (cwd w) db)).
  pose proof (confined_store_files epoch_seconds zlib_compress (cwd w) db
                _ files [] Hdb w _ w2 eq_refl E2) as R2.
  pose proof (confined_step _ B _ _ _ _ _
                (confined_store_then epoch_seconds zlib_compress _ _ _ Hdb)
                R2 E3) as R3.
  pose proof (same_process_trans _ _ _
                (quiet_store_files _ _ _ _ _ _ _ _ _ E2)
                (quiet_store_then _ _ _ _ _ _ _ E3))
    as (Hc3 & Hen3 & Hin3 & Hout3 & Herr3 & Hck3).
  rewrite stdin_readline_run in E7. injection E7 as Hm <-.
  set (w4 := mkworld _ _ _ _ _ _ _ _) in E9.
  assert (Hc4 : cwd w4 = cwd w) by exact Hc3.
  pose proof (confined_store_then epoch_seconds zlib_compress (cwd w) db
                _ Hdb w4 _ w5 Hc4 E9) as [Hc5 Hfs5].
  pose proof (quiet_store_then _ _ _ _ _ _ _ E9)
    as (_ & Hen5 & Hin5 & Hout5 & Herr5 & Hck5).
  pose proof (quiet_open_append _ _ _ _ E10)
    as (Hc6 & Hen6 & Hin6 & Hout6 & Herr6 & Hck6).
  cbn [stdin stdout stderr w4] in Hin5, Hout5, Herr5.
  (* the objects *)
  destruct (store_then_ok _ _ _ _ _ _ _ E3) as (tree_data & Hts & -> & _).
  cbn [id_attr] in Et. injection Et as <-.
  destruct (store_then_ok _ _ _ _ _ _ _ E9) as (commit_data & Hcs & -> & Hw).
  cbn [id_attr] in Ec. injection Ec as <-.
  assert (Hnow : now_of w3 = now_of w) by (unfold now_of; by rewrite Hck3).
  rewrite Hnow in *. rewrite Hin3 in Hm. subst message.
  set (tree_id := sha1_hexdigest (frame_of (Tree entries) tree_data)) in *.
  set (author := mkAuthor name email (now_of w)) in *.
  set (id := sha1_hexdigest
               (frame_of (Commit tree_id author (hd [] (stdin w))) commit_data))
    in *.
  (* the head file *)
  assert (HHEAD : HEAD = resolve_in (cwd w) git_path ++ py "/HEAD").
  { unfold HEAD, resolve. rewrite Hhp. by apply resolve_in_app. }
  assert (HB : ¬ B HEAD).
  { unfold B. rewrite Hdbp, resolve_in_app, HHEAD by done.
    apply below_objects_not_HEAD. }
  destruct (open_append_handle _ _ _ _ E10) as [Hfile _].
  destruct (open_append_contents _ _ _ _ E10) as [Hcont6 _].
  assert (Hkey5 : resolve w5 (join git_path [py "HEAD"]) = HEAD).
  { unfold HEAD, resolve. by rewrite Hc5. }
  rewrite Hkey5 in Hfile. subst file.
  split.
  { cbn [cwd set_fs print stdout_write file_write snd]. congruence. }
  exists id. split; [|split; [|split]].
  - exists files, entries, tree_data, name, email, commit_data.
    rewrite <- Hen3. repeat (split; [done|]). cbv zeta. by split.
  - cbn [print stdout_write file_write snd fs set_fs].
    rewrite lookup_insert_eq. do 3 f_equal.
    change (match fs w6 !! HEAD with Some (File d) => d | _ => [] end)
      with (file_contents w6 HEAD).
    rewrite Hcont6. unfold file_contents.
    rewrite (Hfs5 HEAD HB). change (fs w4) with (fs w3).
    by rewrite (proj2 R3 HEAD HB).
  - destruct (write_object_ok _ _ _ _ _ _ Hw) as [old Hold].
    assert (Hkey : object_key w database id
                   = resolve w4 (join db [take 2 id; drop 2 id]))
      by (unfold object_key, resolve; by rewrite Hc4).
    assert (Hne : object_key w database id ≠ HEAD).
    { destruct (write_object_keys w _ id [] Hdb (sha1_hexdigest_content_id _))
        as (_ & Kobj & _); [by intros ?%elem_of_nil|].
      fold database in Kobj. rewrite Kobj. unfold resolve.
      rewrite Hdbp, HHEAD, !resolve_in_app by done. intros Heq.
      apply (below_objects_not_HEAD (resolve_in (cwd w) git_path)).
      rewrite <- Heq. exists ((sep :: take 2 id) ++ sep :: drop 2 id).
      split; [done|]. by rewrite <- !app_assoc. }
    exists (old ++ zlib_compress
                     (frame_of (Commit tree_id author (hd [] (stdin w)))
                        commit_data)).
    cbn [print stdout_write file_write snd fs set_fs].
    rewrite lookup_insert_ne by done.
    destruct (confined_open_append (cwd w5) (fun k => k = HEAD)
                (join git_path [py "HEAD"])) with (w := w5) (r := Ok HEAD)
                (w' := w6) as [_ Hkeep]; [|done|done|].
    { unfold HEAD, resolve. by rewrite Hc5. }
    rewrite (Hkeep _ Hne), Hkey. exact Hold.
  - cbn [print stdout_write file_write snd stdout set_fs].
    rewrite Hout6, Hout5, Hout3. by rewrite <- !app_assoc.
Qed.

(** C10. After every successful [commit], the file [<root>/.git/HEAD]
    holds what it held before followed by exactly the forty hexadecimal
    digits of the commit's content id, with no newline or other
    separator.  The id is that of the commit object [commit] has built
    and stored - the tree of the working files as they were, the author
    of the environment and the clock, the message read from the standard
    input - and the one it prints.  After two successful commits the ids
    of the two commits stand one directly after the other behind the
    earlier content. *)
Theorem commit_appends_to_HEAD epoch_seconds zlib_compress w w1 :
  commit epoch_seconds zlib_compress w = (Ok (), w1) →
  let git_path := join (abspath (cwd w) (cwd w)) [py ".git"] in
  let HEAD := resolve w (git_path ++ py "/HEAD") in
  let database := mkDatabase (join git_path [py "objects"]) in
  join git_path [py "HEAD"] = git_path ++ py "/HEAD"
  ∧ (∃ id,
       commit_id_of epoch_seconds w id
       ∧ is_content_id id
       ∧ fs w1 !! HEAD
         = Some (File (file_contents w HEAD ++ map byte_of_N id))
       ∧ is_file_at w1 (object_key w database id)
       ∧ stdout w1
         = stdout w ++ py "[(root-commit) " ++ id ++ py "] "
             ++ hd [] (stdin w) ++ [10])
  ∧ (∀ w2,
       commit epoch_seconds zlib_compress w1 = (Ok (), w2) →
       ∃ id1 id2,
         commit_id_of epoch_seconds w id1
         ∧ commit_id_of epoch_seconds w1 id2
         ∧ is_content_id id1 ∧ is_content_id id2
         ∧ fs w2 !! HEAD
           = Some (File (file_contents w HEAD
                         ++ map byte_of_N id1 ++ map byte_of_N id2))).
Proof.
  intros H1 git_path HEAD database.
  assert (Hhp : join git_path [py "HEAD"] = git_path ++ py "/HEAD").
  { apply join_plain1; [apply ends_plain_git|discriminate]. }
  assert (Hcontent : ∀ w id, commit_id_of epoch_seconds w id → is_content_id id).
  { intros w' id (? & ? & ? & ? & ? & ? & _ & _ & _ & _ & _ & _ & ->).
    apply sha1_hexdigest_content_id. }
  destruct (commit_run _ _ _ _ H1) as (Hcwd1 & id1 & Hof1 & Hfs1 & Hobj1 & Hout1).
  fold git_path in Hfs1, Hobj1. rewrite Hhp in Hfs1. fold HEAD in Hfs1.
  fold database in Hobj1.
  split; [exact Hhp|]. split.
  { exists id1. repeat (split; [by eauto|]). exact Hout1. }
  intros w2 H2.
  destruct (commit_run _ _ _ _ H2) as (_ & id2 & Hof2 & Hfs2 & _).
  unfold resolve in Hfs2. rewrite Hcwd1 in Hfs2.
  fold git_path in Hfs2. rewrite Hhp in Hfs2.
  fold (resolve w (git_path ++ py "/HEAD")) in Hfs2. fold HEAD in Hfs2.
  exists id1, id2. repeat (split; [by eauto|]).
  rewrite Hfs2. unfold file_contents at 1. rewrite Hfs1.
  by rewrite <- app_assoc.
Qed.

Lemma commit_appends_to_HEAD_witness :
  commit utc_epoch_seconds store_only sample_repo
  = (Ok (), (commit utc_epoch_seconds store_only sample_repo).2)
  ∧ ∃ id,
      commit_id_of utc_epoch_seconds sample_repo id
      ∧ is_content_id id
      ∧ fs (commit utc_epoch_seconds store_only sample_repo).2
          !! py "/repo/.git/HEAD"
        = Some (File (map byte_of_N id)).
Proof.
  assert (H : commit utc_epoch_seconds store_only sample_repo
              = (Ok (), (commit utc_epoch_seconds store_only sample_repo).2))
    by (vm_compute; reflexivity).
  split; [exact H|].
  pose proof (commit_appends_to_HEAD _ _ _ _ H) as T. cbv zeta in T.
  destruct T as (_ & (id & Hof & Hid & Hfs & _) & _).
  assert (Hkey : resolve sample_repo
                   (join (abspath (cwd sample_repo) (cwd sample_repo))
                      [py ".git"] ++ py "/HEAD")
                 = py "/repo/.git/HEAD") by (vm_compute; reflexivity).
  assert (Hold : file_contents sample_repo (py "/repo/.git/HEAD") = [])
    by (vm_compute; reflexivity).
  rewrite Hkey, Hold in Hfs.
  exists id. split; [exact Hof|]. split; [exact Hid|]. exact Hfs.
Defined.

(** Two commits in the sample repository: the head file is the two ids,
    eighty hexadecimal digits and nothing else. *)
Example HEAD_after_two_commits :
  let w1 := (commit utc_epoch_seconds store_only sample_repo).2 in
  let w2 := (commit utc_epoch_seconds store_only w1).2 in
  file_contents w1 (py "/repo/.git/HEAD")
  = b "d53aee6d5d0f473e7e23f7409e02a62647ee7d65"
  ∧ file_contents w2 (py "/repo/.git/HEAD")
    = b "d53aee6d5d0f473e7e23f7409e02a62647ee7d65c378e63f688e0d409207d85c312557881555b015".
Proof. vm_compute. split; reflexivity. Qed.
